(** * Verification of the response transformers of orbs-proxy.py

    The proxy forwards a validated request to a weather service or to a
    portfolio service and projects the JSON answer onto a small schema.
    This development embeds the two transformers
    ([transform_data_tempest], [transform_data_parquet]), their helpers
    ([get_perf], [get_perf_chart]) and the two request handlers, and
    proves the properties the specification states about them.

    Layout:
    - [json], [result] and the Python operations the code applies to parsed
      JSON ([py_get], [py_contains], [py_getitem], [py_iter], ...);
    - the transformers over JSON values;
    - the request handlers over a model of the framework's exceptions;
    - module [Heap]: the same transformers over an explicit object store,
      for the statements about mutation and sharing. *)

From Stdlib Require Import ZArith String Ascii List Bool Lia.
From Stdlib Require Import SpecFloat.
From stdpp Require Import base option gmap strings list fin_maps.

#[local] Set Warnings "-register-all".
#[local] Open Scope string_scope.
#[local] Open Scope list_scope.

(** ** Parsed JSON

    [response.json()] yields [None], [bool], [int], [float], [str], [list]
    and [dict] with string keys.  Integers are unbounded.  A float is kept
    as its IEEE class and digits ([spec_float]); the code never computes
    with one, it only compares one with [0] and tests its truth value.  A
    string is a sequence of characters, one [ascii] per code point below
    256.  A dictionary is a finite map; the order of its keys is not
    observed by the transformers (see [py_iter]). *)

Inductive json : Type :=
| JNull
| JBool (b : bool)
| JInt (z : Z)
| JFloat (f : spec_float)
| JStr (s : string)
| JList (l : list json)
| JDict (d : gmap string json).

(** ** Exceptions

    The exceptions the operations below can raise on a value of the wrong
    type.  [SliceAsKey] stands for what [d[:4]] raises on a dictionary
    [d], which takes the slice as a key: a [TypeError] (unhashable type)
    up to CPython 3.11 and a [KeyError] from CPython 3.12 on, where slices
    are hashable.  The repository pins no interpreter version. *)

Inductive exn : Type :=
| AttributeError
| TypeError
| KeyError
| SliceAsKey.

Inductive result (A : Type) : Type :=
| Ok (a : A)
| Raise (e : exn).

Arguments Ok {A} a.
Arguments Raise {A} e.

#[global] Instance result_ret : MRet result := fun _ a => Ok a.
#[global] Instance result_bind : MBind result := fun _ _ f m =>
  match m with
  | Ok a => f a
  | Raise e => Raise e
  end.

Definition is_Ok {A} (r : result A) : Prop := ∃ a, r = Ok a.

(** [for x in l: s = body(s, x)], stopping at the first exception. *)
Fixpoint for_each {A S : Type} (body : S → A → result S) (l : list A) (s : S)
  : result S :=
  match l with
  | [] => Ok s
  | x :: l' => s' ← body s x; for_each body l' s'
  end.

(** ** Python operations on parsed JSON *)

Definition is_dict (x : json) : bool :=
  match x with JDict _ => true | _ => false end.

Definition is_str (x : json) : bool :=
  match x with JStr _ => true | _ => false end.

Definition float_is_zero (f : spec_float) : bool :=
  match f with S754_zero _ => true | _ => false end.

(** [bool(x)]: the truth value an [if] or an [or] takes. *)
Definition py_truthy (x : json) : bool :=
  match x with
  | JNull => false
  | JBool b => b
  | JInt z => negb (z =? 0)%Z
  | JFloat f => negb (float_is_zero f)
  | JStr s => negb (String.eqb s "")
  | JList l => match l with [] => false | _ => true end
  | JDict d => negb (bool_decide (d = ∅))
  end.

(** [x == 0]: numbers compare by value, and [bool] is a subclass of [int]
    ([False == 0], [0.0 == 0], [-0.0 == 0]); nothing else equals [0]. *)
Definition py_eq_zero (x : json) : bool :=
  match x with
  | JInt z => (z =? 0)%Z
  | JFloat f => float_is_zero f
  | JBool b => negb b
  | _ => false
  end.

(** [x == s] for a string [s]: only an equal string. *)
Definition py_eq_str (x : json) (s : string) : bool :=
  match x with JStr t => String.eqb t s | _ => false end.

(** [k in s] for two strings: [k] occurs in [s]. *)
Fixpoint str_contains (k s : string) : bool :=
  String.prefix k s ||
  match s with
  | EmptyString => false
  | String _ s' => str_contains k s'
  end.

(** [k in x].  A dictionary tests its keys, a list its elements, a string
    its substrings; the other values are not iterable. *)
Definition py_contains (k : string) (x : json) : result bool :=
  match x with
  | JDict d => Ok (bool_decide (is_Some (d !! k)))
  | JList l => Ok (existsb (fun v => py_eq_str v k) l)
  | JStr s => Ok (str_contains k s)
  | _ => Raise TypeError
  end.

(** [x[k]] with a string [k]. *)
Definition py_getitem (x : json) (k : string) : result json :=
  match x with
  | JDict d => match d !! k with Some v => Ok v | None => Raise KeyError end
  | _ => Raise TypeError
  end.

(** [x.get(k, dflt)]; only a dictionary has [get]. *)
Definition py_get (x : json) (k : string) (dflt : json) : result json :=
  match x with
  | JDict d => Ok (default dflt (d !! k))
  | _ => Raise AttributeError
  end.

Fixpoint str_take (n : nat) (s : string) : string :=
  match n, s with
  | S n', String c s' => String c (str_take n' s')
  | _, _ => EmptyString
  end.

(** [x[:4]].  A dictionary takes the slice as a key and raises
    ([SliceAsKey]); a value that is no sequence raises a [TypeError]. *)
Definition py_slice4 (x : json) : result json :=
  match x with
  | JList l => Ok (JList (take 4 l))
  | JStr s => Ok (JStr (str_take 4 s))
  | JDict _ => Raise SliceAsKey
  | _ => Raise TypeError
  end.

Fixpoint str_chars (s : string) : list json :=
  match s with
  | EmptyString => []
  | String c s' => JStr (String c EmptyString) :: str_chars s'
  end.

(** [for v in x]: the elements of a list, the keys of a dictionary, the
    characters of a string.  The keys come in the order of the map's
    enumeration: every loop below applies [get] to what it reads and so
    raises on a key, whichever comes first. *)
Definition py_iter (x : json) : result (list json) :=
  match x with
  | JList l => Ok l
  | JDict d => Ok (JStr <$> (map_to_list d).*1)
  | JStr s => Ok (str_chars s)
  | _ => Raise TypeError
  end.

Definition lower_char (c : ascii) : ascii :=
  let n := N_of_ascii c in
  if ((65 <=? n) && (n <=? 90))%N
     || ((192 <=? n) && (n <=? 222) && negb (n =? 215))%N
  then ascii_of_N (n + 32)
  else c.

Fixpoint lower (s : string) : string :=
  match s with
  | EmptyString => EmptyString
  | String c s' => String (lower_char c) (lower s')
  end.

(** [x.lower()]; only a string has [lower]. *)
Definition py_lower (x : json) : result string :=
  match x with
  | JStr s => Ok (lower s)
  | _ => Raise AttributeError
  end.

(** ** The helpers [get_perf] and [get_perf_chart] *)

Definition get_perf (data : json) (perf : string) : result json :=
  py_get data perf (JInt 0).

Definition get_perf_chart (data : json) (perf_chart : string) : result json :=
  values ← py_get data "values" (JDict ∅);
  py_get values perf_chart (JInt 0).

(** ** The weather transformer *)

(** The eight assignments of lines 86-93, in order. *)
Definition current_conditions_fields : list string :=
  [ "air_temperature"; "icon"; "conditions"; "feels_like";
    "relative_humidity"; "station_pressure"; "precip_probability";
    "wind_gust" ].

(** The ten entries of the dictionary display of lines 98-110. *)
Definition daily_fields : list string :=
  [ "day_start_local"; "air_temp_high"; "air_temp_low"; "conditions";
    "day_num"; "month_num"; "precip_probability"; "precip_type"; "icon";
    "precip_icon" ].

(** [target[k] = source.get(k)] for each [k] of [keys], in order. *)
Definition copy_fields (keys : list string) (source : json)
    (target : gmap string json) : result (gmap string json) :=
  for_each (fun (acc : gmap string json) k =>
              v ← py_get source k JNull; Ok (<[k := v]> acc))
           keys target.

Definition filtered_daily (daily_forecast : json) : result json :=
  d ← copy_fields daily_fields daily_forecast ∅; Ok (JDict d).

(** Lines 84-93: the block guarded by ["current_conditions" in data],
    started from the empty mapping of line 77. *)
Definition tempest_current_conditions (data : json)
  : result (gmap string json) :=
  has_cc ← py_contains "current_conditions" data;
  if has_cc : bool then
    current_conditions ← py_getitem data "current_conditions";
    copy_fields current_conditions_fields current_conditions ∅
  else Ok ∅.

(** Lines 96-111: the block guarded by
    ["forecast" in data and "daily" in data["forecast"]], started from the
    empty list of line 79. *)
Definition tempest_daily (data : json) : result (list json) :=
  has_forecast ← py_contains "forecast" data;
  has_daily ← (if has_forecast : bool then
                 forecast ← py_getitem data "forecast";
                 py_contains "daily" forecast
               else Ok false);
  if has_daily : bool then
    forecast ← py_getitem data "forecast";
    all ← py_getitem forecast "daily";
    first4 ← py_slice4 all;
    items ← py_iter first4;
    for_each (fun acc daily_forecast =>
                r ← filtered_daily daily_forecast; Ok (acc ++ [r]))
             items []
  else Ok [].

Definition transform_data_tempest (data : json) : result json :=
  cc ← tempest_current_conditions data;
  daily ← tempest_daily data;
  Ok (JDict {[ "current_conditions" := JDict cc;
               "forecast" := JDict {[ "daily" := JList daily ]} ]}).

(** ** The portfolio transformer *)

(** The body of the loop over the holdings, lines 122-141: [None] is
    [continue], [Some h] is the record appended. *)
Definition filter_holding (holding : json) (perf : string)
  : result (option json) :=
  at0 ← py_get holding "assetType" (JStr "");
  asset_type ← py_lower at0;
  if negb (existsb (String.eqb asset_type) ["security"; "crypto"]) then
    Ok None
  else
    position ← py_get holding "position" (JDict ∅);
    is_sold ← py_get position "isSold" JNull;
    position ← py_get holding "position" (JDict ∅);
    shares ← py_get position "shares" JNull;
    if py_truthy is_sold || py_eq_zero shares then
      Ok None
    else
      currency ← py_get holding "currency" JNull;
      asset ← py_get holding "asset" (JDict ∅);
      id ← py_get asset "identifier" JNull;
      shared_asset ← py_get holding "sharedAsset" (JDict ∅);
      name ← py_get shared_asset "name" JNull;
      performance ← py_get holding "performance" (JDict ∅);
      price_start ← py_get performance "priceAtIntervalStart" JNull;
      performance ← py_get holding "performance" (JDict ∅);
      value_start ← py_get performance "purchaseValueForInterval" JNull;
      position ← py_get holding "position" (JDict ∅);
      price_now ← py_get position "currentPrice" JNull;
      position ← py_get holding "position" (JDict ∅);
      value_now ← py_get position "currentValue" JNull;
      position ← py_get holding "position" (JDict ∅);
      shares' ← py_get position "shares" JNull;
      performance ← py_get holding "performance" (JDict ∅);
      p ← get_perf performance perf;
      Ok (Some (JDict {[ "assetType" := JStr asset_type;
                         "currency" := currency;
                         "id" := id;
                         "name" := name;
                         "priceStart" := price_start;
                         "valueStart" := value_start;
                         "priceNow" := price_now;
                         "valueNow" := value_now;
                         "shares" := shares';
                         "perf" := p ]})).

(** Lines 120-141: the loop over [data["holdings"]], started from the
    empty list of line 118. *)
Definition parquet_holdings (data : json) (perf : string)
  : result (list json) :=
  has_holdings ← py_contains "holdings" data;
  if has_holdings : bool then
    hs ← py_getitem data "holdings";
    items ← py_iter hs;
    for_each (fun acc holding =>
                r ← filter_holding holding perf;
                Ok (match r with
                    | Some h => acc ++ [h]
                    | None => acc
                    end))
             items []
  else Ok [].

(** Lines 143-149. *)
Definition parquet_performance (data : json) (perf : string)
  : result (gmap string json) :=
  performance_data ← py_get data "performance" (JDict ∅);
  value_start ← py_get performance_data "purchaseValueForInterval" JNull;
  value_now ← py_get performance_data "value" JNull;
  p ← get_perf performance_data perf;
  Ok (<["perf" := p]> {[ "valueStart" := value_start;
                         "valueNow" := value_now ]}).

(** Lines 151-158: the loop over [data["charts"]] with its [first] flag,
    started from the empty list of line 118. *)
Definition parquet_chart (data : json) (perf_chart : string)
  : result (list json) :=
  has_charts ← py_contains "charts" data;
  if has_charts : bool then
    cs ← py_getitem data "charts";
    items ← py_iter cs;
    st ← for_each (fun (st : bool * list json) chart =>
                     let (first, acc) := st in
                     if first then Ok (false, acc)
                     else
                       v ← get_perf_chart chart perf_chart;
                       Ok (false, acc ++ [v]))
                  items (true, []);
    Ok st.2
  else Ok [].

Definition transform_data_parquet (data : json) (perf perf_chart : string)
  : result json :=
  holdings ← parquet_holdings data perf;
  performance ← parquet_performance data perf;
  chart ← parquet_chart data perf_chart;
  Ok (JDict {[ "holdings" := JList holdings;
               "performance" := JDict performance;
               "chart" := JList chart ]}).

(** ** Concrete runs *)

Definition weather_sample : json :=
  JDict {[ "current_conditions" :=
             JDict {[ "air_temperature" := JInt 21; "icon" := JStr "clear-day";
                      "uv" := JInt 3 ]};
           "forecast" :=
             JDict {[ "daily" :=
                        JList [ JDict {[ "day_num" := JInt 1 ]};
                                JDict {[ "day_num" := JInt 2 ]};
                                JDict {[ "day_num" := JInt 3 ]};
                                JDict {[ "day_num" := JInt 4 ]};
                                JDict {[ "day_num" := JInt 5 ]};
                                JDict {[ "day_num" := JInt 6 ]} ] ]} ]}.

Definition holding_sample (asset_type : string) (shares : json) (sold : json)
  : json :=
  JDict {[ "assetType" := JStr asset_type;
           "currency" := JStr "EUR";
           "position" := JDict {[ "isSold" := sold; "shares" := shares ]};
           "performance" := JDict {[ "ttwror" := JInt 7 ]} ]}.

Definition portfolio_sample : json :=
  JDict {[ "holdings" :=
             JList [ holding_sample "SECURITY" (JInt 0) (JBool false);
                     holding_sample "SECURITY" (JInt (-5)) (JBool false);
                     holding_sample "bond" (JInt 3) (JBool false);
                     holding_sample "Crypto" JNull JNull;
                     holding_sample "crypto" (JInt 2) (JBool true) ];
           "performance" := JDict {[ "value" := JInt 100 ]};
           "charts" :=
             JList [ JDict {[ "values" := JDict {[ "drawdown" := JInt 1 ]} ]};
                     JDict {[ "values" := JDict {[ "drawdown" := JInt 2 ]} ]};
                     JDict ∅ ] ]}.


Definition daily_of_day_num (n : Z) : json :=
  JDict {[ "day_start_local" := JNull; "air_temp_high" := JNull;
           "air_temp_low" := JNull; "conditions" := JNull;
           "day_num" := JInt n; "month_num" := JNull;
           "precip_probability" := JNull; "precip_type" := JNull;
           "icon" := JNull; "precip_icon" := JNull ]}.

Definition kept_sample (asset_type : string) (shares : json) : json :=
  JDict {[ "assetType" := JStr asset_type; "currency" := JStr "EUR";
           "id" := JNull; "name" := JNull; "priceStart" := JNull;
           "valueStart" := JNull; "priceNow" := JNull; "valueNow" := JNull;
           "shares" := shares; "perf" := JInt 7 ]}.

(** ** The specification's vocabulary

    The definitions below follow the words of the specification, not the
    code: a field that is read with "absent becomes a default", the shape
    of a payload, the rule that keeps a holding and the record a kept
    holding is projected to.  The theorems compare the transformers with
    them. *)

(** The value of key [k] in [x]; a value that is not a mapping has no
    keys. *)
Definition field (x : json) (k : string) : option json :=
  match x with JDict d => d !! k | _ => None end.

Definition field_or (dflt : json) (x : json) (k : string) : json :=
  default dflt (field x k).

Definition field_or_null : json → string → json := field_or JNull.

(** [x.k1.k2], an absent [k1] read as the empty mapping and an absent
    [k2] as [dflt]. *)
Definition sub_field (dflt : json) (x : json) (k1 k2 : string) : json :=
  field_or dflt (field_or (JDict ∅) x k1) k2.

(** The elements of an optional sequence; nothing when it is absent. *)
Definition items_of (x : option json) : list json :=
  match x with Some (JList l) => l | _ => [] end.

(** *** Well-shaped payloads (data model, section 3) *)

Definition absent_or (P : json → bool) (x : json) (k : string) : bool :=
  match field x k with None => true | Some v => P v end.

Definition is_list_of (P : json → bool) (x : json) : bool :=
  match x with JList l => forallb P l | _ => false end.

(** A weather payload: a mapping whose [current_conditions], when present,
    is a mapping and whose [forecast], when present, is a mapping whose
    [daily], when present, is a sequence of mappings. *)
Definition wf_weather (data : json) : bool :=
  is_dict data
  && absent_or is_dict data "current_conditions"
  && absent_or (fun f => is_dict f
                         && absent_or (is_list_of is_dict) f "daily")
               data "forecast".

(** A holding record: a mapping whose [assetType], when present, is a
    string and whose [position], [asset], [sharedAsset] and [performance],
    when present, are mappings. *)
Definition wf_holding (h : json) : bool :=
  is_dict h
  && absent_or is_str h "assetType"
  && absent_or is_dict h "position"
  && absent_or is_dict h "asset"
  && absent_or is_dict h "sharedAsset"
  && absent_or is_dict h "performance".

(** A chart record: a mapping whose [values], when present, is a mapping. *)
Definition wf_chart (c : json) : bool :=
  is_dict c && absent_or is_dict c "values".

(** A portfolio payload: a mapping whose [holdings], when present, is a
    sequence of holding records, whose [performance], when present, is a
    mapping and whose [charts], when present, is a sequence of chart
    records. *)
Definition wf_portfolio (data : json) : bool :=
  is_dict data
  && absent_or (is_list_of wf_holding) data "holdings"
  && absent_or is_dict data "performance"
  && absent_or (is_list_of wf_chart) data "charts".

(** *** The holding filter rule (section 4.2) *)

(** The lower-cased [assetType]; a missing one is the empty string. *)
Definition asset_type_of (h : json) : string :=
  match field_or (JStr "") h "assetType" with
  | JStr s => lower s
  | _ => ""
  end.

(** Rule 1 and rule 2: the asset type is one of the two accepted ones,
    [position.isSold] is not truthy and [position.shares] is not equal to
    [0]. *)
Definition keeps (h : json) : bool :=
  bool_decide (asset_type_of h ∈ ["security"; "crypto"])
  && negb (py_truthy (sub_field JNull h "position" "isSold"))
  && negb (py_eq_zero (sub_field JNull h "position" "shares")).

(** Rule 3: the ten-field shape of a surviving holding. *)
Definition projected (perf : string) (h : json) : json :=
  JDict {[ "assetType" := JStr (asset_type_of h);
           "currency" := field_or_null h "currency";
           "id" := sub_field JNull h "asset" "identifier";
           "name" := sub_field JNull h "sharedAsset" "name";
           "priceStart" := sub_field JNull h "performance" "priceAtIntervalStart";
           "valueStart" :=
             sub_field JNull h "performance" "purchaseValueForInterval";
           "priceNow" := sub_field JNull h "position" "currentPrice";
           "valueNow" := sub_field JNull h "position" "currentValue";
           "shares" := sub_field JNull h "position" "shares";
           "perf" := sub_field (JInt 0) h "performance" perf ]}.

(** The scalar a chart record is reduced to. *)
Definition chart_scalar (perf_chart : string) (c : json) : json :=
  sub_field (JInt 0) c "values" perf_chart.

(** [f] applied to each element in order, stopping at the first
    exception. *)
Fixpoint mapM {A B : Type} (f : A → result B) (l : list A)
  : result (list B) :=
  match l with
  | [] => Ok []
  | x :: l' => y ← f x; ys ← mapM f l'; Ok (y :: ys)
  end.

(** A mapping with exactly the keys [keys], each holding the source's
    value for that key, or null when the source lacks it. *)
Definition project_fields (keys : list string) (src : json)
  : gmap string json :=
  foldr (fun k acc => <[k := field_or_null src k]> acc) ∅ keys.

(** [forecast.daily] of a weather payload. *)
Definition forecast_daily (data : json) : option json :=
  field data "forecast" ≫= fun f => field f "daily".

(** ** The request handlers

    The handlers run inside three libraries the repository imports and
    does not define; what the handlers use of them is modelled here.
    - The web framework: a handler either returns a value or raises.  An
      [HTTPException] becomes a response with its status code and detail;
      any other exception escaping the handler becomes a response with
      status 500 ([status_of]).
    - The data-model library: building a request model checks that every
      field is present, that a string field holds a string and that a
      [Literal] field holds one of its allowed strings; it raises a
      validation error otherwise and ignores unknown fields.
    - The HTTP client: a call either gets a response (status code, body
      text, and the body parsed as JSON when it is JSON) or fails to reach
      the upstream (connection error, timeout).  [raise_for_status] raises
      for every status outside 200..299.
    The definitions below model the bodies of the handlers, that is, what
    a call of a handler does.  The route decorators (lines 172-174 and
    229-231) act before that call: the router calls a handler for the
    methods GET and POST only, and the rate limiter refuses a request over
    its limit without calling the handler.  A value a handler returns is
    rendered as the response body by the framework, which can fail (a
    non-finite number); the theorems read [status_of] on raised outcomes
    only. *)

Inductive http_exn : Type :=
| HTTPException (status_code : Z) (detail : string)
| ValidationError
| JSONDecodeError
| Uncaught (e : exn).

Inductive outcome (A : Type) : Type :=
| Return (a : A)
| Raises (e : http_exn).

Arguments Return {A} a.
Arguments Raises {A} e.

Definition status_of {A} (o : outcome A) : Z :=
  match o with
  | Return _ => 200
  | Raises (HTTPException status_code _) => status_code
  | Raises _ => 500
  end.

Record Request : Type := {
  method : string;
  query_params : gmap string string;
  (** [await request.json()]; [None] when the body is not JSON. *)
  request_json : option json
}.

Inductive upstream_call : Type :=
| HttpGet (url : string) (params : gmap string string)
| HttpPost (url : string) (payload : json).

Inductive upstream_outcome : Type :=
| Responded (status_code : Z) (text : string) (parsed : option json)
| RequestFailed (message : string).

Definition WEATHER_API_BASE : string :=
  "https://swd.weatherflow.com/swd/rest/better_forecast".

Definition PARQET_API_BASE : string :=
  "https://api.parqet.com/v1/portfolios/assemble?useInclude=true&include=ttwror&include=performance_charts&resolution=200".

(** The two request models, lines 27-40.  They live in a module of their
    own because their field names ([id], [perf]) are common words. *)
Module Model.

Record WeatherRequest : Type := {
  station_id : string;
  units_temp : string;
  units_wind : string;
  units_pressure : string;
  units_precip : string;
  units_distance : string;
  api_key : string
}.

Record PortfolioRequest : Type := {
  id : string;
  timeframe : string;
  perf : string;
  perfChart : string
}.

End Model.

(** A field annotated [str]. *)
Definition str_field (kwargs : gmap string json) (k : string)
  : option string :=
  match kwargs !! k with Some (JStr s) => Some s | _ => None end.

(** A field annotated [Literal[...]]. *)
Definition literal_field (allowed : list string) (kwargs : gmap string json)
    (k : string) : option string :=
  s ← str_field kwargs k;
  if bool_decide (s ∈ allowed) then Some s else None.

(** The constructor of [WeatherRequest] applied to keyword arguments;
    [None] is a validation error. *)
Definition WeatherRequest_init (kwargs : gmap string json)
  : option Model.WeatherRequest :=
  station_id ← str_field kwargs "station_id";
  units_temp ← literal_field ["c"; "f"] kwargs "units_temp";
  units_wind ← literal_field ["mph"; "kph"; "m/s"] kwargs "units_wind";
  units_pressure ← literal_field ["mb"; "inHg"] kwargs "units_pressure";
  units_precip ← literal_field ["in"; "mm"] kwargs "units_precip";
  units_distance ← literal_field ["mi"; "km"] kwargs "units_distance";
  api_key ← str_field kwargs "api_key";
  Some {| Model.station_id := station_id; Model.units_temp := units_temp;
          Model.units_wind := units_wind;
          Model.units_pressure := units_pressure;
          Model.units_precip := units_precip;
          Model.units_distance := units_distance;
          Model.api_key := api_key |}.

(** The constructor of [PortfolioRequest] applied to keyword arguments;
    [None] is a validation error. *)
Definition PortfolioRequest_init (kwargs : gmap string json)
  : option Model.PortfolioRequest :=
  id ← str_field kwargs "id";
  timeframe ← literal_field
                ["today"; "1d"; "1w"; "1m"; "3m"; "6m"; "1y"; "5y"; "10y";
                 "mtd"; "ytd"; "max"] kwargs "timeframe";
  perf ← literal_field
           ["returnGross"; "returnNet"; "totalReturnGross"; "totalReturnNet";
            "ttwror"; "izf"] kwargs "perf";
  perfChart ← literal_field
                ["perfHistory"; "perfHistoryUnrealized"; "ttwror"; "drawdown"]
                kwargs "perfChart";
  Some {| Model.id := id; Model.timeframe := timeframe; Model.perf := perf;
          Model.perfChart := perfChart |}.

(** Truth value of [request.query_params.get(k)]: [None] and the empty
    string are false. *)
Definition param_truthy (p : option string) : bool :=
  match p with
  | Some s => negb (String.eqb s "")
  | None => false
  end.

(** Keyword arguments from query parameters; an absent one is passed as
    [None]. *)
Definition kwargs_of (args : list (string * option string))
  : gmap string json :=
  list_to_map ((fun kv => (kv.1, from_option JStr JNull kv.2)) <$> args).

Definition is_success (status_code : Z) : bool :=
  (200 <=? status_code)%Z && (status_code <=? 299)%Z.

(** Lines 44-55.  The result comes with the calls made to the upstream. *)
Definition fetch_weather_data (upstream : upstream_call → upstream_outcome)
    (url : string) (params : gmap string string)
  : list upstream_call * outcome json :=
  ([HttpGet url params],
   match upstream (HttpGet url params) with
   | Responded status_code text parsed =>
       if is_success status_code then
         match parsed with
         | Some j => Return j
         | None => Raises JSONDecodeError
         end
       else Raises (HTTPException status_code ("Weather API error: " +:+ text))
   | RequestFailed message =>
       Raises (HTTPException 502 ("Proxy error: " +:+ message))
   end).

(** Lines 57-68. *)
Definition fetch_parqet_data (upstream : upstream_call → upstream_outcome)
    (url : string) (payload : json)
  : list upstream_call * outcome json :=
  ([HttpPost url payload],
   match upstream (HttpPost url payload) with
   | Responded status_code text parsed =>
       if is_success status_code then
         match parsed with
         | Some j => Return j
         | None => Raises JSONDecodeError
         end
       else Raises (HTTPException status_code ("Parqet API error: " +:+ text))
   | RequestFailed message =>
       Raises (HTTPException 502 ("Proxy error: " +:+ message))
   end).

(** Lines 181-210: the request descriptor, or the exception raised while
    building it. *)
Definition tempest_request_data (request : Request)
  : outcome Model.WeatherRequest :=
  if String.eqb (method request) "GET" then
    let station_id := query_params request !! "station_id" in
    let units_temp := query_params request !! "units_temp" in
    let units_wind := query_params request !! "units_wind" in
    let units_pressure := query_params request !! "units_pressure" in
    let units_precip := query_params request !! "units_precip" in
    let units_distance := query_params request !! "units_distance" in
    let api_key := query_params request !! "api_key" in
    if negb (forallb param_truthy
               [station_id; units_temp; units_wind; units_pressure;
                units_precip; units_distance; api_key]) then
      Raises (HTTPException 400 "Missing required query parameters")
    else
      match WeatherRequest_init
              (kwargs_of [("station_id", station_id);
                          ("units_temp", units_temp);
                          ("units_wind", units_wind);
                          ("units_pressure", units_pressure);
                          ("units_precip", units_precip);
                          ("units_distance", units_distance);
                          ("api_key", api_key)]) with
      | Some request_data => Return request_data
      | None => Raises ValidationError
      end
  else if String.eqb (method request) "POST" then
    (* try: ... except Exception: raise HTTPException(400, ...) *)
    match request_json request with
    | Some (JDict body) =>
        match WeatherRequest_init body with
        | Some request_data => Return request_data
        | None => Raises (HTTPException 400 "Invalid JSON body.")
        end
    | _ => Raises (HTTPException 400 "Invalid JSON body.")
    end
  else Raises (HTTPException 400 "Unsupported request method").

(** Lines 175-227. *)
Definition proxy_request_tempest (upstream : upstream_call → upstream_outcome)
    (request : Request) : list upstream_call * outcome json :=
  match tempest_request_data request with
  | Raises e => ([], Raises e)
  | Return request_data =>
      let params : gmap string string :=
        {[ "station_id" := Model.station_id request_data;
           "units_temp" := Model.units_temp request_data;
           "units_wind" := Model.units_wind request_data;
           "units_pressure" := Model.units_pressure request_data;
           "units_precip" := Model.units_precip request_data;
           "units_distance" := Model.units_distance request_data;
           "api_key" := Model.api_key request_data ]} in
      let (calls, fetched) :=
        fetch_weather_data upstream WEATHER_API_BASE params in
      (calls,
       match fetched with
       | Raises e => Raises e
       | Return raw_data =>
           match transform_data_tempest raw_data with
           | Ok filtered => Return filtered
           | Raise e => Raises (Uncaught e)
           end
       end)
  end.

(** Lines 236-254. *)
Definition parquet_request_data (request : Request)
  : outcome Model.PortfolioRequest :=
  if String.eqb (method request) "GET" then
    let id := query_params request !! "id" in
    let timeframe := query_params request !! "timeframe" in
    let perf := query_params request !! "perf" in
    let perf_chart := query_params request !! "perfChart" in
    if negb (param_truthy id) || negb (param_truthy timeframe)
       || negb (param_truthy perf) || negb (param_truthy perf_chart) then
      Raises (HTTPException 400 "Missing required query parameters")
    else
      match PortfolioRequest_init
              (kwargs_of [("id", id); ("timeframe", timeframe);
                          ("perf", perf); ("perfChart", perf_chart)]) with
      | Some request_data => Return request_data
      | None => Raises ValidationError
      end
  else if String.eqb (method request) "POST" then
    match request_json request with
    | Some (JDict body) =>
        match PortfolioRequest_init body with
        | Some request_data => Return request_data
        | None => Raises (HTTPException 400 "Invalid JSON body.")
        end
    | _ => Raises (HTTPException 400 "Invalid JSON body.")
    end
  else Raises (HTTPException 400 "Unsupported").

(** Lines 232-269. *)
Definition proxy_request_parquet (upstream : upstream_call → upstream_outcome)
    (request : Request) : list upstream_call * outcome json :=
  match parquet_request_data request with
  | Raises e => ([], Raises e)
  | Return request_data =>
      let payload : json :=
        JDict {[ "portfolioIds" := JList [JStr (Model.id request_data)];
                 "holdingIds" := JList [];
                 "assetTypes" := JList [];
                 "timeframe" := JStr (Model.timeframe request_data) ]} in
      let (calls, fetched) :=
        fetch_parqet_data upstream PARQET_API_BASE payload in
      (calls,
       match fetched with
       | Raises e => Raises e
       | Return raw_data =>
           match transform_data_parquet raw_data (Model.perf request_data)
                                        (Model.perfChart request_data) with
           | Ok filtered => Return filtered
           | Raise e => Raises (Uncaught e)
           end
       end)
  end.

(** A GET request for the weather route with every parameter present and
    a temperature unit outside its allowed values. *)
Definition tempest_get_bad_unit : Request :=
  {| method := "GET";
     query_params := {[ "station_id" := "1"; "units_temp" := "k";
                        "units_wind" := "mph"; "units_pressure" := "mb";
                        "units_precip" := "in"; "units_distance" := "mi";
                        "api_key" := "key" ]};
     request_json := None |}.

(** The same parameters sent as a POST body. *)
Definition tempest_post_bad_unit : Request :=
  {| method := "POST";
     query_params := ∅;
     request_json :=
       Some (JDict (JStr <$> query_params tempest_get_bad_unit)) |}.

(** A GET request for the portfolio route with every parameter present
    and a time frame outside its allowed values. *)
Definition parquet_get_bad_timeframe : Request :=
  {| method := "GET";
     query_params := {[ "id" := "p1"; "timeframe" := "2w";
                        "perf" := "ttwror"; "perfChart" := "drawdown" ]};
     request_json := None |}.

(** ** The transformers over an object store

    In the running program a parsed payload is a graph of list and
    dictionary objects, and the transformers build their result by
    creating objects and updating them in place.  Module [Heap] embeds
    the same code at that level: a value is a scalar or a reference, the
    store maps addresses to objects, and every statement is a step of a
    state-and-exception monad.  It is used for the statements about
    mutation of the input and sharing between input and output. *)
Module Heap.

(** Addresses are positions in the store. *)
Abbreviation loc := nat (only parsing).

Inductive val : Type :=
| VNull
| VBool (b : bool)
| VInt (z : Z)
| VFloat (f : spec_float)
| VStr (s : string)
| VRef (a : loc).

Inductive obj : Type :=
| OList (l : list val)
| ODict (d : gmap string val).

(** The address of an object is its position; a new object takes the next
    free position. *)
Abbreviation store := (list obj) (only parsing).

(** A computation takes the store and gives a value or an exception,
    and the store it leaves. *)
Definition M (A : Type) : Type := store → result A * store.

Definition ret {A} (a : A) : M A := fun σ => (Ok a, σ).

Definition bind {A B} (m : M A) (f : A → M B) : M B := fun σ =>
  match m σ with
  | (Ok a, σ') => f a σ'
  | (Raise e, σ') => (Raise e, σ')
  end.

Definition raise {A} (e : exn) : M A := fun σ => (Raise e, σ).

#[global] Instance M_ret : MRet M := @ret.
#[global] Instance M_bind : MBind M := fun _ _ f m => bind m f.

(** An object display ([{}], [[]], [{...}]) and a slice create an
    object. *)
Definition new (o : obj) : M val := fun σ =>
  (Ok (VRef (length σ)), σ ++ [o]).

(** The object a value refers to, if it refers to one. *)
Definition deref (σ : store) (x : val) : option obj :=
  match x with VRef a => σ !! a | _ => None end.

Definition read {A} (f : store → result A) : M A := fun σ => (f σ, σ).

Definition py_eq_str (x : val) (s : string) : bool :=
  match x with VStr t => String.eqb t s | _ => false end.

Definition py_eq_zero (x : val) : bool :=
  match x with
  | VInt z => (z =? 0)%Z
  | VFloat f => float_is_zero f
  | VBool b => negb b
  | _ => false
  end.

Definition py_truthy (x : val) : M bool := read (fun σ =>
  Ok match x with
     | VNull => false
     | VBool b => b
     | VInt z => negb (z =? 0)%Z
     | VFloat f => negb (float_is_zero f)
     | VStr s => negb (String.eqb s "")
     | VRef _ =>
         match deref σ x with
         | Some (OList l) => match l with [] => false | _ => true end
         | Some (ODict d) => negb (bool_decide (d = ∅))
         | None => true
         end
     end).

Definition py_contains (k : string) (x : val) : M bool := read (fun σ =>
  match x with
  | VStr s => Ok (str_contains k s)
  | _ =>
      match deref σ x with
      | Some (ODict d) => Ok (bool_decide (is_Some (d !! k)))
      | Some (OList l) => Ok (existsb (fun v => py_eq_str v k) l)
      | None => Raise TypeError
      end
  end).

Definition py_getitem (x : val) (k : string) : M val := read (fun σ =>
  match deref σ x with
  | Some (ODict d) =>
      match d !! k with Some v => Ok v | None => Raise KeyError end
  | _ => Raise TypeError
  end).

Definition py_get (x : val) (k : string) (dflt : val) : M val :=
  read (fun σ =>
    match deref σ x with
    | Some (ODict d) => Ok (default dflt (d !! k))
    | _ => Raise AttributeError
    end).

Definition py_lower (x : val) : M string := read (fun _ =>
  match x with
  | VStr s => Ok (lower s)
  | _ => Raise AttributeError
  end).

Fixpoint str_chars (s : string) : list val :=
  match s with
  | EmptyString => []
  | String c s' => VStr (String c EmptyString) :: str_chars s'
  end.

(** The loops below read one list and append to another, created by the
    call itself, so the elements a loop visits are those the list holds
    when the loop starts. *)
Definition py_iter (x : val) : M (list val) := read (fun σ =>
  match x with
  | VStr s => Ok (str_chars s)
  | _ =>
      match deref σ x with
      | Some (OList l) => Ok l
      | Some (ODict d) => Ok (VStr <$> (map_to_list d).*1)
      | None => Raise TypeError
      end
  end).

(** [x[:4]] copies the first four elements into a new list. *)
Definition py_slice4 (x : val) : M val := fun σ =>
  match x with
  | VStr s => (Ok (VStr (str_take 4 s)), σ)
  | _ =>
      match deref σ x with
      | Some (OList l) => new (OList (take 4 l)) σ
      | Some (ODict _) => (Raise SliceAsKey, σ)
      | None => (Raise TypeError, σ)
      end
  end.

(** [x[k] = v] updates the dictionary [x] in place. *)
Definition py_setitem (x : val) (k : string) (v : val) : M unit := fun σ =>
  match x with
  | VRef a =>
      match σ !! a with
      | Some (ODict d) => (Ok (), <[a := ODict (<[k := v]> d)]> σ)
      | _ => (Raise TypeError, σ)
      end
  | _ => (Raise TypeError, σ)
  end.

(** [x.append(v)] updates the list [x] in place. *)
Definition py_append (x : val) (v : val) : M unit := fun σ =>
  match x with
  | VRef a =>
      match σ !! a with
      | Some (OList l) => (Ok (), <[a := OList (l ++ [v])]> σ)
      | _ => (Raise AttributeError, σ)
      end
  | _ => (Raise AttributeError, σ)
  end.

(** [for x in l: body(x)]. *)
Fixpoint for_in {A} (l : list A) (body : A → M unit) : M unit :=
  match l with
  | [] => ret ()
  | x :: l' => body x;; for_in l' body
  end.

(** The values of a dictionary display, evaluated left to right. *)
Fixpoint eval_all {A B} (f : A → M B) (l : list A) : M (list B) :=
  match l with
  | [] => ret []
  | x :: l' => y ← f x; ys ← eval_all f l'; ret (y :: ys)
  end.

Definition get_perf (data : val) (perf : string) : M val :=
  py_get data perf (VInt 0).

Definition get_perf_chart (data : val) (perf_chart : string) : M val :=
  empty ← new (ODict ∅);
  values ← py_get data "values" empty;
  py_get values perf_chart (VInt 0).

Definition transform_data_tempest (data : val) : M val :=
  (* lines 76-81 *)
  cc ← new (ODict ∅);
  daily ← new (OList []);
  forecast ← new (ODict {[ "daily" := daily ]});
  filtered_data ← new (ODict {[ "current_conditions" := cc;
                                "forecast" := forecast ]});
  (* lines 84-93 *)
  has_cc ← py_contains "current_conditions" data;
  (if has_cc : bool then
     current_conditions ← py_getitem data "current_conditions";
     for_in current_conditions_fields (fun k =>
       v ← py_get current_conditions k VNull;
       target ← py_getitem filtered_data "current_conditions";
       py_setitem target k v)
   else ret ());;
  (* lines 96-111 *)
  has_forecast ← py_contains "forecast" data;
  has_daily ← (if has_forecast : bool then
                 f ← py_getitem data "forecast";
                 py_contains "daily" f
               else ret false);
  (if has_daily : bool then
     f ← py_getitem data "forecast";
     all ← py_getitem f "daily";
     first4 ← py_slice4 all;
     items ← py_iter first4;
     for_in items (fun daily_forecast =>
       vs ← eval_all (fun k => py_get daily_forecast k VNull) daily_fields;
       filtered_daily ← new (ODict (list_to_map (zip daily_fields vs)));
       f' ← py_getitem filtered_data "forecast";
       target ← py_getitem f' "daily";
       py_append target filtered_daily)
   else ret ());;
  ret filtered_data.

(** Lines 122-141; [continue] ends the body. *)
Definition filter_holding (filtered_data holding : val) (perf : string)
  : M unit :=
  at0 ← py_get holding "assetType" (VStr "");
  asset_type ← py_lower at0;
  if negb (existsb (String.eqb asset_type) ["security"; "crypto"]) then
    ret ()
  else
    e ← new (ODict ∅);
    position ← py_get holding "position" e;
    is_sold ← py_get position "isSold" VNull;
    e ← new (ODict ∅);
    position ← py_get holding "position" e;
    shares ← py_get position "shares" VNull;
    sold ← py_truthy is_sold;
    if (sold : bool) || py_eq_zero shares then
      ret ()
    else
      currency ← py_get holding "currency" VNull;
      e ← new (ODict ∅);
      asset ← py_get holding "asset" e;
      id ← py_get asset "identifier" VNull;
      e ← new (ODict ∅);
      shared_asset ← py_get holding "sharedAsset" e;
      name ← py_get shared_asset "name" VNull;
      e ← new (ODict ∅);
      performance ← py_get holding "performance" e;
      price_start ← py_get performance "priceAtIntervalStart" VNull;
      e ← new (ODict ∅);
      performance ← py_get holding "performance" e;
      value_start ← py_get performance "purchaseValueForInterval" VNull;
      e ← new (ODict ∅);
      position ← py_get holding "position" e;
      price_now ← py_get position "currentPrice" VNull;
      e ← new (ODict ∅);
      position ← py_get holding "position" e;
      value_now ← py_get position "currentValue" VNull;
      e ← new (ODict ∅);
      position ← py_get holding "position" e;
      shares' ← py_get position "shares" VNull;
      e ← new (ODict ∅);
      performance ← py_get holding "performance" e;
      p ← get_perf performance perf;
      filtered_holding ←
        new (ODict {[ "assetType" := VStr asset_type;
                      "currency" := currency;
                      "id" := id;
                      "name" := name;
                      "priceStart" := price_start;
                      "valueStart" := value_start;
                      "priceNow" := price_now;
                      "valueNow" := value_now;
                      "shares" := shares';
                      "perf" := p ]});
      target ← py_getitem filtered_data "holdings";
      py_append target filtered_holding.

(** Lines 152-158: the loop over the chart records; [first] is the flag
    of line 152. *)
Fixpoint chart_loop (filtered_data : val) (perf_chart : string)
    (first : bool) (items : list val) : M unit :=
  match items with
  | [] => ret ()
  | chart :: rest =>
      if first then
        (* skip first *)
        chart_loop filtered_data perf_chart false rest
      else
        v ← get_perf_chart chart perf_chart;
        target ← py_getitem filtered_data "chart";
        py_append target v;;
        chart_loop filtered_data perf_chart false rest
  end.

Definition transform_data_parquet (data : val) (perf perf_chart : string)
  : M val :=
  (* line 118 *)
  holdings ← new (OList []);
  performance ← new (ODict ∅);
  chart ← new (OList []);
  filtered_data ← new (ODict {[ "holdings" := holdings;
                                "performance" := performance;
                                "chart" := chart ]});
  (* lines 120-141 *)
  has_holdings ← py_contains "holdings" data;
  (if has_holdings : bool then
     hs ← py_getitem data "holdings";
     items ← py_iter hs;
     for_in items (fun holding => filter_holding filtered_data holding perf)
   else ret ());;
  (* lines 143-149 *)
  e ← new (ODict ∅);
  performance_data ← py_get data "performance" e;
  value_start ← py_get performance_data "purchaseValueForInterval" VNull;
  value_now ← py_get performance_data "value" VNull;
  performance' ← new (ODict {[ "valueStart" := value_start;
                               "valueNow" := value_now ]});
  py_setitem filtered_data "performance" performance';;
  p ← get_perf performance_data perf;
  target ← py_getitem filtered_data "performance";
  py_setitem target "perf" p;;
  (* lines 151-158 *)
  has_charts ← py_contains "charts" data;
  (if has_charts : bool then
     cs ← py_getitem data "charts";
     items ← py_iter cs;
     chart_loop filtered_data perf_chart true items
   else ret ());;
  ret filtered_data.

(** *** Reading a value back as a tree *)

Fixpoint all_some {A B} (f : A → option B) (l : list A) : option (list B) :=
  match l with
  | [] => Some []
  | x :: l' => y ← f x; ys ← all_some f l'; Some (y :: ys)
  end.

(** The JSON tree a value stands for, to depth [fuel]. *)
Fixpoint reify (fuel : nat) (σ : store) (x : val) : option json :=
  match x with
  | VNull => Some JNull
  | VBool b => Some (JBool b)
  | VInt z => Some (JInt z)
  | VFloat f => Some (JFloat f)
  | VStr s => Some (JStr s)
  | VRef a =>
      match fuel with
      | 0 => None
      | S fuel' =>
          match σ !! a with
          | Some (OList l) =>
              JList <$> all_some (reify fuel' σ) l
          | Some (ODict d) =>
              (fun kvs => JDict (list_to_map kvs))
                <$> all_some (fun kv => pair kv.1 <$> reify fuel' σ kv.2)
                             (map_to_list d)
          | None => None
          end
      end
  end.

(** *** Sharing *)

(** [o] holds the value [v]: as an element, or under some key. *)
Definition holds (o : obj) (v : val) : Prop :=
  match o with
  | OList l => v ∈ l
  | ODict d => ∃ k, d !! k = Some v
  end.

(** The containers one can reach from a value by following references. *)
Inductive reachable (σ : store) : val → loc → Prop :=
| reachable_root a : reachable σ (VRef a) a
| reachable_step x b o c :
    reachable σ x b → σ !! b = Some o → holds o (VRef c) →
    reachable σ x c.

(** A store without dangling references. *)
Definition closed (σ : store) : Prop :=
  ∀ a o c, σ !! a = Some o → holds o (VRef c) → c < length σ.

(** A value of a closed store: a scalar or a reference into it. *)
Definition value_of (σ : store) (x : val) : Prop :=
  ∀ c, x = VRef c → c < length σ.

(** [v] is the value some input mapping holds under one of [keys]. *)
Definition copied_from (σ0 : store) (keys : list string) (v : val) : Prop :=
  ∃ a d k, k ∈ keys ∧ σ0 !! a = Some (ODict d) ∧ d !! k = Some v.

(** The leaf fields the weather transformer copies. *)
Definition tempest_leaf_keys : list string :=
  current_conditions_fields ++ daily_fields.

(** The leaf fields the portfolio transformer copies. *)
Definition parquet_leaf_keys (perf perf_chart : string) : list string :=
  [ "currency"; "identifier"; "name"; "priceAtIntervalStart";
    "purchaseValueForInterval"; "currentPrice"; "currentValue"; "shares";
    "value"; perf; perf_chart ].

(** The input's leaf fields under [keys] hold scalars, no containers. *)
Definition leaves_scalar (σ0 : store) (keys : list string) : Prop :=
  ∀ a d k c, k ∈ keys → σ0 !! a = Some (ODict d) → d !! k ≠ Some (VRef c).

(** *** Assertions on stores

    [triple E P m Q]: from a store satisfying [P], the computation [m]
    either returns [a] and leaves a store satisfying [Q a], or raises and
    leaves a store satisfying [E]. *)
Definition triple {A} (E : store → Prop) (P : store → Prop) (m : M A)
    (Q : A → store → Prop) : Prop :=
  ∀ σ, P σ →
       match m σ with
       | (Ok a, σ') => Q a σ'
       | (Raise _, σ') => E σ'
       end.

(** The input store is a prefix of the current one: no input object has
    changed. *)
Definition pre (σ0 σ : store) : Prop := σ0 `prefix_of` σ.

(** A copied leaf: a scalar, or a reference the input holds under one of
    [keys]. *)
Definition flat (σ0 : store) (keys : list string) (v : val) : Prop :=
  ∀ c, v = VRef c → copied_from σ0 keys v.

Definition flat_obj (σ0 : store) (keys : list string) (o : obj) : Prop :=
  ∀ v, holds o v → flat σ0 keys v.

Definition flat_at (σ0 : store) (keys : list string) (σ : store) (a : loc)
  : Prop :=
  ∃ o, σ !! a = Some o ∧ flat_obj σ0 keys o.

(** A reference to a record the call has created, holding copied leaves
    only. *)
Definition record_ref (σ0 : store) (keys : list string) (σ : store)
    (v : val) : Prop :=
  ∃ c, v = VRef c ∧ (length σ0 + 4 ≤ c)%nat ∧ flat_at σ0 keys σ c.

(** What the code reads fields from: a value of the input, or the empty
    dictionary it has just created as a default. *)
Definition src (σ0 σ : store) (x : val) : Prop :=
  value_of σ0 x
  ∨ ∃ c, x = VRef c ∧ (length σ0 + 4 ≤ c)%nat ∧ σ !! c = Some (ODict ∅).

(** The store of the weather transformer after line 81, [n0] being the
    size of the input store: [filtered_data] is at [n0 + 3] and names the
    mapping at [n0] and the mapping at [n0 + 2], which names the list at
    [n0 + 1]; the mapping at [n0] holds copied leaves and the list holds
    references to records of copied leaves. *)
Definition tempest_inv (σ0 σ : store) : Prop :=
  pre σ0 σ
  ∧ σ !! (length σ0 + 3)
    = Some (ODict {[ "current_conditions" := VRef (length σ0);
                     "forecast" := VRef (length σ0 + 2) ]})
  ∧ σ !! (length σ0 + 2) = Some (ODict {[ "daily" := VRef (length σ0 + 1) ]})
  ∧ flat_at σ0 tempest_leaf_keys σ (length σ0)
  ∧ ∃ l, σ !! (length σ0 + 1) = Some (OList l)
         ∧ Forall (record_ref σ0 tempest_leaf_keys σ) l.

(** The store of the portfolio transformer after line 118:
    [filtered_data] is at [n0 + 3] and names the list of holdings at
    [n0], the performance mapping at [p] and the chart list at [n0 + 2];
    the holdings are references to records of copied leaves, the
    performance mapping and the chart list hold copied leaves. *)
Definition parquet_inv (σ0 : store) (perf perf_chart : string) (p : loc)
    (σ : store) : Prop :=
  pre σ0 σ
  ∧ σ !! (length σ0 + 3)
    = Some (ODict {[ "holdings" := VRef (length σ0);
                     "performance" := VRef p;
                     "chart" := VRef (length σ0 + 2) ]})
  ∧ flat_at σ0 (parquet_leaf_keys perf perf_chart) σ p
  ∧ (∃ l, σ !! length σ0 = Some (OList l)
          ∧ Forall (record_ref σ0 (parquet_leaf_keys perf perf_chart) σ) l)
  ∧ flat_at σ0 (parquet_leaf_keys perf perf_chart) σ (length σ0 + 2).

(** The values an object holds, as a list. *)
Definition obj_values (o : obj) : list val :=
  match o with
  | OList l => l
  | ODict d => (map_to_list d).*2
  end.

(** [closed] and [leaves_scalar] as checks one can run on a store. *)
Definition closedb (σ : store) : bool :=
  forallb (fun o =>
             forallb (fun v => match v with
                               | VRef c => (c <? length σ)%nat
                               | _ => true
                               end)
                     (obj_values o))
          σ.

Definition leaves_scalarb (σ0 : store) (keys : list string) : bool :=
  forallb (fun o =>
             match o with
             | OList _ => true
             | ODict d =>
                 forallb (fun k => match d !! k with
                                   | Some (VRef _) => false
                                   | _ => true
                                   end)
                         keys
             end)
          σ0.

(** *** Concrete stores *)

(** [weather_sample] laid out in a store; the payload is at address 9. *)
Definition weather_store : store :=
  [ ODict {[ "air_temperature" := VInt 21; "icon" := VStr "clear-day";
             "uv" := VInt 3 ]};
    ODict {[ "day_num" := VInt 1 ]};
    ODict {[ "day_num" := VInt 2 ]};
    ODict {[ "day_num" := VInt 3 ]};
    ODict {[ "day_num" := VInt 4 ]};
    ODict {[ "day_num" := VInt 5 ]};
    ODict {[ "day_num" := VInt 6 ]};
    OList [VRef 1; VRef 2; VRef 3; VRef 4; VRef 5; VRef 6];
    ODict {[ "daily" := VRef 7 ]};
    ODict {[ "current_conditions" := VRef 0; "forecast" := VRef 8 ]} ].

(** A weather payload whose [conditions] leaf is a list; the payload is at
    address 2. *)
Definition weather_store_list_leaf : store :=
  [ OList [VStr "rain"; VStr "wind"];
    ODict {[ "conditions" := VRef 0 ]};
    ODict {[ "current_conditions" := VRef 1 ]} ].

(** A portfolio payload with one kept and one rejected holding and two
    chart records; the payload is at address 9. *)
Definition portfolio_store : store :=
  [ ODict {[ "isSold" := VBool false; "shares" := VInt (-5) ]};
    ODict {[ "ttwror" := VInt 7 ]};
    ODict {[ "assetType" := VStr "SECURITY"; "currency" := VStr "EUR";
             "position" := VRef 0; "performance" := VRef 1 ]};
    ODict {[ "assetType" := VStr "bond" ]};
    OList [VRef 2; VRef 3];
    ODict {[ "value" := VInt 100 ]};
    ODict {[ "drawdown" := VInt 2 ]};
    ODict {[ "values" := VRef 6 ]};
    OList [VRef 7; VRef 7];
    ODict {[ "holdings" := VRef 4; "performance" := VRef 5;
             "charts" := VRef 8 ]} ].

End Heap.

(** ** The handlers' vocabulary *)

(** The parameters each route requires (lines 27-40). *)
Definition weather_params : list string :=
  [ "station_id"; "units_temp"; "units_wind"; "units_pressure";
    "units_precip"; "units_distance"; "api_key" ].

Definition portfolio_params : list string :=
  [ "id"; "timeframe"; "perf"; "perfChart" ].

(** The methods both routes are registered for (lines 172-173 and
    229-230): the router calls a handler for these and for no other. *)
Definition route_methods : list string := [ "POST"; "GET" ].

(** The value the client sent for parameter [k]: a query parameter of a
    GET request, a string field of the JSON body of a POST request. *)
Definition client_param (request : Request) (k : string) : option string :=
  if String.eqb (method request) "GET" then query_params request !! k
  else if String.eqb (method request) "POST" then
    match request_json request with
    | Some (JDict body) => str_field body k
    | _ => None
    end
  else None.

(** The POST request that carries the query parameters of [request] as
    its JSON body. *)
Definition as_post (request : Request) : Request :=
  {| method := "POST";
     query_params := ∅;
     request_json := Some (JDict (JStr <$> query_params request)) |}.

(** A GET request for the weather route with every parameter valid. *)
Definition tempest_get_ok : Request :=
  {| method := "GET";
     query_params := {[ "station_id" := "1"; "units_temp" := "c";
                        "units_wind" := "mph"; "units_pressure" := "mb";
                        "units_precip" := "in"; "units_distance" := "mi";
                        "api_key" := "key" ]};
     request_json := None |}.

(** A GET request for the portfolio route with every parameter valid. *)
Definition parquet_get_ok : Request :=
  {| method := "GET";
     query_params := {[ "id" := "p1"; "timeframe" := "1y";
                        "perf" := "ttwror"; "perfChart" := "drawdown" ]};
     request_json := None |}.

(** An upstream that answers every call with status [status_code], body
    text [text] and parsed body [parsed]. *)
Definition upstream_responding (status_code : Z) (text : string)
    (parsed : option json) : upstream_call → upstream_outcome :=
  fun _ => Responded status_code text parsed.

(** The enumerated parameters of the weather route with their allowed
    values (lines 29-33). *)
Definition weather_enums : list (string * list string) :=
  [ ("units_temp", ["c"; "f"]);
    ("units_wind", ["mph"; "kph"; "m/s"]);
    ("units_pressure", ["mb"; "inHg"]);
    ("units_precip", ["in"; "mm"]);
    ("units_distance", ["mi"; "km"]) ].

(** The outcome of a handler that ends with [return transform(...)]: the
    transformer's result is returned, its exception escapes the handler. *)
Definition returned (r : result json) : outcome json :=
  match r with
  | Ok filtered => Return filtered
  | Raise e => Raises (Uncaught e)
  end.

(** A GET request without any query parameter. *)
Definition get_without_parameters : Request :=
  {| method := "GET"; query_params := ∅; request_json := None |}.

(** The weather output with eight nulls for [current_conditions]. *)
Definition eight_nulls : gmap string json :=
  project_fields current_conditions_fields (JDict ∅).

(** * Properties *)

(** ** The error monad and the loops *)

Lemma bind_Ok {A B} (m : result A) (f : A → result B) (b : B) :
  (x ← m; f x) = Ok b ↔ ∃ a, m = Ok a ∧ f a = Ok b.
Proof.
  destruct m as [a|e]; simpl; split.
  - intros H. by exists a.
  - by intros (a' & [= <-] & H).
  - discriminate.
  - by intros (a' & ? & _).
Qed.

Lemma is_Ok_Ok {A} (a : A) : is_Ok (Ok a).
Proof. by exists a. Qed.

Lemma not_is_Ok_Raise {A} (e : exn) : ¬ is_Ok (@Raise A e).
Proof. by intros [a ?]. Qed.

#[local] Hint Resolve is_Ok_Ok : core.

(** Inverts a hypothesis [(x ← m; k) = Ok b]. *)
Ltac inv_bind H :=
  let a := fresh "a" in
  let E := fresh "E" in
  apply bind_Ok in H; destruct H as (a & E & H).

Lemma mapM_Ok_Forall2 {A B} (f : A → result B) l rs :
  mapM f l = Ok rs ↔ Forall2 (fun x r => f x = Ok r) l rs.
Proof.
  revert rs. induction l as [|x l IH]; intros rs; simpl.
  - split; [intros [= <-]; constructor | by inversion 1].
  - split.
    + intros H. inv_bind H. inv_bind H. injection H as <-.
      constructor; [done | by apply IH].
    + inversion 1 as [|? r ? rs' Hx Hl]; subst.
      rewrite Hx. simpl. apply IH in Hl. by rewrite Hl.
Qed.

Lemma mapM_length {A B} (f : A → result B) l rs :
  mapM f l = Ok rs → length rs = length l.
Proof. rewrite mapM_Ok_Forall2. intros H. symmetry. by eapply Forall2_length. Qed.

Lemma mapM_ext_Ok {A B} (f : A → result B) (g : A → B) l :
  Forall (fun x => f x = Ok (g x)) l → mapM f l = Ok (g <$> l).
Proof.
  induction 1 as [|x l Hx _ IH]; simpl; [done|]. by rewrite Hx; simpl; rewrite IH.
Qed.

Lemma mapM_Ok_fmap {A B} (f : A → result B) (g : A → B) l rs :
  (∀ x r, x ∈ l → f x = Ok r → r = g x) →
  mapM f l = Ok rs → rs = g <$> l.
Proof.
  intros Hg. rewrite mapM_Ok_Forall2. intros H.
  induction H as [|x r l rs Hx _ IH]; simpl; [done|].
  f_equal.
  - apply Hg; [left | done].
  - apply IH. intros ????. eapply Hg; [by right | done].
Qed.

(** The appending loop is a [mapM]. *)
Lemma for_each_append {A B} (f : A → result B) l acc :
  for_each (fun acc x => r ← f x; Ok (acc ++ [r])) l acc
  = (rs ← mapM f l; Ok (acc ++ rs)).
Proof.
  revert acc. induction l as [|x l IH]; intros acc; simpl.
  - by rewrite app_nil_r.
  - destruct (f x) as [r|e]; simpl; [|done].
    rewrite IH. destruct (mapM f l); simpl; [|done].
    by rewrite <- app_assoc.
Qed.

(** The loop that appends or continues is a [mapM] followed by dropping
    the skipped elements. *)
Lemma for_each_append_some {A B} (f : A → result (option B)) l acc :
  for_each (fun acc x => r ← f x;
                         Ok (match r with Some h => acc ++ [h] | None => acc end))
           l acc
  = (rs ← mapM f l; Ok (acc ++ omap id rs)).
Proof.
  revert acc. induction l as [|x l IH]; intros acc; simpl.
  - by rewrite app_nil_r.
  - destruct (f x) as [[h|]|e]; simpl; [| |done];
      rewrite IH; destruct (mapM f l); simpl; try done.
    by rewrite <- app_assoc.
Qed.

(** The loop with the [first] flag is a [mapM] over the tail. *)
Lemma for_each_skip_first {A B} (f : A → result B) l (first : bool) acc :
  (st ← for_each (fun (st : bool * list B) x =>
                    let (first, acc) := st in
                    if first then Ok (false, acc)
                    else v ← f x; Ok (false, acc ++ [v]))
                 l (first, acc);
   Ok st.2)
  = (rs ← mapM f (if first then tail l else l); Ok (acc ++ rs)).
Proof.
  revert first acc. induction l as [|x l IH]; intros first acc; simpl.
  - destruct first; simpl; by rewrite app_nil_r.
  - destruct first; simpl.
    + apply (IH false).
    + destruct (f x) as [v|e]; simpl; [|done].
      rewrite (IH false). simpl. destruct (mapM f l); simpl; [|done].
      by rewrite <- app_assoc.
Qed.

(** ** Reading fields *)

Lemma py_get_dict d k dflt : py_get (JDict d) k dflt = Ok (field_or dflt (JDict d) k).
Proof. done. Qed.

Lemma py_get_Ok x k dflt v :
  py_get x k dflt = Ok v → is_dict x = true ∧ v = field_or dflt x k.
Proof. destruct x; simpl; try discriminate. by intros [= <-]. Qed.

Lemma py_get_wf x k dflt :
  is_dict x = true → py_get x k dflt = Ok (field_or dflt x k).
Proof. by destruct x. Qed.

Lemma py_contains_dict k d :
  py_contains k (JDict d) = Ok (bool_decide (is_Some (d !! k))).
Proof. done. Qed.

(** A guard [k in x] followed by [x[k]] succeeds only on a mapping. *)
Lemma guarded_getitem_Ok {A} x k (f : json → result A) (dflt : result A) r :
  (has ← py_contains k x;
   if has : bool then v ← py_getitem x k; f v else dflt) = Ok r →
  match field x k with
  | Some v => f v = Ok r
  | None => dflt = Ok r
  end.
Proof.
  intros H. inv_bind H. destruct x; simpl in *; try discriminate.
  - injection E as <-. destruct (str_contains k s); [discriminate | done].
  - injection E as <-.
    destruct (existsb _ l); [discriminate | done].
  - injection E as <-. destruct (d !! k) as [v|] eqn:Hk; simpl in *; done.
Qed.

Lemma guarded_getitem_dict {A} d k (f : json → result A) (dflt : result A) :
  (has ← py_contains k (JDict d);
   if has : bool then v ← py_getitem (JDict d) k; f v else dflt)
  = match d !! k with Some v => f v | None => dflt end.
Proof. simpl. by destruct (d !! k). Qed.

(** ** Copying named fields *)

Lemma project_fields_lookup keys src k :
  project_fields keys src !! k
  = if decide (k ∈ keys) then Some (field_or_null src k) else None.
Proof.
  induction keys as [|k' keys IH]; simpl.
  - by rewrite lookup_empty.
  - destruct (decide (k' = k)) as [->|Hne].
    + rewrite lookup_insert_eq. by rewrite decide_True by left.
    + rewrite lookup_insert_ne by done. rewrite IH.
      destruct (decide (k ∈ keys)) as [Hin|Hin].
      * by rewrite decide_True by (by right).
      * rewrite decide_False; [done|]. by intros [->|?]%elem_of_cons.
Qed.

Lemma project_fields_dom keys src :
  dom (project_fields keys src) = list_to_set keys.
Proof.
  induction keys as [|k keys IH]; simpl.
  - apply dom_empty_L.
  - by rewrite dom_insert_L, IH.
Qed.

Lemma copy_fields_dict keys d target :
  copy_fields keys (JDict d) target
  = Ok (foldl (fun acc k => <[k := field_or_null (JDict d) k]> acc) target keys).
Proof.
  unfold copy_fields. revert target.
  induction keys as [|k keys IH]; intros target; simpl; [done|].
  apply IH.
Qed.

Lemma foldl_insert_lookup (g : string → json) keys
    (target : gmap string json) k :
  foldl (fun acc k => <[k := g k]> acc) target keys !! k
  = if decide (k ∈ keys) then Some (g k) else target !! k.
Proof.
  revert target. induction keys as [|k' keys IH]; intros target; simpl.
  - done.
  - rewrite IH. destruct (decide (k ∈ keys)) as [Hin|Hin].
    + by rewrite decide_True by (by right).
    + destruct (decide (k' = k)) as [->|Hne].
      * rewrite lookup_insert_eq. by rewrite decide_True by left.
      * rewrite lookup_insert_ne by done.
        rewrite decide_False; [done|]. by intros [->|?]%elem_of_cons.
Qed.

Lemma copy_fields_project keys d :
  copy_fields keys (JDict d) ∅ = Ok (project_fields keys (JDict d)).
Proof.
  rewrite copy_fields_dict. f_equal. apply map_eq. intros k.
  rewrite foldl_insert_lookup, project_fields_lookup.
  destruct (decide (k ∈ keys)); [done | apply lookup_empty].
Qed.

Lemma copy_fields_Ok keys x r :
  keys ≠ [] → copy_fields keys x ∅ = Ok r →
  is_dict x = true ∧ r = project_fields keys x.
Proof.
  intros Hne H. destruct x as [| | | | | |d];
    try (destruct keys; [done | discriminate]).
  rewrite copy_fields_project in H. by injection H as <-.
Qed.

Lemma copy_fields_wf keys x :
  is_dict x = true → copy_fields keys x ∅ = Ok (project_fields keys x).
Proof. destruct x; try discriminate. intros _. apply copy_fields_project. Qed.

Lemma filtered_daily_Ok x r :
  filtered_daily x = Ok r →
  is_dict x = true ∧ r = JDict (project_fields daily_fields x).
Proof.
  unfold filtered_daily. intros H. inv_bind H. injection H as <-.
  apply copy_fields_Ok in E as [? ->]; done.
Qed.

Lemma filtered_daily_wf x :
  is_dict x = true → filtered_daily x = Ok (JDict (project_fields daily_fields x)).
Proof. intros H. unfold filtered_daily. by rewrite copy_fields_wf. Qed.

(** ** The two blocks of the weather transformer *)

Lemma tempest_current_conditions_Ok data cc :
  tempest_current_conditions data = Ok cc →
  match field data "current_conditions" with
  | None => cc = ∅
  | Some c => is_dict c = true ∧ cc = project_fields current_conditions_fields c
  end.
Proof.
  intros H. apply guarded_getitem_Ok in H.
  destruct (field data "current_conditions") as [c|].
  - by apply copy_fields_Ok in H.
  - by injection H.
Qed.

Lemma tempest_current_conditions_wf data :
  wf_weather data = true → is_Ok (tempest_current_conditions data).
Proof.
  unfold wf_weather, absent_or. intros H.
  destruct data as [| | | | | |d]; try discriminate. simpl in H.
  unfold tempest_current_conditions. rewrite guarded_getitem_dict.
  destruct (d !! "current_conditions") as [c|]; [|done].
  rewrite copy_fields_wf; [done|]. by destruct (is_dict c).
Qed.

Lemma mapM_filtered_daily_Ok items daily :
  mapM filtered_daily items = Ok daily →
  daily = (fun x => JDict (project_fields daily_fields x)) <$> items
  ∧ forallb is_dict items = true.
Proof.
  rewrite mapM_Ok_Forall2. induction 1 as [|x r l rs Hx _ [IH1 IH2]]; simpl.
  - done.
  - apply filtered_daily_Ok in Hx as [-> ->]. by rewrite IH1, IH2.
Qed.

Lemma str_chars_not_dict s : s ≠ "" → forallb is_dict (str_chars s) = false.
Proof. by destruct s. Qed.

Lemma tempest_daily_Ok data daily :
  tempest_daily data = Ok daily →
  daily = (fun x => JDict (project_fields daily_fields x))
            <$> take 4 (items_of (forecast_daily data))
  ∧ forallb is_dict (take 4 (items_of (forecast_daily data))) = true.
Proof.
  unfold tempest_daily, forecast_daily. intros H.
  inv_bind H. inv_bind H.
  assert (Hcase : match field data "forecast" with
                  | Some f => py_contains "daily" f = Ok a0
                  | None => a0 = false
                  end).
  { destruct data as [| | | | s|l|d]; simpl in *; try discriminate.
    - injection E as <-. destruct (str_contains _ s); [discriminate|].
      by injection E0.
    - injection E as <-. destruct (existsb _ l); [discriminate|].
      by injection E0.
    - injection E as <-. destruct (d !! "forecast") as [f|]; simpl in *;
        [done | by injection E0]. }
  destruct (field data "forecast") as [f|] eqn:Hf; simpl.
  2:{ subst a0. by injection H as <-. }
  destruct data as [| | | | | |d]; try discriminate. simpl in Hf.
  destruct a0.
  2:{ injection H as <-.
      destruct f as [| | | | | |fd]; simpl in *; try done.
      injection Hcase as Hc. by destruct (fd !! "daily"). }
  simpl in H. rewrite Hf in H. simpl in H.
  destruct f as [| | | | | |fd]; simpl in *; try discriminate.
  destruct (fd !! "daily") as [all|]; simpl in *; [|discriminate].
  inv_bind H. inv_bind H. rewrite for_each_append in H. inv_bind H.
  injection H as <-. simpl.
  apply mapM_filtered_daily_Ok in E3 as [-> Hd].
  destruct all as [| | | |s|l|]; simpl in *; try discriminate.
  - injection E1 as <-. simpl in E2. injection E2 as <-.
    destruct s as [|c s]; [done|]. by destruct s; simpl in Hd.
  - injection E1 as <-. simpl in E2. by injection E2 as <-.
Qed.

Lemma tempest_daily_wf data :
  wf_weather data = true → is_Ok (tempest_daily data).
Proof.
  unfold wf_weather, absent_or. intros H.
  destruct data as [| | | | | |d]; try discriminate. simpl in H.
  apply andb_prop in H as [_ H].
  unfold tempest_daily. simpl.
  destruct (d !! "forecast") as [f|] eqn:Hf; simpl; [|done].
  destruct f as [| | | | | |fd]; try discriminate. simpl in *.
  destruct (fd !! "daily") as [all|] eqn:Hd; simpl; [|done].
  destruct all as [| | | | |l|]; try discriminate. simpl in *.
  rewrite for_each_append.
  rewrite (mapM_ext_Ok _ (fun x => JDict (project_fields daily_fields x)));
    [simpl; eauto|].
  apply Forall_forall. intros x Hx. apply filtered_daily_wf.
  rewrite forallb_forall in H. apply H.
  apply list_elem_of_In. eapply subseteq_take, Hx.
Qed.

Lemma transform_data_tempest_Ok data out :
  transform_data_tempest data = Ok out →
  ∃ cc daily,
    out = JDict {[ "current_conditions" := JDict cc;
                   "forecast" := JDict {[ "daily" := JList daily ]} ]}
    ∧ tempest_current_conditions data = Ok cc
    ∧ tempest_daily data = Ok daily.
Proof.
  unfold transform_data_tempest. intros H. inv_bind H. inv_bind H.
  injection H as <-. eauto.
Qed.

Lemma transform_data_tempest_wf data :
  wf_weather data = true → is_Ok (transform_data_tempest data).
Proof.
  intros H. unfold transform_data_tempest.
  destruct (tempest_current_conditions_wf _ H) as [cc ->].
  destruct (tempest_daily_wf _ H) as [daily ->]. simpl. eauto.
Qed.

(** ** The weather transformer: current conditions and daily forecast *)

(** C3.  For every weather payload: when the key [current_conditions] is
    absent, the output's [current_conditions] is the empty mapping (it is
    neither null nor omitted nor filled with eight nulls); when the key is
    present, the output's [current_conditions] has exactly the eight named
    fields, each holding the source's value for that field, or null when
    the source lacks it.  The transformer returns on every well-shaped
    payload, and the property holds of whatever it returns. *)
Theorem transform_weather_current_conditions (data : json) :
  (wf_weather data = true → is_Ok (transform_data_tempest data))
  ∧ ∀ out, transform_data_tempest data = Ok out →
      ∃ cc : gmap string json,
        field out "current_conditions" = Some (JDict cc)
        ∧ (field data "current_conditions" = None → cc = ∅)
        ∧ (∀ c, field data "current_conditions" = Some c →
             dom cc = list_to_set
                        [ "air_temperature"; "icon"; "conditions";
                          "feels_like"; "relative_humidity";
                          "station_pressure"; "precip_probability";
                          "wind_gust" ]
             ∧ ∀ k, k ∈ [ "air_temperature"; "icon"; "conditions";
                          "feels_like"; "relative_humidity";
                          "station_pressure"; "precip_probability";
                          "wind_gust" ] →
                    cc !! k = Some (field_or_null c k)).
Proof.
  split; [apply transform_data_tempest_wf|].
  intros out (cc & daily & -> & Hcc & _)%transform_data_tempest_Ok.
  exists cc. split; [done|].
  apply tempest_current_conditions_Ok in Hcc.
  split.
  - intros Hnone. by rewrite Hnone in Hcc.
  - intros c Hc. rewrite Hc in Hcc. destruct Hcc as [_ ->]. split.
    + apply project_fields_dom.
    + intros k Hk. rewrite project_fields_lookup.
      by rewrite decide_True.
Qed.

Lemma transform_weather_current_conditions_witness :
  wf_weather weather_sample = true
  ∧ ∃ out cc,
      transform_data_tempest weather_sample = Ok out
      ∧ field out "current_conditions" = Some (JDict cc)
      ∧ cc !! "icon" = Some (JStr "clear-day")
      ∧ cc !! "wind_gust" = Some JNull.
Proof.
  split; [reflexivity|].
  destruct (transform_weather_current_conditions weather_sample)
    as [Hwf Hout].
  destruct (Hwf eq_refl) as [out Ho]. exists out.
  destruct (Hout out Ho) as (cc & Hf & _ & Hp). exists cc.
  destruct (Hp (JDict {[ "air_temperature" := JInt 21;
                         "icon" := JStr "clear-day"; "uv" := JInt 3 ]})
               eq_refl) as [_ Hk].
  split; [exact Ho|]. split; [exact Hf|]. split.
  - rewrite Hk; [reflexivity|]. apply list_elem_of_In. simpl. tauto.
  - rewrite Hk; [reflexivity|]. apply list_elem_of_In. simpl. tauto.
Defined.

(** C4.  For every weather payload, the output's [forecast.daily] has
    [min 4 n] records, [n] being the length of the input's
    [forecast.daily] (an absent [forecast] or [forecast.daily] counts as
    the empty sequence); the record at position [i] comes from the input
    record at position [i], and it has exactly the ten named fields, each
    holding the source's value or null when the source lacks it. *)
Theorem transform_weather_forecast_daily (data : json) :
  (wf_weather data = true → is_Ok (transform_data_tempest data))
  ∧ ∀ out, transform_data_tempest data = Ok out →
      ∃ daily : list json,
        field out "forecast" = Some (JDict {[ "daily" := JList daily ]})
        ∧ length daily = Nat.min 4 (length (items_of (forecast_daily data)))
        ∧ (forecast_daily data = None → daily = [])
        ∧ ∀ i r, daily !! i = Some r →
            ∃ (src : json) (rd : gmap string json),
              items_of (forecast_daily data) !! i = Some src
              ∧ r = JDict rd
              ∧ dom rd = list_to_set
                           [ "day_start_local"; "air_temp_high";
                             "air_temp_low"; "conditions"; "day_num";
                             "month_num"; "precip_probability";
                             "precip_type"; "icon"; "precip_icon" ]
              ∧ ∀ k, k ∈ [ "day_start_local"; "air_temp_high";
                           "air_temp_low"; "conditions"; "day_num";
                           "month_num"; "precip_probability";
                           "precip_type"; "icon"; "precip_icon" ] →
                     rd !! k = Some (field_or_null src k).
Proof.
  split; [apply transform_data_tempest_wf|].
  intros out (cc & daily & -> & _ & Hd)%transform_data_tempest_Ok.
  exists daily. split; [done|].
  apply tempest_daily_Ok in Hd as [-> _].
  split; [|split].
  - rewrite length_fmap, length_take. lia.
  - by intros ->.
  - intros i r Hi. rewrite list_lookup_fmap in Hi.
    destruct (take 4 _ !! i) as [src|] eqn:Hsrc; [|done].
    injection Hi as <-. exists src, (project_fields daily_fields src).
    split; [|split; [done|split]].
    + apply lookup_take_Some in Hsrc. tauto.
    + apply project_fields_dom.
    + intros k Hk. rewrite project_fields_lookup. by rewrite decide_True.
Qed.

Lemma transform_weather_forecast_daily_witness :
  wf_weather weather_sample = true
  ∧ ∃ out daily,
      transform_data_tempest weather_sample = Ok out
      ∧ field out "forecast" = Some (JDict {[ "daily" := JList daily ]})
      ∧ length daily = 4.
Proof.
  split; [reflexivity|].
  destruct (transform_weather_forecast_daily weather_sample) as [Hwf Hout].
  destruct (Hwf eq_refl) as [out Ho]. exists out.
  destruct (Hout out Ho) as (daily & Hf & Hlen & _). exists daily.
  split; [exact Ho|]. split; [exact Hf|]. exact Hlen.
Defined.

(** ** The blocks of the portfolio transformer *)

Lemma existsb_eqb_elem_of (a : string) (l : list string) :
  existsb (String.eqb a) l = bool_decide (a ∈ l).
Proof.
  induction l as [|b l IH].
  - symmetry. apply bool_decide_eq_false_2, not_elem_of_nil.
  - cbn [existsb]. rewrite IH.
    destruct (String.eqb_spec a b) as [->|Hne]; cbn [orb].
    + symmetry. apply bool_decide_eq_true_2. by left.
    + apply bool_decide_ext. rewrite elem_of_cons.
      split; [by right | by intros [?|?]].
Qed.

Lemma py_lower_Ok x s : py_lower x = Ok s → ∃ t, x = JStr t ∧ s = lower t.
Proof. destruct x; try discriminate. intros [= <-]. eauto. Qed.

Lemma get_perf_Ok x perf v :
  get_perf x perf = Ok v → is_dict x = true ∧ v = field_or (JInt 0) x perf.
Proof. apply py_get_Ok. Qed.

Lemma get_perf_chart_Ok c perf_chart v :
  get_perf_chart c perf_chart = Ok v →
  is_dict c = true ∧ v = chart_scalar perf_chart c.
Proof.
  unfold get_perf_chart. intros H. inv_bind H.
  apply py_get_Ok in E as [? ->]. by apply py_get_Ok in H as [_ ->].
Qed.

Lemma absent_or_field_or P dflt x k :
  absent_or P x k = true → P dflt = true → P (field_or dflt x k) = true.
Proof. unfold absent_or, field_or. by destruct (field x k). Qed.

Lemma get_perf_chart_wf c perf_chart :
  wf_chart c = true →
  get_perf_chart c perf_chart = Ok (chart_scalar perf_chart c).
Proof.
  unfold wf_chart. intros [Hc Hv]%andb_prop. unfold get_perf_chart.
  rewrite py_get_wf by done. simpl.
  rewrite py_get_wf; [done|]. by apply absent_or_field_or.
Qed.

(** Peels one [py_get] off a successful run of [filter_holding]. *)
Ltac step_get H :=
  let a := fresh "a" in
  let E := fresh "E" in
  let D := fresh "D" in
  apply bind_Ok in H; destruct H as (a & E & H);
  apply py_get_Ok in E as [D ->].

Lemma filter_holding_Ok holding perf r :
  filter_holding holding perf = Ok r →
  is_dict holding = true
  ∧ r = if keeps holding then Some (projected perf holding) else None.
Proof.
  unfold filter_holding. intros H. step_get H. split; [done|].
  inv_bind H. apply py_lower_Ok in E as (t & Ht & ->).
  unfold keeps, asset_type_of. rewrite Ht.
  rewrite existsb_eqb_elem_of in H.
  destruct (bool_decide (lower t ∈ _)); simpl in *; [|by injection H].
  do 4 step_get H. fold (sub_field JNull holding "position" "isSold") in *.
  fold (sub_field JNull holding "position" "shares") in *.
  destruct (py_truthy _); simpl in *; [by injection H|].
  destruct (py_eq_zero _); simpl in *; [by injection H|].
  do 16 step_get H. inv_bind H. apply get_perf_Ok in E as [_ ->].
  injection H as <-. unfold projected, asset_type_of. by rewrite Ht.
Qed.

Lemma wf_holding_asset_type h :
  wf_holding h = true →
  ∃ t, field_or (JStr "") h "assetType" = JStr t.
Proof.
  unfold wf_holding. rewrite !andb_true_iff. intros [[[[[_ H] _] _] _] _].
  apply (absent_or_field_or _ (JStr "")) in H; [|done].
  destruct (field_or _ h _); try discriminate. eauto.
Qed.

Lemma filter_holding_wf holding perf :
  wf_holding holding = true →
  filter_holding holding perf
  = Ok (if keeps holding then Some (projected perf holding) else None).
Proof.
  intros Hwf. destruct (wf_holding_asset_type _ Hwf) as [t Ht].
  unfold wf_holding in Hwf. rewrite !andb_true_iff in Hwf.
  destruct Hwf as [[[[[Hd _] Hpos] Has] Hsh] Hpe].
  apply (absent_or_field_or _ (JDict ∅)) in Hpos, Has, Hsh, Hpe; try done.
  unfold filter_holding, keeps, asset_type_of, projected, sub_field, get_perf.
  rewrite !(py_get_wf holding) by done. cbn [mbind result_bind].
  rewrite Ht. cbn [py_lower mbind result_bind]. rewrite existsb_eqb_elem_of.
  destruct (bool_decide (lower t ∈ _)); cbn [negb andb]; [|done].
  rewrite !py_get_wf by done. cbn [mbind result_bind].
  destruct (py_truthy _); cbn [negb andb orb]; [done|].
  destruct (py_eq_zero _); cbn [negb andb orb]; [done|].
  unfold asset_type_of. by rewrite Ht.
Qed.

Lemma omap_keep_filter {A B} (p : A → bool) (g : A → B) l :
  omap id ((fun x => if p x then Some (g x) else None) <$> l)
  = g <$> List.filter p l.
Proof.
  induction l as [|x l IH]; simpl; [done|].
  destruct (p x); simpl; [f_equal|]; apply IH.
Qed.

Lemma mapM_filter_holding_Ok perf items rs :
  mapM (fun h => filter_holding h perf) items = Ok rs →
  omap id rs = projected perf <$> List.filter keeps items
  ∧ forallb is_dict items = true.
Proof.
  intros H. split.
  - rewrite <- omap_keep_filter. f_equal.
    eapply mapM_Ok_fmap, H. by intros x r _ [_ ->]%filter_holding_Ok.
  - apply mapM_Ok_Forall2 in H.
    induction H as [|x r l rs' Hx _ IH]; simpl; [done|].
    apply filter_holding_Ok in Hx as [-> _]. by rewrite IH.
Qed.

Lemma fmap_JStr_not_dict l : l ≠ [] → forallb is_dict (JStr <$> l) = false.
Proof. by destruct l. Qed.

Lemma parquet_holdings_Ok data perf holdings :
  parquet_holdings data perf = Ok holdings →
  holdings = projected perf
               <$> List.filter keeps (items_of (field data "holdings")).
Proof.
  intros H. apply guarded_getitem_Ok in H.
  destruct (field data "holdings") as [hs|]; [|by injection H].
  inv_bind H. rewrite for_each_append_some in H. inv_bind H.
  injection H as <-. simpl.
  apply mapM_filter_holding_Ok in E0 as [-> Hd].
  destruct hs as [| | | |s|l|d]; simpl in *; try discriminate.
  - injection E as <-. destruct s; [done | discriminate].
  - by injection E as <-.
  - injection E as <-.
    destruct ((map_to_list d).*1); [done | discriminate].
Qed.

Lemma parquet_holdings_wf data perf :
  wf_portfolio data = true → is_Ok (parquet_holdings data perf).
Proof.
  unfold wf_portfolio, absent_or. rewrite !andb_true_iff.
  intros [[[Hd Hh] _] _]. destruct data as [| | | | | |d]; try discriminate.
  unfold parquet_holdings. rewrite guarded_getitem_dict. simpl in Hh.
  destruct (d !! "holdings") as [hs|]; [|done].
  destruct hs as [| | | | |l|]; try discriminate. simpl in *.
  rewrite for_each_append_some.
  rewrite (mapM_ext_Ok _ (fun h => if keeps h then Some (projected perf h)
                                   else None)); [simpl; eauto|].
  apply Forall_forall. intros h Hin. apply filter_holding_wf.
  rewrite forallb_forall in Hh. by apply Hh, list_elem_of_In.
Qed.

Lemma parquet_performance_Ok data perf p :
  parquet_performance data perf = Ok p →
  is_dict data = true
  ∧ p = {[ "valueStart" :=
             sub_field JNull data "performance" "purchaseValueForInterval";
           "valueNow" := sub_field JNull data "performance" "value";
           "perf" := sub_field (JInt 0) data "performance" perf ]}.
Proof.
  unfold parquet_performance. intros H. do 3 step_get H. inv_bind H.
  apply get_perf_Ok in E as [_ ->]. injection H as <-. split; [done|].
  apply map_eq. intros k. unfold sub_field.
  destruct (decide (k = "perf")) as [->|]; [by simplify_map_eq|].
  destruct (decide (k = "valueStart")) as [->|]; [by simplify_map_eq|].
  destruct (decide (k = "valueNow")) as [->|]; by simplify_map_eq.
Qed.

Lemma parquet_performance_wf data perf :
  wf_portfolio data = true → is_Ok (parquet_performance data perf).
Proof.
  unfold wf_portfolio. rewrite !andb_true_iff. intros [[[Hd _] Hp] _].
  apply (absent_or_field_or _ (JDict ∅)) in Hp; [|done].
  unfold parquet_performance, get_perf. rewrite (py_get_wf data) by done.
  simpl. rewrite !py_get_wf by done. simpl. eauto.
Qed.

Lemma mapM_get_perf_chart_Ok perf_chart items rs :
  mapM (fun c => get_perf_chart c perf_chart) items = Ok rs →
  rs = chart_scalar perf_chart <$> items ∧ forallb is_dict items = true.
Proof.
  intros H. split.
  - eapply mapM_Ok_fmap, H. by intros x r _ [_ ->]%get_perf_chart_Ok.
  - apply mapM_Ok_Forall2 in H.
    induction H as [|x r l rs' Hx _ IH]; simpl; [done|].
    apply get_perf_chart_Ok in Hx as [-> _]. by rewrite IH.
Qed.

Lemma parquet_chart_Ok data perf_chart chart :
  parquet_chart data perf_chart = Ok chart →
  mapM (fun c => get_perf_chart c perf_chart)
       (tail (items_of (field data "charts"))) = Ok chart.
Proof.
  intros H. apply guarded_getitem_Ok in H.
  destruct (field data "charts") as [cs|]; [|by injection H as <-].
  inv_bind H. rewrite for_each_skip_first in H. inv_bind H.
  injection H as <-. simpl.
  destruct cs as [| | | |s|l|d]; simpl in *; try discriminate.
  - injection E as <-. destruct s as [|c s]; [done|]. simpl in E0.
    apply mapM_get_perf_chart_Ok in E0 as [-> Hd].
    destruct s; [done | discriminate].
  - by injection E as <-.
  - injection E as <-. destruct ((map_to_list d).*1) as [|k ks]; [done|].
    simpl in E0. apply mapM_get_perf_chart_Ok in E0 as [-> Hd].
    destruct ks; [done | discriminate].
Qed.

Lemma parquet_chart_wf data perf_chart :
  wf_portfolio data = true → is_Ok (parquet_chart data perf_chart).
Proof.
  unfold wf_portfolio, absent_or. rewrite !andb_true_iff.
  intros [[[Hd _] _] Hc]. destruct data as [| | | | | |d]; try discriminate.
  unfold parquet_chart. rewrite guarded_getitem_dict. simpl in Hc.
  destruct (d !! "charts") as [cs|]; [|done].
  destruct cs as [| | | | |l|]; try discriminate. simpl in *.
  rewrite for_each_skip_first.
  rewrite (mapM_ext_Ok _ (chart_scalar perf_chart)); [simpl; eauto|].
  apply Forall_forall. intros c Hin. apply get_perf_chart_wf.
  rewrite forallb_forall in Hc. apply Hc, list_elem_of_In.
  destruct l; [done | by right].
Qed.

Lemma transform_data_parquet_Ok data perf perf_chart out :
  transform_data_parquet data perf perf_chart = Ok out →
  ∃ holdings performance chart,
    out = JDict {[ "holdings" := JList holdings;
                   "performance" := JDict performance;
                   "chart" := JList chart ]}
    ∧ parquet_holdings data perf = Ok holdings
    ∧ parquet_performance data perf = Ok performance
    ∧ parquet_chart data perf_chart = Ok chart.
Proof.
  unfold transform_data_parquet. intros H. do 3 inv_bind H.
  injection H as <-. eauto 10.
Qed.

Lemma transform_data_parquet_wf data perf perf_chart :
  wf_portfolio data = true →
  is_Ok (transform_data_parquet data perf perf_chart).
Proof.
  intros H. unfold transform_data_parquet.
  destruct (parquet_holdings_wf _ perf H) as [hs ->].
  destruct (parquet_performance_wf _ perf H) as [p ->].
  destruct (parquet_chart_wf _ perf_chart H) as [c ->]. simpl. eauto.
Qed.

(** ** The portfolio transformer: holdings, chart, performance *)

Lemma keeps_asset_type h :
  keeps h = true →
  ∃ s, field h "assetType" = Some (JStr s) ∧ asset_type_of h = lower s.
Proof.
  unfold keeps, asset_type_of, field_or. rewrite !andb_true_iff.
  intros [[Hin _] _]. apply bool_decide_eq_true in Hin.
  destruct (field h "assetType") as [[| | | |s| |]|]; simpl in *;
    try (by apply list_elem_of_In in Hin; simpl in Hin; intuition discriminate).
  eauto.
Qed.

(** C1.  For every portfolio payload, the output's holdings are the
    projections of exactly the input holdings that the filter rule keeps,
    in their original order.  The rule keeps a holding if and only if its
    lower-cased [assetType] is "security" or "crypto" (a missing
    [assetType] reads as the empty string and is rejected), its
    [position.isSold] is not truthy and its [position.shares] is not equal
    to 0.  Equality with 0 is the code's [==]: the integer 0, a float zero
    and [False] are equal to 0, nothing else is; so a negative or a null
    [shares] passes.  The transformer returns on every well-shaped
    payload, and the property holds of whatever it returns. *)
Theorem transform_portfolio_holdings_filter
    (data : json) (perf perf_chart : string) :
  (wf_portfolio data = true →
   is_Ok (transform_data_parquet data perf perf_chart))
  ∧ (∀ out, transform_data_parquet data perf perf_chart = Ok out →
       field out "holdings"
       = Some (JList (projected perf
                        <$> List.filter keeps
                              (items_of (field data "holdings")))))
  ∧ (∀ h, keeps h = true ↔
          asset_type_of h ∈ ["security"; "crypto"]
          ∧ py_truthy (sub_field JNull h "position" "isSold") = false
          ∧ py_eq_zero (sub_field JNull h "position" "shares") = false)
  ∧ (∀ h, field h "assetType" = None →
          asset_type_of h = "" ∧ keeps h = false)
  ∧ (∀ v, py_eq_zero v = true ↔
          v = JInt 0 ∨ v = JBool false ∨ ∃ s, v = JFloat (S754_zero s))
  ∧ (∀ z, (z < 0)%Z → py_eq_zero (JInt z) = false)
  ∧ py_eq_zero JNull = false.
Proof.
  split; [apply transform_data_parquet_wf|].
  split; [|split; [|split; [|split; [|split]]]].
  - intros out (hs & p & c & -> & Hh & _ & _)%transform_data_parquet_Ok.
    apply parquet_holdings_Ok in Hh as ->. done.
  - intros h. unfold keeps.
    rewrite !andb_true_iff, !negb_true_iff, bool_decide_eq_true. tauto.
  - intros h Hnone. unfold keeps, asset_type_of, field_or. rewrite Hnone.
    done.
  - intros v. split.
    + destruct v as [|[]|z|[]| | |]; simpl; try discriminate; eauto.
      intros ->%Z.eqb_eq. eauto.
    + intros [->|[->|[s ->]]]; done.
  - intros z Hz. simpl. apply Z.eqb_neq. lia.
  - done.
Qed.

Lemma transform_portfolio_holdings_filter_witness :
  wf_portfolio portfolio_sample = true
  ∧ ∃ out,
      transform_data_parquet portfolio_sample "ttwror" "drawdown" = Ok out
      ∧ field out "holdings"
        = Some (JList [ kept_sample "security" (JInt (-5));
                        kept_sample "crypto" JNull ]).
Proof.
  split; [reflexivity|].
  destruct (transform_portfolio_holdings_filter
              portfolio_sample "ttwror" "drawdown") as (Hwf & Hout & _).
  destruct (Hwf eq_refl) as [out Ho]. exists out.
  split; [exact Ho|]. rewrite (Hout out Ho). vm_compute. reflexivity.
Defined.

(** C2.  For every portfolio payload whose [charts] has [n] elements, the
    output's chart list has [max 0 (n - 1)] elements: the first chart
    record is skipped whatever it holds, and each later record
    contributes, in order, the scalar [get_perf_chart record perfChart].
    An absent [charts] counts as the empty list. *)
Theorem transform_portfolio_chart (data : json) (perf perf_chart : string) :
  (wf_portfolio data = true →
   is_Ok (transform_data_parquet data perf perf_chart))
  ∧ ∀ out, transform_data_parquet data perf perf_chart = Ok out →
      ∃ chart : list json,
        field out "chart" = Some (JList chart)
        ∧ Z.of_nat (length chart)
          = Z.max 0 (Z.of_nat (length (items_of (field data "charts"))) - 1)
        ∧ mapM (fun record => get_perf_chart record perf_chart)
               (tail (items_of (field data "charts"))) = Ok chart
        ∧ chart = chart_scalar perf_chart
                    <$> tail (items_of (field data "charts")).
Proof.
  split; [apply transform_data_parquet_wf|].
  intros out (hs & p & c & -> & _ & _ & Hc)%transform_data_parquet_Ok.
  exists c. split; [done|].
  apply parquet_chart_Ok in Hc.
  split; [|split; [done|]].
  - apply mapM_length in Hc. rewrite Hc.
    destruct (items_of (field data "charts")); simpl; lia.
  - by apply mapM_get_perf_chart_Ok in Hc as [-> _].
Qed.

Lemma transform_portfolio_chart_witness :
  wf_portfolio portfolio_sample = true
  ∧ ∃ out,
      transform_data_parquet portfolio_sample "ttwror" "drawdown" = Ok out
      ∧ field out "chart" = Some (JList [JInt 2; JInt 0]).
Proof.
  split; [reflexivity|].
  destruct (transform_portfolio_chart portfolio_sample "ttwror" "drawdown")
    as (Hwf & Hout).
  destruct (Hwf eq_refl) as [out Ho]. exists out.
  split; [exact Ho|].
  destruct (Hout out Ho) as (chart & Hf & _ & _ & ->). exact Hf.
Defined.

(** C8.  For every portfolio payload, the output's [performance] is
    [{valueStart: performance.purchaseValueForInterval, valueNow:
    performance.value, perf: get_perf performance perf}], an absent field
    read as null; when [performance] is absent altogether it is
    [{valueStart: null, valueNow: null, perf: 0}]. *)
Theorem transform_portfolio_performance
    (data : json) (perf perf_chart : string) :
  (wf_portfolio data = true →
   is_Ok (transform_data_parquet data perf perf_chart))
  ∧ ∀ out, transform_data_parquet data perf perf_chart = Ok out →
      ∃ p : json,
        get_perf (field_or (JDict ∅) data "performance") perf = Ok p
        ∧ field out "performance"
          = Some (JDict
                    {[ "valueStart" :=
                         field_or_null (field_or (JDict ∅) data "performance")
                                       "purchaseValueForInterval";
                       "valueNow" :=
                         field_or_null (field_or (JDict ∅) data "performance")
                                       "value";
                       "perf" := p ]})
        ∧ (field data "performance" = None →
           field out "performance"
           = Some (JDict {[ "valueStart" := JNull; "valueNow" := JNull;
                            "perf" := JInt 0 ]})).
Proof.
  split; [apply transform_data_parquet_wf|].
  intros out (hs & p & c & -> & _ & Hp & _)%transform_data_parquet_Ok.
  pose proof Hp as Hp'. apply parquet_performance_Ok in Hp' as [Hd ->].
  exists (sub_field (JInt 0) data "performance" perf).
  unfold parquet_performance in Hp. do 3 step_get Hp. inv_bind Hp.
  pose proof E as E'. apply get_perf_Ok in E' as [_ ->].
  split; [exact E|]. split; [done|].
  intros Hnone. unfold sub_field, field_or. rewrite Hnone. done.
Qed.

Lemma transform_portfolio_performance_witness :
  wf_portfolio portfolio_sample = true
  ∧ ∃ out,
      transform_data_parquet portfolio_sample "ttwror" "drawdown" = Ok out
      ∧ field out "performance"
        = Some (JDict {[ "valueStart" := JNull; "valueNow" := JInt 100;
                         "perf" := JInt 0 ]}).
Proof.
  split; [reflexivity|].
  destruct (transform_portfolio_performance
              portfolio_sample "ttwror" "drawdown") as (Hwf & Hout).
  destruct (Hwf eq_refl) as [out Ho]. exists out.
  split; [exact Ho|].
  destruct (Hout out Ho) as (p & Hp & Hf & _).
  injection Hp as <-. exact Hf.
Defined.

(** C10.  For every surviving holding, the [assetType] of its output
    record is the lower-cased form of the input's [assetType] string, not
    the input string itself: "SECURITY" comes out as "security". *)
Theorem transform_portfolio_asset_type_lowered
    (data : json) (perf perf_chart : string) :
  (wf_portfolio data = true →
   is_Ok (transform_data_parquet data perf perf_chart))
  ∧ (∀ out, transform_data_parquet data perf perf_chart = Ok out →
       ∃ kept : list json,
         field out "holdings" = Some (JList kept)
         ∧ Forall2 (fun holding record =>
                      ∃ s, field holding "assetType" = Some (JStr s)
                           ∧ field record "assetType" = Some (JStr (lower s)))
                   (List.filter keeps (items_of (field data "holdings")))
                   kept)
  ∧ lower "SECURITY" = "security"
  ∧ field (projected perf (holding_sample "SECURITY" (JInt 1) JNull))
          "assetType" = Some (JStr "security").
Proof.
  split; [apply transform_data_parquet_wf|]. split; [|done].
  intros out (hs & p & c & -> & Hh & _ & _)%transform_data_parquet_Ok.
  apply parquet_holdings_Ok in Hh as ->. eexists. split; [done|].
  apply Forall2_fmap_r, Forall_Forall2_diag, Forall_forall.
  intros h Hin. apply list_elem_of_In, filter_In in Hin as [_ Hk].
  destruct (keeps_asset_type _ Hk) as (s & Hs & Hl). exists s.
  split; [done|]. simpl. rewrite lookup_insert_eq. by rewrite Hl.
Qed.

Lemma transform_portfolio_asset_type_lowered_witness :
  wf_portfolio portfolio_sample = true
  ∧ ∃ out kept,
      transform_data_parquet portfolio_sample "ttwror" "drawdown" = Ok out
      ∧ field out "holdings" = Some (JList kept)
      ∧ length kept = 2.
Proof.
  split; [reflexivity|].
  destruct (transform_portfolio_asset_type_lowered
              portfolio_sample "ttwror" "drawdown") as (Hwf & Hout & _).
  destruct (Hwf eq_refl) as [out Ho]. exists out.
  destruct (Hout out Ho) as (kept & Hf & Hall). exists kept.
  split; [exact Ho|]. split; [exact Hf|].
  symmetry. exact (Forall2_length _ _ _ Hall).
Defined.

(** ** The helpers *)

(** C5.  For every mapping [m] and key [k], [get_perf m k] is [m[k]] when
    [k] is present in [m] and the integer 0 otherwise; for every chart
    record [r] and key [k], [get_perf_chart r k] reads [r]'s [values]
    (an absent [values] read as the empty mapping) and returns
    [values[k]] when present and 0 otherwise.  In particular
    [get_perf {} "ttwror" = 0] and [get_perf {"ttwror": 0} "ttwror" = 0]. *)
Theorem get_perf_and_get_perf_chart :
  (∀ (m : gmap string json) k v,
      m !! k = Some v → get_perf (JDict m) k = Ok v)
  ∧ (∀ (m : gmap string json) k,
      m !! k = None → get_perf (JDict m) k = Ok (JInt 0))
  ∧ (∀ (r values : gmap string json) k v,
      r !! "values" = Some (JDict values) → values !! k = Some v →
      get_perf_chart (JDict r) k = Ok v)
  ∧ (∀ (r values : gmap string json) k,
      r !! "values" = Some (JDict values) → values !! k = None →
      get_perf_chart (JDict r) k = Ok (JInt 0))
  ∧ (∀ (r : gmap string json) k,
      r !! "values" = None → get_perf_chart (JDict r) k = Ok (JInt 0))
  ∧ get_perf (JDict ∅) "ttwror" = Ok (JInt 0)
  ∧ get_perf (JDict {[ "ttwror" := JInt 0 ]}) "ttwror" = Ok (JInt 0).
Proof.
  unfold get_perf, get_perf_chart.
  split; [|split; [|split; [|split; [|split; [|split]]]]]; try done.
  - intros m k v H. simpl. by rewrite H.
  - intros m k H. simpl. by rewrite H.
  - intros r values k v Hr Hv. simpl. rewrite Hr. simpl. by rewrite Hv.
  - intros r values k Hr Hv. simpl. rewrite Hr. simpl. by rewrite Hv.
  - intros r k Hr. simpl. rewrite Hr. simpl. by rewrite lookup_empty.
Qed.

Lemma get_perf_and_get_perf_chart_witness :
  get_perf (JDict {[ "ttwror" := JInt 5 ]}) "ttwror" = Ok (JInt 5)
  ∧ get_perf (JDict {[ "ttwror" := JInt 5 ]}) "izf" = Ok (JInt 0)
  ∧ get_perf_chart
      (JDict {[ "values" := JDict {[ "drawdown" := JInt 2 ]} ]}) "drawdown"
    = Ok (JInt 2)
  ∧ get_perf_chart
      (JDict {[ "values" := JDict {[ "drawdown" := JInt 2 ]} ]}) "ttwror"
    = Ok (JInt 0)
  ∧ get_perf_chart (JDict ∅) "drawdown" = Ok (JInt 0).
Proof.
  destruct get_perf_and_get_perf_chart as (H1 & H2 & H3 & H4 & H5 & _).
  split; [apply H1; reflexivity|].
  split; [apply H2; reflexivity|].
  split; [apply (H3 _ {[ "drawdown" := JInt 2 ]}); reflexivity|].
  split; [apply (H4 _ {[ "drawdown" := JInt 2 ]}); reflexivity|].
  apply H5; reflexivity.
Defined.

(** ** Totality *)

(** C6, as stated, fails: a payload whose [current_conditions] is null
    makes the weather transformer raise, and a holding whose [assetType]
    is null makes the portfolio transformer raise. *)
Lemma transformers_raise_on_ill_shaped :
  transform_data_tempest (JDict {[ "current_conditions" := JNull ]})
  = Raise AttributeError
  ∧ transform_data_parquet
      (JDict {[ "holdings" := JList [JDict {[ "assetType" := JNull ]}] ]})
      "ttwror" "drawdown"
    = Raise AttributeError
  ∧ ¬ (∀ data perf perf_chart,
         is_Ok (transform_data_tempest data)
         ∧ is_Ok (transform_data_parquet data perf perf_chart)).
Proof.
  split; [by vm_compute|]. split; [by vm_compute|].
  intros H.
  destruct (H (JDict {[ "current_conditions" := JNull ]}) "" "")
    as [[out Hout] _].
  vm_compute in Hout. discriminate.
Qed.

Lemma parquet_holdings_Ok_dicts data perf holdings :
  parquet_holdings data perf = Ok holdings →
  forallb is_dict (items_of (field data "holdings")) = true.
Proof.
  intros H. apply guarded_getitem_Ok in H.
  destruct (field data "holdings") as [hs|]; [|done].
  inv_bind H. rewrite for_each_append_some in H. inv_bind H.
  apply mapM_filter_holding_Ok in E0 as [_ Hd].
  destruct hs as [| | | |s|l|d]; simpl in *; try done.
  by injection E as <-.
Qed.

Lemma parquet_performance_Ok_dict data perf p :
  parquet_performance data perf = Ok p →
  absent_or is_dict data "performance" = true.
Proof.
  unfold parquet_performance, absent_or. intros H.
  destruct data as [| | | | | |d]; try discriminate. simpl in *.
  destruct (d !! "performance") as [[| | | | | |pd]|]; try discriminate; done.
Qed.

Lemma parquet_chart_Ok_dicts data perf_chart chart :
  parquet_chart data perf_chart = Ok chart →
  forallb is_dict (tail (items_of (field data "charts"))) = true.
Proof. by intros [_ H]%parquet_chart_Ok%mapM_get_perf_chart_Ok. Qed.

(** C6, amended.  Both transformers return a result, without raising, on
    every well-shaped payload: a mapping in which each key the
    transformer descends into is either absent or of the shape the data
    model gives it ([wf_weather], [wf_portfolio]).  Absent fields degrade
    to null, 0 or empty containers: on the empty mapping the weather
    transformer returns an empty [current_conditions] and an empty
    [forecast.daily], and the portfolio transformer returns no holdings,
    no chart and the performance [{valueStart: null, valueNow: null,
    perf: 0}].  Being well-shaped is sufficient, not necessary.  What is
    necessary: whenever the weather transformer returns,
    [current_conditions] is absent or a mapping and the first four entries
    of [forecast.daily] are mappings; whenever the portfolio transformer
    returns, the payload is a mapping, [performance] is absent or a
    mapping, every entry of [holdings] is a mapping and every entry of
    [charts] after the first is a mapping.  On a payload that fails one of
    these, the transformer raises. *)
Theorem transformers_total_on_well_shaped :
  (∀ data, wf_weather data = true → is_Ok (transform_data_tempest data))
  ∧ (∀ data perf perf_chart,
       wf_portfolio data = true →
       is_Ok (transform_data_parquet data perf perf_chart))
  ∧ transform_data_tempest (JDict ∅)
    = Ok (JDict {[ "current_conditions" := JDict ∅;
                   "forecast" := JDict {[ "daily" := JList [] ]} ]})
  ∧ (∀ perf perf_chart,
       transform_data_parquet (JDict ∅) perf perf_chart
       = Ok (JDict {[ "holdings" := JList [];
                      "performance" :=
                        JDict {[ "valueStart" := JNull; "valueNow" := JNull;
                                 "perf" := JInt 0 ]};
                      "chart" := JList [] ]}))
  ∧ (∀ data,
       absent_or is_dict data "current_conditions"
       && forallb is_dict (take 4 (items_of (forecast_daily data))) = false →
       ∃ e, transform_data_tempest data = Raise e)
  ∧ (∀ data perf perf_chart,
       is_dict data
       && absent_or is_dict data "performance"
       && forallb is_dict (items_of (field data "holdings"))
       && forallb is_dict (tail (items_of (field data "charts"))) = false →
       ∃ e, transform_data_parquet data perf perf_chart = Raise e).
Proof.
  split; [apply transform_data_tempest_wf|].
  split; [apply transform_data_parquet_wf|].
  split; [by vm_compute|].
  split.
  { intros perf perf_chart.
    assert (Hwf : wf_portfolio (JDict ∅) = true) by (by vm_compute).
    destruct (transform_data_parquet_wf (JDict ∅) perf perf_chart Hwf)
      as [out Hout].
    rewrite Hout. f_equal.
    apply transform_data_parquet_Ok in Hout
      as (hs & p & c & -> & Hh & Hp & Hc).
    apply parquet_holdings_Ok in Hh as ->.
    apply parquet_performance_Ok in Hp as [_ ->].
    apply parquet_chart_Ok in Hc. simpl in Hc. injection Hc as <-.
    done. }
  split.
  - intros data Hbad.
    destruct (transform_data_tempest data) as [out|e] eqn:Hout; [|by exists e].
    apply transform_data_tempest_Ok in Hout as (cc & daily & _ & Hcc & Hd).
    apply tempest_current_conditions_Ok in Hcc.
    apply tempest_daily_Ok in Hd as [_ Hd].
    rewrite Hd, andb_true_r in Hbad. unfold absent_or in Hbad.
    destruct (field data "current_conditions"); [|done].
    destruct Hcc as [Hcc _]. congruence.
  - intros data perf perf_chart Hbad.
    destruct (transform_data_parquet data perf perf_chart) as [out|e] eqn:Hout;
      [|by exists e].
    apply transform_data_parquet_Ok in Hout
      as (hs & p & c & _ & Hh & Hp & Hc).
    apply parquet_holdings_Ok_dicts in Hh.
    apply parquet_chart_Ok_dicts in Hc.
    pose proof (parquet_performance_Ok_dict _ _ _ Hp) as Hpd.
    apply parquet_performance_Ok in Hp as [Hdata _].
    by rewrite Hdata, Hpd, Hh, Hc in Hbad.
Qed.

Lemma transformers_total_on_well_shaped_witness :
  wf_weather weather_sample = true
  ∧ wf_portfolio portfolio_sample = true
  ∧ is_Ok (transform_data_tempest weather_sample)
  ∧ is_Ok (transform_data_parquet portfolio_sample "ttwror" "drawdown").
Proof.
  destruct transformers_total_on_well_shaped as (Hw & Hp & _).
  split; [reflexivity|]. split; [reflexivity|].
  split; [apply Hw; reflexivity | apply Hp; reflexivity].
Defined.

(** ** The request handlers *)

Lemma tempest_missing_parameter_400 upstream request k :
  method request = "GET" →
  k ∈ [ "station_id"; "units_temp"; "units_wind"; "units_pressure";
        "units_precip"; "units_distance"; "api_key" ] →
  param_truthy (query_params request !! k) = false →
  proxy_request_tempest upstream request
  = ([], Raises (HTTPException 400 "Missing required query parameters")).
Proof.
  intros Hm Hk Hf. unfold proxy_request_tempest, tempest_request_data.
  rewrite Hm. simpl.
  repeat (apply elem_of_cons in Hk as [->|Hk];
          [rewrite Hf; simpl; rewrite ?andb_false_r; done|]).
  by apply not_elem_of_nil in Hk.
Qed.

Lemma tempest_post_invalid_400 upstream request :
  method request = "POST" →
  (∀ body, request_json request = Some (JDict body) →
           WeatherRequest_init body = None) →
  proxy_request_tempest upstream request
  = ([], Raises (HTTPException 400 "Invalid JSON body.")).
Proof.
  intros Hm Hb. unfold proxy_request_tempest, tempest_request_data.
  rewrite Hm. simpl.
  destruct (request_json request) as [[| | | | | |body]|]; try done.
  by rewrite (Hb body eq_refl).
Qed.

Lemma fetch_weather_data_status upstream url params status_code text parsed :
  upstream (HttpGet url params) = Responded status_code text parsed →
  is_success status_code = false →
  (fetch_weather_data upstream url params).2
  = Raises (HTTPException status_code ("Weather API error: " +:+ text)).
Proof. intros Hu Hs. unfold fetch_weather_data. simpl. by rewrite Hu, Hs. Qed.

Lemma fetch_weather_data_502 upstream url params message :
  upstream (HttpGet url params) = RequestFailed message →
  status_of (fetch_weather_data upstream url params).2 = 502%Z.
Proof. intros Hu. unfold fetch_weather_data. simpl. by rewrite Hu. Qed.

Lemma fetch_parqet_data_status upstream url payload status_code text parsed :
  upstream (HttpPost url payload) = Responded status_code text parsed →
  is_success status_code = false →
  (fetch_parqet_data upstream url payload).2
  = Raises (HTTPException status_code ("Parqet API error: " +:+ text)).
Proof. intros Hu Hs. unfold fetch_parqet_data. simpl. by rewrite Hu, Hs. Qed.

Lemma fetch_parqet_data_502 upstream url payload message :
  upstream (HttpPost url payload) = RequestFailed message →
  status_of (fetch_parqet_data upstream url payload).2 = 502%Z.
Proof. intros Hu. unfold fetch_parqet_data. simpl. by rewrite Hu. Qed.

(** C9.  The claim asks for HTTP 400 on an invalid client parameter.  A
    GET request with every parameter present and one enumerated parameter
    outside its allowed values gets no 400: the request model is built
    outside any [try], the validation error escapes the handler and the
    framework answers 500.  No upstream call is made.  The POST path, given
    the same parameters as a body, catches the error and raises the 400.
    The portfolio route behaves alike. *)
Theorem get_invalid_enum_escapes_handler upstream :
  proxy_request_tempest upstream tempest_get_bad_unit
  = ([], Raises ValidationError)
  ∧ status_of (proxy_request_tempest upstream tempest_get_bad_unit).2 = 500%Z
  ∧ proxy_request_tempest upstream tempest_post_bad_unit
    = ([], Raises (HTTPException 400 "Invalid JSON body."))
  ∧ proxy_request_parquet upstream parquet_get_bad_timeframe
    = ([], Raises ValidationError)
  ∧ status_of (proxy_request_parquet upstream parquet_get_bad_timeframe).2
    = 500%Z.
Proof. repeat split; by vm_compute. Qed.

(** ** The transformers over the object store *)

(** The store runs of the samples agree with the runs over trees. *)
Example tempest_store_run :
  Heap.reify 4 Heap.weather_store (Heap.VRef 9) = Some weather_sample
  ∧ ∃ out σ',
      Heap.transform_data_tempest (Heap.VRef 9) Heap.weather_store
      = (Ok out, σ')
      ∧ Ok <$> Heap.reify 4 σ' out
        = Some (transform_data_tempest weather_sample).
Proof.
  split; [by vm_compute|]. eexists _, _. split; [by vm_compute|].
  by vm_compute.
Qed.

Example parquet_store_run :
  ∃ data out σ',
    Heap.reify 4 Heap.portfolio_store (Heap.VRef 9) = Some data
    ∧ Heap.transform_data_parquet (Heap.VRef 9) "ttwror" "drawdown"
                                  Heap.portfolio_store
      = (Ok out, σ')
    ∧ Ok <$> Heap.reify 4 σ' out
      = Some (transform_data_parquet data "ttwror" "drawdown").
Proof.
  eexists _, _, _. split; [by vm_compute|]. split; [by vm_compute|].
  by vm_compute.
Qed.

Module HeapFacts.
Import Heap.

(** *** A Hoare logic for the store monad *)

Section hoare.
Context (E : store → Prop).

Lemma triple_ret {A} (P : store → Prop) (a : A) (Q : A → store → Prop) :
  (∀ σ, P σ → Q a σ) → triple E P (mret a) Q.
Proof. intros H σ HP. by apply H. Qed.

Lemma triple_bind {A B} P (R : A → store → Prop) (m : M A) (f : A → M B) Q :
  triple E P m R → (∀ a, triple E (R a) (f a) Q) →
  triple E P (m ≫= f) Q.
Proof.
  intros Hm Hf σ HP. specialize (Hm σ HP).
  unfold mbind, M_bind, bind. destruct (m σ) as [[a|e] σ']; [|done].
  by apply Hf.
Qed.

Lemma triple_conseq {A} (P P' : store → Prop) (m : M A)
    (Q Q' : A → store → Prop) :
  (∀ σ, P' σ → P σ) → (∀ a σ, Q a σ → Q' a σ) →
  triple E P m Q → triple E P' m Q'.
Proof.
  intros HP HQ Hm σ HP'. specialize (Hm σ (HP σ HP')).
  destruct (m σ) as [[a|e] σ']; [by apply HQ | done].
Qed.

Lemma triple_pure {A} (φ : Prop) P (m : M A) Q :
  (φ → triple E P m Q) → triple E (fun σ => φ ∧ P σ) m Q.
Proof. intros H σ [Hφ HP]. by apply H. Qed.

Lemma triple_read {A} P (f : store → result A) Q :
  (∀ σ, P σ → E σ) → (∀ σ a, P σ → f σ = Ok a → Q a σ) →
  triple E P (read f) Q.
Proof.
  intros HE HQ σ HP. unfold read. destruct (f σ) as [a|e] eqn:Hf.
  - by apply HQ.
  - by apply HE.
Qed.

Lemma triple_new P (o : obj) Q :
  (∀ σ, P σ → Q (VRef (length σ)) (σ ++ [o])) → triple E P (new o) Q.
Proof. intros H σ HP. by apply H. Qed.

Lemma triple_setitem P (x : val) k v (Q : unit → store → Prop) :
  (∀ σ, P σ → E σ) →
  (∀ σ a d, P σ → x = VRef a → σ !! a = Some (ODict d) →
            Q () (<[a := ODict (<[k := v]> d)]> σ)) →
  triple E P (py_setitem x k v) Q.
Proof.
  intros HE HQ σ HP. unfold py_setitem.
  destruct x as [| | | | |a]; try by apply HE.
  destruct (σ !! a) as [[l|d]|] eqn:Ha; try by apply HE.
  by apply HQ.
Qed.

Lemma triple_append P (x : val) v (Q : unit → store → Prop) :
  (∀ σ, P σ → E σ) →
  (∀ σ a l, P σ → x = VRef a → σ !! a = Some (OList l) →
            Q () (<[a := OList (l ++ [v])]> σ)) →
  triple E P (py_append x v) Q.
Proof.
  intros HE HQ σ HP. unfold py_append.
  destruct x as [| | | | |a]; try by apply HE.
  destruct (σ !! a) as [[l|d]|] eqn:Ha; try by apply HE.
  by apply HQ.
Qed.

Lemma triple_slice4 P (x : val) Q :
  (∀ σ, P σ → E σ) →
  (∀ σ s, P σ → x = VStr s → Q (VStr (str_take 4 s)) σ) →
  (∀ σ a l, P σ → x = VRef a → σ !! a = Some (OList l) →
            Q (VRef (length σ)) (σ ++ [OList (take 4 l)])) →
  triple E P (py_slice4 x) Q.
Proof.
  intros HE Hs Hl σ HP. unfold py_slice4.
  destruct x as [| | | |s|a]; simpl; try by apply HE.
  - by apply Hs.
  - destruct (σ !! a) as [[l|d]|] eqn:Ha; try by apply HE.
    by eapply Hl.
Qed.

Lemma triple_for_in {A} (I : store → Prop) (l : list A) (body : A → M unit) :
  (∀ x, x ∈ l → triple E I (body x) (fun _ => I)) →
  triple E I (for_in l body) (fun _ => I).
Proof.
  induction l as [|x l IH]; intros Hbody; simpl.
  - by apply triple_ret.
  - eapply triple_bind; [apply Hbody; left|].
    intros u. apply IH. intros y Hy. apply Hbody. by right.
Qed.

Lemma triple_eval_all {A B} (I : store → Prop) (l : list A) (f : A → M B)
    (φ : B → Prop) :
  (∀ x, x ∈ l → triple E I (f x) (fun y σ => φ y ∧ I σ)) →
  triple E I (eval_all f l) (fun ys σ => Forall φ ys ∧ I σ).
Proof.
  induction l as [|x l IH]; intros Hf; simpl.
  - by apply triple_ret.
  - eapply triple_bind; [apply Hf; left|].
    intros y. apply triple_pure. intros Hy.
    eapply triple_bind; [apply IH; intros z Hz; apply Hf; by right|].
    intros ys. apply triple_pure. intros Hys.
    apply triple_ret. intros σ Hσ. split; [by constructor | done].
Qed.
End hoare.

(** *** Input values, copied values, and the objects a call creates *)

Section sharing.
Context (σ0 : store) (keys : list string).
Hypothesis Hclosed : closed σ0.

#[local] Abbreviation pre := (Heap.pre σ0).
#[local] Abbreviation flat := (Heap.flat σ0 keys).
#[local] Abbreviation flat_obj := (Heap.flat_obj σ0 keys).
#[local] Abbreviation flat_at := (Heap.flat_at σ0 keys).
#[local] Abbreviation record_ref := (Heap.record_ref σ0 keys).
#[local] Abbreviation src := (Heap.src σ0).

Lemma pre_refl : pre σ0.
Proof. exists []. by rewrite app_nil_r. Qed.

Lemma pre_alloc σ o : pre σ → pre (σ ++ [o]).
Proof. apply prefix_app_r. Qed.

Lemma pre_insert σ a o : pre σ → (length σ0 ≤ a)%nat → pre (<[a := o]> σ).
Proof.
  intros [k ->] Ha. exists (<[a - length σ0 := o]> k).
  by rewrite insert_app_r_alt.
Qed.

Lemma pre_length σ : pre σ → (length σ0 ≤ length σ)%nat.
Proof. apply prefix_length. Qed.

Lemma pre_lookup σ a : pre σ → a < length σ0 → σ !! a = σ0 !! a.
Proof. intros [k ->] Ha. by apply lookup_app_l. Qed.

Lemma lookup_alloc_old (σ : store) o a x :
  σ !! a = Some x → (σ ++ [o]) !! a = Some x.
Proof. apply lookup_app_l_Some. Qed.

Lemma lookup_alloc_new (σ : store) o : (σ ++ [o]) !! length σ = Some o.
Proof. by rewrite list_lookup_middle. Qed.

Lemma scalar_value_of x : (∀ c, x ≠ VRef c) → value_of σ0 x.
Proof. intros H c ->. by destruct (H c). Qed.

Lemma scalar_flat x : (∀ c, x ≠ VRef c) → flat x.
Proof. intros H c ->. by destruct (H c). Qed.

Lemma flat_obj_empty : flat_obj (ODict ∅).
Proof. intros v [k Hk]. by rewrite lookup_empty in Hk. Qed.

Lemma flat_obj_nil : flat_obj (OList []).
Proof. intros v Hv. by apply not_elem_of_nil in Hv. Qed.

Lemma flat_obj_insert d k v :
  flat_obj (ODict d) → flat v → flat_obj (ODict (<[k := v]> d)).
Proof.
  intros Hd Hv w [k' Hk']. destruct (decide (k = k')) as [->|Hne].
  - rewrite lookup_insert_eq in Hk'. by injection Hk' as <-.
  - rewrite lookup_insert_ne in Hk' by done. apply Hd. by exists k'.
Qed.

Lemma flat_obj_snoc l v :
  flat_obj (OList l) → flat v → flat_obj (OList (l ++ [v])).
Proof.
  intros Hl Hv w Hw. simpl in Hw. apply elem_of_app in Hw as [Hw|Hw].
  - by apply Hl.
  - apply list_elem_of_singleton in Hw. by subst.
Qed.

Lemma flat_obj_zip (ks : list string) vs :
  Forall flat vs → flat_obj (ODict (list_to_map (zip ks vs))).
Proof.
  intros Hvs v [k Hk]. apply elem_of_list_to_map_2 in Hk.
  apply elem_of_zip_r in Hk. rewrite Forall_forall in Hvs. by apply Hvs.
Qed.

Lemma flat_at_alloc σ o a : flat_at σ a → flat_at (σ ++ [o]) a.
Proof. intros (o' & Ho & Hf). exists o'. eauto using lookup_alloc_old. Qed.

Lemma flat_at_insert σ a b o :
  flat_at σ b → flat_obj o → flat_at (<[a := o]> σ) b.
Proof.
  intros (o' & Ho & Hf) Hflat. destruct (decide (a = b)) as [->|Hne].
  - exists o. split; [|done]. apply list_lookup_insert_eq.
    by eapply lookup_lt_Some.
  - exists o'. by rewrite list_lookup_insert_ne.
Qed.

Lemma flat_at_insert_ne σ a b o :
  a ≠ b → flat_at σ b → flat_at (<[a := o]> σ) b.
Proof.
  intros Hne (o' & Ho & Hf). exists o'. by rewrite list_lookup_insert_ne.
Qed.

Lemma record_ref_insert_low σ a o v :
  (a < length σ0 + 4)%nat → record_ref σ v →
  record_ref (<[a := o]> σ) v.
Proof.
  intros Ha (c & -> & Hc & Hf). exists c. split; [done|]. split; [done|].
  apply flat_at_insert_ne; [lia | done].
Qed.

Lemma record_ref_alloc σ o v : record_ref σ v → record_ref (σ ++ [o]) v.
Proof. intros (c & -> & Hc & Hf). exists c. eauto using flat_at_alloc. Qed.

Lemma record_ref_insert σ a o v :
  record_ref σ v → flat_obj o → record_ref (<[a := o]> σ) v.
Proof.
  intros (c & -> & Hc & Hf) Ho. exists c. eauto using flat_at_insert.
Qed.

Lemma src_value_of σ x : value_of σ0 x → src σ x.
Proof. by left. Qed.

Lemma src_alloc σ o x : src σ x → src (σ ++ [o]) x.
Proof.
  intros [Hx|(c & -> & Hc & Ho)]; [by left|]. right. exists c.
  eauto using lookup_alloc_old.
Qed.

Lemma src_new σ : pre σ → (length σ0 + 4 ≤ length σ)%nat →
  src (σ ++ [ODict ∅]) (VRef (length σ)).
Proof. intros _ Hlen. right. exists (length σ). eauto using lookup_alloc_new. Qed.

Lemma src_insert σ a o x :
  src σ x → a < length σ0 + 4 → src (<[a := o]> σ) x.
Proof.
  intros [Hx|(c & -> & Hc & Ho)] Ha; [by left|]. right. exists c.
  split; [done|]. split; [done|]. rewrite list_lookup_insert_ne; [done|lia].
Qed.

(** The object a source value refers to is an input object or the empty
    dictionary. *)
Lemma src_deref σ x o :
  pre σ → src σ x → deref σ x = Some o →
  (∃ a, x = VRef a ∧ σ0 !! a = Some o) ∨ o = ODict ∅.
Proof.
  intros Hpre [Hx|(c & -> & Hc & Ho)] Hd.
  - destruct x as [| | | | |a]; try discriminate. left. exists a.
    split; [done|]. simpl in Hd. rewrite <- Hd. symmetry.
    apply pre_lookup; [done|]. by apply Hx.
  - right. simpl in Hd. congruence.
Qed.

Lemma input_holds_value_of a o v :
  σ0 !! a = Some o → holds o v → value_of σ0 v.
Proof. intros Ha Hv c ->. by eapply Hclosed. Qed.

(** Reading a field of a source value gives a value of the input or
    the default; under a key of [keys] it gives a copied leaf. *)
Lemma src_get σ x d k dflt :
  pre σ → src σ x → deref σ x = Some (ODict d) →
  (src σ dflt → src σ (default dflt (d !! k)))
  ∧ (k ∈ keys → flat dflt → flat (default dflt (d !! k))).
Proof.
  intros Hpre Hx Hd.
  destruct (src_deref _ _ _ Hpre Hx Hd) as [(a & -> & Ha)|[= ->]].
  - destruct (d !! k) as [v|] eqn:Hk; simpl; [|done]. split.
    + intros _. left. eapply input_holds_value_of; [done|]. by exists k.
    + intros Hin _ c ->. by exists a, d, k.
  - by rewrite lookup_empty.
Qed.

Lemma src_getitem σ x d k v :
  pre σ → value_of σ0 x → deref σ x = Some (ODict d) → d !! k = Some v →
  value_of σ0 v.
Proof.
  intros Hpre Hx Hd Hk.
  destruct (src_deref _ _ _ Hpre (src_value_of _ _ Hx) Hd)
    as [(a & -> & Ha)|[= ->]].
  - eapply input_holds_value_of; [done|]. by exists k.
  - by rewrite lookup_empty in Hk.
Qed.

Lemma str_chars_value_of s : Forall (value_of σ0) (str_chars s).
Proof.
  induction s as [|c s IH]; simpl; constructor; [|done].
  by apply scalar_value_of.
Qed.

(** *** Rules for the reading operations *)

Lemma triple_read_any {A} (I : store → Prop) (f : store → result A) :
  (∀ σ, I σ → pre σ) → triple pre I (read f) (fun _ => I).
Proof. intros HI. apply triple_read; [done|]. by intros. Qed.

Lemma triple_py_get (I : store → Prop) x k dflt :
  (∀ σ, I σ → pre σ ∧ src σ x) →
  triple pre I (py_get x k dflt)
         (fun v σ => I σ ∧ (src σ dflt → src σ v)
                     ∧ (k ∈ keys → flat dflt → flat v)).
Proof.
  intros HI. apply triple_read; [intros σ Hσ; by apply HI|].
  intros σ v Hσ Hv. destruct (HI σ Hσ) as [Hpre Hx].
  destruct (deref σ x) as [[l|d]|] eqn:Hd; try discriminate.
  injection Hv as <-. split; [done|]. by eapply src_get.
Qed.

Lemma triple_py_getitem (I : store → Prop) x k :
  (∀ σ, I σ → pre σ) → value_of σ0 x →
  triple pre I (py_getitem x k) (fun v σ => I σ ∧ value_of σ0 v).
Proof.
  intros HI Hx. apply triple_read; [done|].
  intros σ v Hσ Hv.
  destruct (deref σ x) as [[l|d]|] eqn:Hd; try discriminate.
  destruct (d !! k) as [w|] eqn:Hk; [|discriminate]. injection Hv as <-.
  split; [done|]. eapply src_getitem; eauto.
Qed.

(** Iterating over a value of the input, or over a list of input
    values, visits values of the input. *)
Lemma triple_py_iter (I : store → Prop) x :
  (∀ σ, I σ → pre σ
            ∧ (value_of σ0 x
               ∨ ∃ l, deref σ x = Some (OList l)
                      ∧ Forall (value_of σ0) l)) →
  triple pre I (py_iter x)
         (fun items σ => I σ ∧ Forall (value_of σ0) items).
Proof.
  intros HI. apply triple_read; [intros σ Hσ; by apply HI|].
  intros σ items Hσ Hv. split; [done|].
  destruct (HI σ Hσ) as [Hpre Hx].
  destruct x as [| | | |s|a]; try discriminate.
  { injection Hv as <-. apply str_chars_value_of. }
  destruct (deref σ (VRef a)) as [[l|d]|] eqn:Hd; try discriminate.
  - injection Hv as <-. destruct Hx as [Hx|(l' & [= <-] & Hl)]; [|done].
    destruct (src_deref _ _ _ Hpre (src_value_of _ _ Hx) Hd)
      as [(a' & _ & Ha)|[=]].
    apply Forall_forall. intros v Hin.
    by eapply input_holds_value_of.
  - injection Hv as <-. apply Forall_fmap, Forall_forall.
    intros k _. by apply scalar_value_of.
Qed.

End sharing.

Lemma lookup_app_plus {A} (l1 l2 : list A) i :
  (l1 ++ l2) !! (length l1 + i) = l2 !! i.
Proof. rewrite lookup_app_r by lia. f_equal. lia. Qed.

Lemma triple_py_get_flat σ0 (keys : list string) (Hclosed : closed σ0)
    (I : list obj → Prop) x k dflt :
  (∀ σ, I σ → pre σ0 σ ∧ src σ0 σ x) → k ∈ keys → flat σ0 keys dflt →
  triple (pre σ0) I (py_get x k dflt) (fun v σ => flat σ0 keys v ∧ I σ).
Proof.
  intros HI Hk Hd. eapply triple_conseq; [| |by apply (triple_py_get σ0 keys)].
  - done.
  - intros v σ (Hσ & _ & Hf). split; [by apply Hf | done].
Qed.

Lemma triple_py_get_src σ0 (keys : list string) (Hclosed : closed σ0)
    (I : list obj → Prop) x k dflt :
  (∀ σ, I σ → pre σ0 σ ∧ src σ0 σ x ∧ src σ0 σ dflt) →
  triple (pre σ0) I (py_get x k dflt) (fun v σ => I σ ∧ src σ0 σ v).
Proof.
  intros HI. eapply triple_conseq; [| |apply (triple_py_get σ0 keys Hclosed I)].
  - done.
  - intros v σ (Hσ & Hs & _). split; [done|]. apply Hs. by apply HI.
  - intros σ Hσ. destruct (HI σ Hσ) as (? & ? & ?). done.
Qed.

(** Reading a key of a mapping whose content is known. *)
Lemma triple_getitem_pinned σ0 (I : list obj → Prop) (a : nat)
    (d : gmap string val) k v :
  (∀ σ, I σ → pre σ0 σ ∧ σ !! a = Some (ODict d)) → d !! k = Some v →
  triple (pre σ0) I (py_getitem (VRef a) k) (fun w σ => w = v ∧ I σ).
Proof.
  intros HI Hk. apply triple_read; [intros σ Hσ; by apply HI|].
  intros σ w Hσ Hw. split; [|done]. destruct (HI σ Hσ) as [_ Ha].
  simpl in Hw. rewrite Ha, Hk in Hw. by injection Hw.
Qed.

(** *** The weather transformer creates its output and leaves the input *)

Section tempest.
Context (σ0 : list obj) (Hclosed : closed σ0).
Context (data : val) (Hdata : value_of σ0 data).

#[local] Abbreviation n0 := (length σ0).
#[local] Abbreviation keys := tempest_leaf_keys.

#[local] Abbreviation tempest_inv := (Heap.tempest_inv σ0).

Lemma tempest_inv_pre σ : tempest_inv σ → pre σ0 σ.
Proof. by intros [? _]. Qed.

Lemma tempest_inv_src x :
  value_of σ0 x → ∀ σ, tempest_inv σ → pre σ0 σ ∧ src σ0 σ x.
Proof. intros Hx σ [? _]. split; [done | by left]. Qed.

Lemma tempest_inv_length σ : tempest_inv σ → (n0 + 4 ≤ length σ)%nat.
Proof. intros (_ & H & _). apply lookup_lt_Some in H. lia. Qed.

Lemma tempest_inv_init :
  tempest_inv
    ((((σ0 ++ [ODict ∅]) ++ [OList []])
        ++ [ODict {[ "daily" := VRef (n0 + 1) ]}])
       ++ [ODict {[ "current_conditions" := VRef n0;
                    "forecast" := VRef (n0 + 2) ]}]).
Proof.
  rewrite <- !app_assoc. simpl. split; [by apply prefix_app_r|].
  split; [by rewrite lookup_app_plus|].
  split; [by rewrite lookup_app_plus|].
  split.
  - exists (ODict ∅). split; [|apply flat_obj_empty].
    by rewrite <- (Nat.add_0_r n0) at 1; rewrite lookup_app_plus.
  - exists []. split; [by rewrite lookup_app_plus | constructor].
Qed.

Lemma tempest_inv_alloc σ o : tempest_inv σ → tempest_inv (σ ++ [o]).
Proof.
  intros (Hpre & Hfd & Hf & Hcc & l & Hl & Hrec).
  split; [by apply pre_alloc|].
  split; [by apply lookup_alloc_old|]. split; [by apply lookup_alloc_old|].
  split; [by apply flat_at_alloc|].
  exists l. split; [by apply lookup_alloc_old|].
  eapply Forall_impl; [done|]. intros v. apply record_ref_alloc.
Qed.

Lemma tempest_inv_set_cc σ d k v :
  tempest_inv σ → σ !! n0 = Some (ODict d) → flat σ0 keys v →
  tempest_inv (<[n0 := ODict (<[k := v]> d)]> σ).
Proof.
  intros (Hpre & Hfd & Hf & Hcc & l & Hl & Hrec) Hd Hv.
  assert (Hflat : flat_obj σ0 keys (ODict (<[k := v]> d))).
  { apply flat_obj_insert; [|done]. destruct Hcc as (o & Ho & Hfo).
    rewrite Hd in Ho. by injection Ho as <-. }
  split; [by apply pre_insert|].
  split; [by rewrite list_lookup_insert_ne by lia|].
  split; [by rewrite list_lookup_insert_ne by lia|].
  split; [by apply flat_at_insert|].
  exists l. split; [by rewrite list_lookup_insert_ne by lia|].
  eapply Forall_impl; [done|]. intros w Hw. by apply record_ref_insert.
Qed.

Lemma tempest_inv_append σ l c :
  tempest_inv σ → σ !! (n0 + 1) = Some (OList l) →
  (n0 + 4 ≤ c)%nat → flat_at σ0 keys σ c →
  tempest_inv (<[n0 + 1 := OList (l ++ [VRef c])]> σ).
Proof.
  intros (Hpre & Hfd & Hf & Hcc & l' & Hl & Hrec) Hl' Hc Hflat.
  assert (l' = l) as -> by congruence.
  assert (Hne : ∀ b, b ≠ (n0 + 1)%nat →
                     flat_at σ0 keys σ b →
                     flat_at σ0 keys (<[n0 + 1 := OList (l ++ [VRef c])]> σ) b).
  { intros b Hb (o & Ho & Hfo). exists o.
    by rewrite list_lookup_insert_ne. }
  split; [apply pre_insert; [done | lia]|].
  split; [by rewrite list_lookup_insert_ne by lia|].
  split; [by rewrite list_lookup_insert_ne by lia|].
  split; [apply Hne; [lia | done]|].
  exists (l ++ [VRef c]). split.
  { apply list_lookup_insert_eq. by eapply lookup_lt_Some. }
  apply Forall_app. split.
  - eapply Forall_impl; [done|]. intros w (c' & -> & Hc' & Hw).
    exists c'. split; [done|]. split; [done|]. apply Hne; [lia | done].
  - constructor; [|constructor]. exists c. split; [done|].
    split; [done|]. apply Hne; [lia | done].
Qed.

(** Lines 84-93. *)
Lemma tempest_current_conditions_block (has_cc : bool) :
  triple (pre σ0) tempest_inv
    (if has_cc then
       current_conditions ← py_getitem data "current_conditions";
       for_in current_conditions_fields (fun k =>
         v ← py_get current_conditions k VNull;
         target ← py_getitem (VRef (n0 + 3)) "current_conditions";
         py_setitem target k v)
     else mret ())
    (fun _ => tempest_inv).
Proof.
  destruct has_cc; [|by apply triple_ret].
  eapply triple_bind.
  { apply (triple_py_getitem σ0 Hclosed);
      [apply tempest_inv_pre | apply Hdata]. }
  intros cur. cbv beta.
  eapply triple_conseq with (P := fun σ => value_of σ0 cur ∧ tempest_inv σ);
    [by intros σ [? ?] | intros a σ H; exact H |].
  apply triple_pure. intros Hcur.
  apply triple_for_in. intros k Hk.
  eapply triple_bind.
  { apply (triple_py_get_flat σ0 keys Hclosed).
    - by apply tempest_inv_src.
    - apply elem_of_app. by left.
    - by apply scalar_flat. }
  intros v. apply triple_pure. intros Hv.
  eapply triple_bind with
    (R := fun target σ => target = VRef n0 ∧ tempest_inv σ).
  { apply triple_read; [apply tempest_inv_pre|].
    intros σ target Hσ Ht. split; [|done].
    destruct Hσ as (_ & Hfd & _). simpl in Ht. rewrite Hfd in Ht.
    simpl in Ht. by injection Ht as <-. }
  intros target. apply triple_pure. intros ->.
  apply triple_setitem; [apply tempest_inv_pre|].
  intros σ a d Hσ [= <-] Hd. by apply tempest_inv_set_cc.
Qed.

(** Lines 98-111: the body of the loop over the first four records. *)
Lemma tempest_daily_body daily_forecast :
  value_of σ0 daily_forecast →
  triple (pre σ0) tempest_inv
    (vs ← eval_all (fun k => py_get daily_forecast k VNull) daily_fields;
     filtered_daily ← new (ODict (list_to_map (zip daily_fields vs)));
     f' ← py_getitem (VRef (n0 + 3)) "forecast";
     target ← py_getitem f' "daily";
     py_append target filtered_daily)
    (fun _ => tempest_inv).
Proof.
  intros Hdf.
  eapply triple_bind.
  { apply (triple_eval_all _ tempest_inv _ _ (flat σ0 keys)).
    intros k Hk. apply (triple_py_get_flat σ0 keys Hclosed).
    - by apply tempest_inv_src.
    - apply elem_of_app. by right.
    - by apply scalar_flat. }
  intros vs. apply triple_pure. intros Hvs.
  eapply triple_bind with
    (R := fun v σ => record_ref σ0 keys σ v ∧ tempest_inv σ).
  { apply triple_new. intros σ Hσ. split; [|by apply tempest_inv_alloc].
    exists (length σ). split; [done|].
    split; [by apply tempest_inv_length|].
    eexists. split; [apply lookup_alloc_new | by apply flat_obj_zip]. }
  intros filtered_daily.
  eapply triple_bind.
  { apply (triple_getitem_pinned σ0 _ (n0 + 3)
             {[ "current_conditions" := VRef n0;
                "forecast" := VRef (n0 + 2) ]} "forecast" (VRef (n0 + 2)));
      [|done].
    intros σ [_ Hσ]. split; [by apply tempest_inv_pre|].
    by destruct Hσ as (_ & ? & _). }
  intros f'. apply triple_pure. intros ->.
  eapply triple_bind.
  { apply (triple_getitem_pinned σ0 _ (n0 + 2) {[ "daily" := VRef (n0 + 1) ]}
             "daily" (VRef (n0 + 1))); [|done].
    intros σ [_ Hσ]. split; [by apply tempest_inv_pre|].
    by destruct Hσ as (_ & _ & ? & _). }
  intros target. apply triple_pure. intros ->.
  apply triple_append; [intros σ [_ Hσ]; by apply tempest_inv_pre|].
  intros σ a l [(c & -> & Hc & Hflat) Hσ] [= <-] Hl.
  by apply tempest_inv_append.
Qed.

(** Lines 96-111. *)
Lemma tempest_daily_block (has_daily : bool) :
  triple (pre σ0) tempest_inv
    (if has_daily then
       f ← py_getitem data "forecast";
       all ← py_getitem f "daily";
       first4 ← py_slice4 all;
       items ← py_iter first4;
       for_in items (fun daily_forecast =>
         vs ← eval_all (fun k => py_get daily_forecast k VNull)
                       daily_fields;
         filtered_daily ← new (ODict (list_to_map (zip daily_fields vs)));
         f' ← py_getitem (VRef (n0 + 3)) "forecast";
         target ← py_getitem f' "daily";
         py_append target filtered_daily)
     else mret ())
    (fun _ => tempest_inv).
Proof.
  destruct has_daily; [|by apply triple_ret].
  eapply triple_bind.
  { apply (triple_py_getitem σ0 Hclosed);
      [apply tempest_inv_pre | apply Hdata]. }
  intros f. cbv beta.
  eapply triple_conseq with (P := fun σ => value_of σ0 f ∧ tempest_inv σ);
    [by intros σ [? ?] | intros a σ H; exact H |].
  apply triple_pure. intros Hf.
  eapply triple_bind.
  { apply (triple_py_getitem σ0 Hclosed); [apply tempest_inv_pre | done]. }
  intros all. cbv beta.
  eapply triple_conseq with (P := fun σ => value_of σ0 all ∧ tempest_inv σ);
    [by intros σ [? ?] | intros a σ H; exact H |].
  apply triple_pure. intros Hall.
  eapply triple_bind with
    (R := fun first4 σ =>
            tempest_inv σ
            ∧ (value_of σ0 first4
               ∨ ∃ l, deref σ first4 = Some (OList l)
                      ∧ Forall (value_of σ0) l)).
  { apply triple_slice4; [apply tempest_inv_pre| |].
    - intros σ s Hσ _. split; [done|]. left. by apply scalar_value_of.
    - intros σ a l Hσ -> Ha. split; [by apply tempest_inv_alloc|].
      right. exists (take 4 l). split; [apply lookup_alloc_new|].
      apply Forall_take, Forall_forall. intros v Hv.
      eapply (input_holds_value_of σ0 Hclosed a (OList l)); [|done].
      rewrite <- Ha. symmetry. apply pre_lookup;
        [by apply tempest_inv_pre | by apply Hall]. }
  intros first4.
  eapply triple_bind.
  { apply (triple_py_iter σ0 Hclosed). intros σ [Hσ Hx].
    split; [by apply tempest_inv_pre | done]. }
  intros items. cbv beta.
  eapply triple_conseq with
    (P := fun σ => Forall (value_of σ0) items ∧ tempest_inv σ);
    [by intros σ [[? _] ?] | intros a σ H; exact H |].
  apply triple_pure. intros Hitems.
  apply triple_for_in. intros x Hx. apply tempest_daily_body.
  rewrite Forall_forall in Hitems. by apply Hitems.
Qed.

(** The whole transformer: it returns the mapping created at [n0 + 3]
    and leaves the store in the shape [tempest_inv] describes; when it
    raises, the input objects are unchanged all the same. *)
Lemma transform_data_tempest_triple :
  triple (pre σ0) (fun σ => σ = σ0) (transform_data_tempest data)
         (fun out σ => out = VRef (n0 + 3) ∧ tempest_inv σ).
Proof.
  unfold transform_data_tempest.
  eapply triple_bind with
    (R := fun v σ => v = VRef n0 ∧ σ = σ0 ++ [ODict ∅]).
  { apply triple_new. by intros σ ->. }
  intros cc. apply triple_pure. intros ->.
  eapply triple_bind with
    (R := fun v σ => v = VRef (n0 + 1)
                     ∧ σ = (σ0 ++ [ODict ∅]) ++ [OList []]).
  { apply triple_new. intros σ ->. split; [|done].
    rewrite length_app. simpl. done. }
  intros daily. apply triple_pure. intros ->.
  eapply triple_bind with
    (R := fun v σ =>
            v = VRef (n0 + 2)
            ∧ σ = ((σ0 ++ [ODict ∅]) ++ [OList []])
                    ++ [ODict {[ "daily" := VRef (n0 + 1) ]}]).
  { apply triple_new. intros σ ->. split; [|done].
    rewrite !length_app. simpl. f_equal. lia. }
  intros forecast. apply triple_pure. intros ->.
  eapply triple_bind with
    (R := fun v σ => v = VRef (n0 + 3) ∧ tempest_inv σ).
  { apply triple_new. intros σ ->. split.
    - rewrite !length_app. simpl. f_equal. lia.
    - apply tempest_inv_init. }
  intros filtered_data. apply triple_pure. intros ->.
  eapply triple_bind; [apply triple_read_any, tempest_inv_pre|].
  intros has_cc.
  eapply triple_bind; [apply tempest_current_conditions_block|].
  intros u.
  eapply triple_bind; [apply triple_read_any, tempest_inv_pre|].
  intros has_forecast.
  eapply triple_bind with (R := fun _ => tempest_inv).
  { destruct has_forecast; [|by apply triple_ret].
    eapply triple_bind.
    { apply (triple_py_getitem σ0 Hclosed);
        [apply tempest_inv_pre | apply Hdata]. }
    intros f. eapply triple_conseq with (P := tempest_inv);
      [by intros σ [? _] | intros a σ H; exact H |].
    apply triple_read_any, tempest_inv_pre. }
  intros has_daily.
  eapply triple_bind; [apply tempest_daily_block|].
  intros u'. by apply triple_ret.
Qed.
End tempest.

(** *** The portfolio transformer creates its output and leaves the input *)

Section parquet.
Context (σ0 : list obj) (Hclosed : closed σ0).
Context (perf perf_chart : string).
Context (data : val) (Hdata : value_of σ0 data).

#[local] Abbreviation n0 := (length σ0).
#[local] Abbreviation keys := (parquet_leaf_keys perf perf_chart).

#[local] Abbreviation parquet_inv :=
  (Heap.parquet_inv σ0 perf perf_chart).

Lemma parquet_inv_pre p σ : parquet_inv p σ → pre σ0 σ.
Proof. by intros [? _]. Qed.

Lemma parquet_inv_length p σ : parquet_inv p σ → (n0 + 4 ≤ length σ)%nat.
Proof. intros (_ & H & _). apply lookup_lt_Some in H. lia. Qed.

Lemma parquet_inv_init :
  parquet_inv (n0 + 1)
    ((((σ0 ++ [OList []]) ++ [ODict ∅]) ++ [OList []])
       ++ [ODict {[ "holdings" := VRef n0;
                    "performance" := VRef (n0 + 1);
                    "chart" := VRef (n0 + 2) ]}]).
Proof.
  rewrite <- !app_assoc. simpl. split; [by apply prefix_app_r|].
  split; [by rewrite lookup_app_plus|].
  split.
  { exists (ODict ∅). split; [by rewrite lookup_app_plus|].
    apply flat_obj_empty. }
  split.
  - exists []. split; [|constructor].
    by rewrite <- (Nat.add_0_r n0) at 1; rewrite lookup_app_plus.
  - exists (OList []). split; [by rewrite lookup_app_plus|].
    apply flat_obj_nil.
Qed.

Lemma parquet_inv_alloc p σ o : parquet_inv p σ → parquet_inv p (σ ++ [o]).
Proof.
  intros (Hpre & Hfd & Hp & (l & Hl & Hrec) & Hc).
  split; [by apply pre_alloc|].
  split; [by apply lookup_alloc_old|].
  split; [by apply flat_at_alloc|].
  split; [|by apply flat_at_alloc].
  exists l. split; [by apply lookup_alloc_old|].
  eapply Forall_impl; [done|]. intros v. apply record_ref_alloc.
Qed.

Lemma parquet_inv_append_holding p σ l c :
  (p = n0 + 1 ∨ n0 + 4 ≤ p)%nat →
  parquet_inv p σ → σ !! n0 = Some (OList l) →
  (n0 + 4 ≤ c)%nat → flat_at σ0 keys σ c →
  parquet_inv p (<[n0 := OList (l ++ [VRef c])]> σ).
Proof.
  intros Hp (Hpre & Hfd & Hfp & (l' & Hl & Hrec) & Hc) Hl' Hc' Hflat.
  assert (l' = l) as -> by congruence.
  split; [apply pre_insert; [done | lia]|].
  split; [by rewrite list_lookup_insert_ne by lia|].
  split; [apply flat_at_insert_ne; [lia | done]|].
  split; [|apply flat_at_insert_ne; [lia | done]].
  exists (l ++ [VRef c]). split.
  { apply list_lookup_insert_eq. by eapply lookup_lt_Some. }
  apply Forall_app. split.
  - eapply Forall_impl; [done|]. intros w Hw.
    apply record_ref_insert_low; [lia | done].
  - constructor; [|constructor]. exists c. split; [done|].
    split; [done|]. apply flat_at_insert_ne; [lia | done].
Qed.

Lemma parquet_inv_append_chart p σ l v :
  (p = n0 + 1 ∨ n0 + 4 ≤ p)%nat →
  parquet_inv p σ → σ !! (n0 + 2) = Some (OList l) → flat σ0 keys v →
  parquet_inv p (<[n0 + 2 := OList (l ++ [v])]> σ).
Proof.
  intros Hp (Hpre & Hfd & Hfp & (l' & Hl & Hrec) & Hc) Hl' Hv.
  split; [apply pre_insert; [done | lia]|].
  split; [by rewrite list_lookup_insert_ne by lia|].
  split; [apply flat_at_insert_ne; [lia | done]|].
  split.
  - exists l'. split; [by rewrite list_lookup_insert_ne by lia|].
    eapply Forall_impl; [done|]. intros w Hw.
    apply record_ref_insert_low; [lia | done].
  - exists (OList (l ++ [v])). split.
    { apply list_lookup_insert_eq. by eapply lookup_lt_Some. }
    apply flat_obj_snoc; [|done]. destruct Hc as (o & Ho & Hfo).
    rewrite Hl' in Ho. by injection Ho as <-.
Qed.

Lemma performance_replaced (a b c d : val) :
  <["performance" := d]>
    ({[ "holdings" := a; "performance" := b; "chart" := c ]}
       : gmap string val)
  = {[ "holdings" := a; "performance" := d; "chart" := c ]}.
Proof.
  rewrite insert_insert_ne by done. by rewrite insert_insert_eq.
Qed.

Lemma parquet_inv_set_performance p σ d c :
  parquet_inv p σ → σ !! (n0 + 3) = Some (ODict d) →
  (n0 + 4 ≤ c)%nat → flat_at σ0 keys σ c →
  parquet_inv c (<[n0 + 3 := ODict (<["performance" := VRef c]> d)]> σ).
Proof.
  intros (Hpre & Hfd & Hfp & (l & Hl & Hrec) & Hc) Hd Hc' Hflat.
  rewrite Hfd in Hd. injection Hd as <-.
  split; [apply pre_insert; [done | lia]|].
  split.
  { rewrite performance_replaced. apply list_lookup_insert_eq.
    by eapply lookup_lt_Some. }
  split; [apply flat_at_insert_ne; [lia | done]|].
  split; [|apply flat_at_insert_ne; [lia | done]].
  exists l. split; [by rewrite list_lookup_insert_ne by lia|].
  eapply Forall_impl; [done|]. intros w Hw.
  apply record_ref_insert_low; [lia | done].
Qed.

Lemma parquet_inv_set_perf p σ d k v :
  (n0 + 4 ≤ p)%nat →
  parquet_inv p σ → σ !! p = Some (ODict d) → flat σ0 keys v →
  parquet_inv p (<[p := ODict (<[k := v]> d)]> σ).
Proof.
  intros Hp (Hpre & Hfd & Hfp & (l & Hl & Hrec) & Hc) Hd Hv.
  assert (Hflat : flat_obj σ0 keys (ODict (<[k := v]> d))).
  { apply flat_obj_insert; [|done]. destruct Hfp as (o & Ho & Hfo).
    rewrite Hd in Ho. by injection Ho as <-. }
  split; [apply pre_insert; [done | lia]|].
  split; [by rewrite list_lookup_insert_ne by lia|].
  split; [by apply flat_at_insert|].
  split; [|by apply flat_at_insert].
  exists l. split; [by rewrite list_lookup_insert_ne by lia|].
  eapply Forall_impl; [done|]. intros w Hw. by apply record_ref_insert.
Qed.

(** [h.get(k1, {}).get(k2, dflt)], the way every nested field is read:
    the result is a copied leaf when [k2] is one of the leaf keys. *)
Lemma triple_get_default {B} (I : list obj → Prop) h k1 k2 dflt
    (f : val → M B) Q :
  (∀ σ, I σ → pre σ0 σ ∧ (n0 + 4 ≤ length σ)%nat) →
  (∀ σ o, I σ → I (σ ++ [o])) →
  value_of σ0 h → (∀ c, dflt ≠ VRef c) →
  (∀ v, (k2 ∈ keys → flat σ0 keys v) → triple (pre σ0) I (f v) Q) →
  triple (pre σ0) I
         (e ← new (ODict ∅);
          x ← py_get h k1 e;
          v ← py_get x k2 dflt;
          f v)
         Q.
Proof.
  intros HI Halloc Hh Hdflt Hf.
  eapply triple_bind with (R := fun e σ => I σ ∧ src σ0 σ e).
  { apply triple_new. intros σ Hσ. split; [by apply Halloc|].
    destruct (HI σ Hσ). by apply src_new. }
  intros e.
  eapply triple_bind.
  { apply (triple_py_get_src σ0 keys Hclosed). intros σ [Hσ He].
    split; [by apply HI|]. split; [by left | done]. }
  intros x.
  eapply triple_bind.
  { apply (triple_py_get σ0 keys Hclosed). intros σ [[Hσ He] Hx].
    split; [by apply HI | done]. }
  intros v. cbv beta.
  eapply triple_conseq with
    (P := fun σ => (k2 ∈ keys → flat σ0 keys v) ∧ I σ);
    [|intros a σ H; exact H|].
  - intros σ ([[Hσ _] _] & _ & Hflat). split; [|done].
    intros Hk. apply Hflat; [done | by apply scalar_flat].
  - apply triple_pure. apply Hf.
Qed.

Lemma parquet_inv_src p x :
  value_of σ0 x → ∀ σ, parquet_inv p σ → pre σ0 σ ∧ src σ0 σ x.
Proof. intros Hx σ [? _]. split; [done | by left]. Qed.

Lemma parquet_inv_bounds p σ :
  parquet_inv p σ → pre σ0 σ ∧ (n0 + 4 ≤ length σ)%nat.
Proof. intros H. split; [by eapply parquet_inv_pre | by eapply parquet_inv_length]. Qed.

(** Membership in the literal list of leaf keys. *)
Ltac leaf_key := apply list_elem_of_In; simpl; tauto.

(** Peels one nested read [h.get(k1, {}).get(k2, dflt)] off the goal. *)
Ltac get_default v Hv :=
  apply triple_get_default;
  [ apply parquet_inv_bounds
  | intros ? ?; apply parquet_inv_alloc
  | assumption
  | by intros ?
  | intros v Hv ].

(** Lines 122-141: the body of the loop over the holdings. *)
Lemma filter_holding_triple p holding :
  (p = n0 + 1 ∨ n0 + 4 ≤ p)%nat → value_of σ0 holding →
  triple (pre σ0) (parquet_inv p)
         (filter_holding (VRef (n0 + 3)) holding perf)
         (fun _ => parquet_inv p).
Proof.
  intros Hp Hh. unfold filter_holding, get_perf.
  eapply triple_bind; [apply triple_read_any, parquet_inv_pre|].
  intros at0.
  eapply triple_bind; [apply triple_read_any, parquet_inv_pre|].
  intros asset_type.
  destruct (negb _); [by apply triple_ret|].
  get_default is_sold His_sold.
  get_default shares Hshares.
  eapply triple_bind; [apply triple_read_any, parquet_inv_pre|].
  intros sold.
  destruct (sold || _); [by apply triple_ret|].
  eapply triple_bind.
  { apply (triple_py_get_flat σ0 keys Hclosed).
    - by apply parquet_inv_src.
    - leaf_key.
    - by apply scalar_flat. }
  intros currency. apply triple_pure. intros Hcurrency.
  get_default ident Hident.
  get_default name Hname.
  get_default price_start Hprice_start.
  get_default value_start Hvalue_start.
  get_default price_now Hprice_now.
  get_default value_now Hvalue_now.
  get_default shares' Hshares'.
  get_default pf Hpf.
  eapply triple_bind with
    (R := fun v σ => record_ref σ0 keys σ v ∧ parquet_inv p σ).
  { apply triple_new. intros σ Hσ. split; [|by apply parquet_inv_alloc].
    exists (length σ). split; [done|].
    split; [by eapply parquet_inv_length|].
    eexists. split; [apply lookup_alloc_new|].
    rewrite <- insert_empty.
    repeat (apply flat_obj_insert;
            [|first [ by apply scalar_flat
                    | assumption
                    | match goal with
                      | H : _ ∈ _ → flat _ _ ?v |- flat _ _ ?v =>
                          apply H; leaf_key
                      end ]]).
    apply flat_obj_empty. }
  intros filtered_holding.
  eapply triple_bind.
  { apply (triple_getitem_pinned σ0 _ (n0 + 3)
             {[ "holdings" := VRef n0; "performance" := VRef p;
                "chart" := VRef (n0 + 2) ]} "holdings" (VRef n0));
      [|done].
    intros σ [_ Hσ]. split; [by eapply parquet_inv_pre|].
    by destruct Hσ as (_ & ? & _). }
  intros target. apply triple_pure. intros ->.
  apply triple_append; [intros σ [_ Hσ]; by eapply parquet_inv_pre|].
  intros σ a l [(c & -> & Hc & Hflat) Hσ] [= <-] Hl.
  by apply parquet_inv_append_holding.
Qed.

Lemma get_perf_chart_triple p chart :
  value_of σ0 chart →
  triple (pre σ0) (parquet_inv p) (get_perf_chart chart perf_chart)
         (fun v σ => flat σ0 keys v ∧ parquet_inv p σ).
Proof.
  intros Hchart. unfold get_perf_chart.
  eapply triple_bind with
    (R := fun e σ => parquet_inv p σ ∧ src σ0 σ e).
  { apply triple_new. intros σ Hσ. split; [by apply parquet_inv_alloc|].
    destruct (parquet_inv_bounds _ _ Hσ). by apply src_new. }
  intros e.
  eapply triple_bind.
  { apply (triple_py_get_src σ0 keys Hclosed). intros σ [Hσ He].
    split; [by eapply parquet_inv_pre|]. split; [by left | done]. }
  intros values.
  eapply triple_conseq; [| |apply (triple_py_get σ0 keys Hclosed)].
  - intros σ H. exact H.
  - intros v σ ([[Hσ _] _] & _ & Hflat). split; [|done].
    apply Hflat; [leaf_key | by apply scalar_flat].
  - intros σ [[Hσ _] Hx]. split; [by eapply parquet_inv_pre | done].
Qed.

(** Lines 153-158. *)
Lemma chart_loop_triple p first items :
  (p = n0 + 1 ∨ n0 + 4 ≤ p)%nat → Forall (value_of σ0) items →
  triple (pre σ0) (parquet_inv p)
         (chart_loop (VRef (n0 + 3)) perf_chart first items)
         (fun _ => parquet_inv p).
Proof.
  intros Hp Hitems. revert first.
  induction Hitems as [|chart rest Hchart _ IH]; intros first; simpl.
  { by apply triple_ret. }
  destruct first; [apply IH|].
  eapply triple_bind; [by apply get_perf_chart_triple|].
  intros v. apply triple_pure. intros Hv.
  eapply triple_bind.
  { apply (triple_getitem_pinned σ0 _ (n0 + 3)
             {[ "holdings" := VRef n0; "performance" := VRef p;
                "chart" := VRef (n0 + 2) ]} "chart" (VRef (n0 + 2)));
      [|done].
    intros σ Hσ. split; [by eapply parquet_inv_pre|].
    by destruct Hσ as (_ & ? & _). }
  intros target. apply triple_pure. intros ->.
  eapply triple_bind with (R := fun _ => parquet_inv p).
  { apply triple_append; [apply parquet_inv_pre|].
    intros σ a l Hσ [= <-] Hl. by apply parquet_inv_append_chart. }
  intros u. apply IH.
Qed.

(** Lines 120-141. *)
Lemma parquet_holdings_block (has_holdings : bool) :
  triple (pre σ0) (parquet_inv (n0 + 1))
    (if has_holdings then
       hs ← py_getitem data "holdings";
       items ← py_iter hs;
       for_in items (fun holding =>
         filter_holding (VRef (n0 + 3)) holding perf)
     else mret ())
    (fun _ => parquet_inv (n0 + 1)).
Proof.
  destruct has_holdings; [|by apply triple_ret].
  eapply triple_bind.
  { apply (triple_py_getitem σ0 Hclosed);
      [apply parquet_inv_pre | apply Hdata]. }
  intros hs. cbv beta.
  eapply triple_conseq with
    (P := fun σ => value_of σ0 hs ∧ parquet_inv (n0 + 1) σ);
    [by intros σ [? ?] | intros a σ H; exact H |].
  apply triple_pure. intros Hhs.
  eapply triple_bind.
  { apply (triple_py_iter σ0 Hclosed). intros σ Hσ.
    split; [by eapply parquet_inv_pre | by left]. }
  intros items. cbv beta.
  eapply triple_conseq with
    (P := fun σ => Forall (value_of σ0) items ∧ parquet_inv (n0 + 1) σ);
    [by intros σ [? ?] | intros a σ H; exact H |].
  apply triple_pure. intros Hitems.
  apply triple_for_in. intros x Hx.
  apply filter_holding_triple; [by left|].
  rewrite Forall_forall in Hitems. by apply Hitems.
Qed.

(** Lines 151-158. *)
Lemma parquet_chart_block p (has_charts : bool) :
  (p = n0 + 1 ∨ n0 + 4 ≤ p)%nat →
  triple (pre σ0) (parquet_inv p)
    (if has_charts then
       cs ← py_getitem data "charts";
       items ← py_iter cs;
       chart_loop (VRef (n0 + 3)) perf_chart true items
     else mret ())
    (fun _ => parquet_inv p).
Proof.
  intros Hp. destruct has_charts; [|by apply triple_ret].
  eapply triple_bind.
  { apply (triple_py_getitem σ0 Hclosed);
      [apply parquet_inv_pre | apply Hdata]. }
  intros cs. cbv beta.
  eapply triple_conseq with
    (P := fun σ => value_of σ0 cs ∧ parquet_inv p σ);
    [by intros σ [? ?] | intros a σ H; exact H |].
  apply triple_pure. intros Hcs.
  eapply triple_bind.
  { apply (triple_py_iter σ0 Hclosed). intros σ Hσ.
    split; [by eapply parquet_inv_pre | by left]. }
  intros items. cbv beta.
  eapply triple_conseq with
    (P := fun σ => Forall (value_of σ0) items ∧ parquet_inv p σ);
    [by intros σ [? ?] | intros a σ H; exact H |].
  apply triple_pure. intros Hitems.
  by apply chart_loop_triple.
Qed.

(** Lines 143-149, followed by the chart block and the return. *)
Lemma parquet_performance_block :
  triple (pre σ0) (parquet_inv (n0 + 1))
    (e ← new (ODict ∅);
     performance_data ← py_get data "performance" e;
     value_start ←
       py_get performance_data "purchaseValueForInterval" VNull;
     value_now ← py_get performance_data "value" VNull;
     performance' ← new (ODict {[ "valueStart" := value_start;
                                  "valueNow" := value_now ]});
     py_setitem (VRef (n0 + 3)) "performance" performance';;
     p ← get_perf performance_data perf;
     target ← py_getitem (VRef (n0 + 3)) "performance";
     py_setitem target "perf" p;;
     has_charts ← py_contains "charts" data;
     (if has_charts : bool then
        cs ← py_getitem data "charts";
        items ← py_iter cs;
        chart_loop (VRef (n0 + 3)) perf_chart true items
      else mret ());;
     mret (VRef (n0 + 3)))
    (fun out σ =>
       out = VRef (n0 + 3)
       ∧ ∃ p, (p = n0 + 1 ∨ n0 + 4 ≤ p)%nat ∧ parquet_inv p σ).
Proof.
  eapply triple_bind with
    (R := fun e σ => parquet_inv (n0 + 1) σ ∧ src σ0 σ e).
  { apply triple_new. intros σ Hσ. split; [by apply parquet_inv_alloc|].
    destruct (parquet_inv_bounds _ _ Hσ). by apply src_new. }
  intros e.
  eapply triple_bind with
    (R := fun pd σ => parquet_inv (n0 + 1) σ ∧ src σ0 σ pd).
  { eapply triple_conseq;
      [| |apply (triple_py_get_src σ0 keys Hclosed _ data "performance" e)].
    - intros σ H. exact H.
    - by intros pd σ [[? _] ?].
    - intros σ [Hσ He]. split; [by eapply parquet_inv_pre|].
      split; [by left | done]. }
  intros pd.
  eapply triple_bind.
  { apply (triple_py_get_flat σ0 keys Hclosed).
    - intros σ [Hσ Hpd]. split; [by eapply parquet_inv_pre | done].
    - leaf_key.
    - by apply scalar_flat. }
  intros value_start. apply triple_pure. intros Hvs.
  eapply triple_bind.
  { apply (triple_py_get_flat σ0 keys Hclosed).
    - intros σ [Hσ Hpd]. split; [by eapply parquet_inv_pre | done].
    - leaf_key.
    - by apply scalar_flat. }
  intros value_now. apply triple_pure. intros Hvn.
  eapply triple_bind with
    (R := fun v σ =>
            (∃ c, v = VRef c ∧ (n0 + 4 ≤ c)%nat)
            ∧ (flat_at σ0 keys σ (length σ - 1)
               ∧ v = VRef (length σ - 1)
               ∧ parquet_inv (n0 + 1) σ ∧ src σ0 σ pd)).
  { apply triple_new. intros σ [Hσ Hpd].
    assert (Hlen : length (σ ++ [ODict {[ "valueStart" := value_start;
                                          "valueNow" := value_now ]}]) - 1
                   = length σ).
    { rewrite length_app. simpl. lia. }
    rewrite Hlen. split; [|split; [|split; [done|split]]].
    - exists (length σ). split; [done | by eapply parquet_inv_length].
    - eexists. split; [apply lookup_alloc_new|].
      rewrite <- insert_empty.
      repeat (apply flat_obj_insert; [|assumption]). apply flat_obj_empty.
    - by apply parquet_inv_alloc.
    - by apply src_alloc. }
  intros performance'. apply triple_pure. intros (c & -> & Hc).
  eapply triple_bind with
    (R := fun _ σ => parquet_inv c σ ∧ src σ0 σ pd).
  { apply triple_setitem.
    - intros σ (_ & _ & Hσ & _). by eapply parquet_inv_pre.
    - intros σ a d (Hflat & [= Hceq] & Hσ & Hpd) [= <-] Hd.
      rewrite <- Hceq in Hflat. split.
      + by apply (parquet_inv_set_performance (n0 + 1)).
      + apply src_insert; [done | lia]. }
  intros u.
  eapply triple_bind.
  { apply (triple_py_get_flat σ0 keys Hclosed).
    - intros σ [Hσ Hpd]. split; [by eapply parquet_inv_pre | done].
    - leaf_key.
    - by apply scalar_flat. }
  intros g. apply triple_pure. intros Hg.
  eapply triple_bind.
  { apply (triple_getitem_pinned σ0 _ (n0 + 3)
             {[ "holdings" := VRef n0; "performance" := VRef c;
                "chart" := VRef (n0 + 2) ]} "performance" (VRef c));
      [|done].
    intros σ [Hσ _]. split; [by eapply parquet_inv_pre|].
    by destruct Hσ as (_ & ? & _). }
  intros target. apply triple_pure. intros ->.
  eapply triple_bind with (R := fun _ => parquet_inv c).
  { apply triple_setitem.
    - intros σ [Hσ _]. by eapply parquet_inv_pre.
    - intros σ a d [Hσ _] [= <-] Hd. by apply parquet_inv_set_perf. }
  intros u'.
  eapply triple_bind; [apply triple_read_any, parquet_inv_pre|].
  intros has_charts.
  eapply triple_bind; [apply parquet_chart_block; by right|].
  intros u''. apply triple_ret. intros σ Hσ. split; [done|].
  exists c. split; [by right | done].
Qed.

(** The whole transformer. *)
Lemma transform_data_parquet_triple :
  triple (pre σ0) (fun σ => σ = σ0)
         (transform_data_parquet data perf perf_chart)
         (fun out σ =>
            out = VRef (n0 + 3)
            ∧ ∃ p, (p = n0 + 1 ∨ n0 + 4 ≤ p)%nat ∧ parquet_inv p σ).
Proof.
  unfold transform_data_parquet.
  eapply triple_bind with
    (R := fun v σ => v = VRef n0 ∧ σ = σ0 ++ [OList []]).
  { apply triple_new. by intros σ ->. }
  intros holdings. apply triple_pure. intros ->.
  eapply triple_bind with
    (R := fun v σ => v = VRef (n0 + 1)
                     ∧ σ = (σ0 ++ [OList []]) ++ [ODict ∅]).
  { apply triple_new. intros σ ->. split; [|done].
    rewrite length_app. simpl. done. }
  intros performance. apply triple_pure. intros ->.
  eapply triple_bind with
    (R := fun v σ =>
            v = VRef (n0 + 2)
            ∧ σ = ((σ0 ++ [OList []]) ++ [ODict ∅]) ++ [OList []]).
  { apply triple_new. intros σ ->. split; [|done].
    rewrite !length_app. simpl. f_equal. lia. }
  intros chart. apply triple_pure. intros ->.
  eapply triple_bind with
    (R := fun v σ => v = VRef (n0 + 3) ∧ parquet_inv (n0 + 1) σ).
  { apply triple_new. intros σ ->. split.
    - rewrite !length_app. simpl. f_equal. lia.
    - apply parquet_inv_init. }
  intros filtered_data. apply triple_pure. intros ->.
  eapply triple_bind; [apply triple_read_any, parquet_inv_pre|].
  intros has_holdings.
  eapply triple_bind; [apply parquet_holdings_block|].
  intros u. apply parquet_performance_block.
Qed.
End parquet.

(** *** What the output can reach *)

Lemma reachable_ref σ x b : reachable σ x b → ∃ a, x = VRef a.
Proof. induction 1; eauto. Qed.

(** If the output's root is in a set [G] of addresses and every reference
    held by an object of [G] stays in [G] or is a copied leaf, then
    everything reachable from the output is in [G] or reachable from a
    copied leaf. *)
Lemma reachable_good σ0 (keys : list string) (σ' : list obj) out
    (G : nat → Prop) :
  (∀ a, out = VRef a → G a) →
  (∀ b o c, G b → σ' !! b = Some o → holds o (VRef c) →
            G c ∨ copied_from σ0 keys (VRef c)) →
  ∀ b, reachable σ' out b →
       G b ∨ ∃ v, copied_from σ0 keys v ∧ reachable σ' v b.
Proof.
  intros Hroot Hstep b Hb.
  induction Hb as [a|x b o c Hb IH Ho Hc].
  - left. by apply Hroot.
  - destruct (IH Hroot) as [HG|(v & Hv & Hvb)].
    + destruct (Hstep b o c HG Ho Hc) as [?|Hcopied]; [by left|].
      right. exists (VRef c). split; [done | constructor].
    + right. exists v. split; [done|]. by eapply reachable_step.
Qed.

Lemma flat_at_holds σ0 keys (σ : list obj) b o c :
  flat_at σ0 keys σ b → σ !! b = Some o → holds o (VRef c) →
  copied_from σ0 keys (VRef c).
Proof.
  intros (o' & Ho' & Hflat) Ho Hc. rewrite Ho in Ho'. injection Ho' as <-.
  by apply (Hflat (VRef c) Hc c).
Qed.

Lemma holds_singleton k (v w : val) :
  holds (ODict {[ k := v ]}) w → w = v.
Proof.
  intros [k' Hk']. apply lookup_singleton_Some in Hk' as [_ <-]. done.
Qed.

Lemma holds_insert d k (v w : val) :
  holds (ODict (<[k := v]> d)) w → w = v ∨ holds (ODict d) w.
Proof.
  intros [k' Hk']. apply lookup_insert_Some in Hk' as [[_ <-]|[_ Hk']].
  - by left.
  - right. by exists k'.
Qed.

Lemma tempest_inv_reachable σ0 σ b :
  tempest_inv σ0 σ →
  reachable σ (VRef (length σ0 + 3)) b →
  (length σ0 ≤ b)%nat
  ∨ ∃ v, copied_from σ0 tempest_leaf_keys v ∧ reachable σ v b.
Proof.
  intros (Hpre & Hfd & Hf & Hcc & l & Hl & Hrec) Hb.
  pose (G := fun b : nat =>
    b = length σ0 ∨ b = (length σ0 + 1)%nat ∨ b = (length σ0 + 2)%nat
    ∨ b = (length σ0 + 3)%nat ∨ VRef b ∈ l).
  assert (HG : ∀ b, G b → (length σ0 ≤ b)%nat).
  { intros b' [->|[->|[->|[->|Hin]]]]; try lia.
    rewrite Forall_forall in Hrec.
    destruct (Hrec _ Hin) as (c & [= <-] & Hc & _). lia. }
  destruct (reachable_good σ0 tempest_leaf_keys σ
              (VRef (length σ0 + 3)) G) with (b := b)
    as [H|H]; [| |done|by left; apply HG|by right].
  - intros a [= <-]. unfold G. tauto.
  - intros b' o c [->|[->|[->|[->|Hin]]]] Ho Hc.
    + right. by eapply flat_at_holds.
    + left. rewrite Hl in Ho. injection Ho as <-. unfold G. tauto.
    + left. rewrite Hf in Ho. injection Ho as <-.
      apply holds_singleton in Hc as [= ->]. unfold G. tauto.
    + left. rewrite Hfd in Ho. injection Ho as <-.
      apply holds_insert in Hc as [[= ->]|Hc]; [unfold G; tauto|].
      apply holds_singleton in Hc as [= ->]. unfold G. tauto.
    + right. rewrite Forall_forall in Hrec.
      destruct (Hrec _ Hin) as (c' & [= <-] & _ & Hflat).
      by eapply flat_at_holds.
Qed.

Lemma parquet_inv_reachable σ0 perf perf_chart p σ b :
  (p = length σ0 + 1 ∨ length σ0 + 4 ≤ p)%nat →
  parquet_inv σ0 perf perf_chart p σ →
  reachable σ (VRef (length σ0 + 3)) b →
  (length σ0 ≤ b)%nat
  ∨ ∃ v, copied_from σ0 (parquet_leaf_keys perf perf_chart) v
         ∧ reachable σ v b.
Proof.
  intros Hp (Hpre & Hfd & Hfp & (l & Hl & Hrec) & Hc) Hb.
  pose (G := fun b : nat =>
    b = length σ0 ∨ b = p ∨ b = (length σ0 + 2)%nat
    ∨ b = (length σ0 + 3)%nat ∨ VRef b ∈ l).
  assert (HG : ∀ b, G b → (length σ0 ≤ b)%nat).
  { intros b' [->|[->|[->|[->|Hin]]]]; try lia.
    rewrite Forall_forall in Hrec.
    destruct (Hrec _ Hin) as (c & [= <-] & Hc' & _). lia. }
  destruct (reachable_good σ0 (parquet_leaf_keys perf perf_chart) σ
              (VRef (length σ0 + 3)) G)
    with (b := b) as [H|H]; [| |done|by left; apply HG|by right].
  - intros a [= <-]. unfold G. tauto.
  - intros b' o c [->|[->|[->|[->|Hin]]]] Ho Hc'.
    + left. rewrite Hl in Ho. injection Ho as <-. unfold G. tauto.
    + right. by eapply flat_at_holds; [exact Hfp | |].
    + right. by eapply flat_at_holds; [exact Hc | |].
    + left. rewrite Hfd in Ho. injection Ho as <-.
      apply holds_insert in Hc' as [[= ->]|Hc']; [unfold G; tauto|].
      apply holds_insert in Hc' as [[= ->]|Hc']; [unfold G; tauto|].
      apply holds_singleton in Hc' as [= ->]. unfold G. tauto.
    + right. rewrite Forall_forall in Hrec.
      destruct (Hrec _ Hin) as (c' & [= <-] & _ & Hflat).
      by eapply flat_at_holds.
Qed.

(** With scalar leaves nothing is reachable from a copied leaf. *)
Lemma leaves_scalar_unreachable σ0 keys (σ : list obj) v b :
  leaves_scalar σ0 keys → copied_from σ0 keys v → ¬ reachable σ v b.
Proof.
  intros Hleaf (a & d & k & Hk & Ha & Hv) Hb.
  apply reachable_ref in Hb as [c ->]. by eapply Hleaf.
Qed.

(** The weather transformer over the store: the input objects are
    unchanged, also when it raises; what it returns is a new mapping, and
    everything reachable from it is new or reachable from a copied
    leaf. *)
Lemma transform_data_tempest_store σ0 data r σ' :
  closed σ0 → value_of σ0 data →
  transform_data_tempest data σ0 = (r, σ') →
  σ0 `prefix_of` σ'
  ∧ ∀ out, r = Ok out →
      out = VRef (length σ0 + 3)
      ∧ ∀ b, reachable σ' out b →
             (length σ0 ≤ b)%nat
             ∨ ∃ v, copied_from σ0 tempest_leaf_keys v ∧ reachable σ' v b.
Proof.
  intros Hclosed Hdata Hrun.
  pose proof (transform_data_tempest_triple σ0 Hclosed data Hdata σ0 eq_refl)
    as H.
  rewrite Hrun in H. destruct r as [out|e].
  - destruct H as [-> Hinv]. split; [by destruct Hinv|].
    intros ? [= <-]. split; [done|]. intros b.
    by apply tempest_inv_reachable.
  - split; [done | discriminate].
Qed.

(** The portfolio transformer over the store, likewise. *)
Lemma transform_data_parquet_store σ0 data perf perf_chart r σ' :
  closed σ0 → value_of σ0 data →
  transform_data_parquet data perf perf_chart σ0 = (r, σ') →
  σ0 `prefix_of` σ'
  ∧ ∀ out, r = Ok out →
      out = VRef (length σ0 + 3)
      ∧ ∀ b, reachable σ' out b →
             (length σ0 ≤ b)%nat
             ∨ ∃ v, copied_from σ0 (parquet_leaf_keys perf perf_chart) v
                    ∧ reachable σ' v b.
Proof.
  intros Hclosed Hdata Hrun.
  pose proof (transform_data_parquet_triple σ0 Hclosed perf perf_chart
                data Hdata σ0 eq_refl) as H.
  rewrite Hrun in H. destruct r as [out|e].
  - destruct H as (-> & p & Hp & Hinv). split; [by destruct Hinv|].
    intros ? [= <-]. split; [done|]. intros b.
    by eapply parquet_inv_reachable.
  - split; [done | discriminate].
Qed.

Lemma holds_obj_values o v : holds o v → v ∈ obj_values o.
Proof.
  destruct o as [l|d]; simpl; [done|]. intros [k Hk].
  apply list_elem_of_fmap. exists (k, v). split; [done|].
  by apply elem_of_map_to_list.
Qed.

Lemma closedb_closed σ : closedb σ = true → closed σ.
Proof.
  unfold closedb. rewrite forallb_forall. intros H a o c Ha Hc.
  apply list_elem_of_lookup_2, list_elem_of_In, H in Ha.
  rewrite forallb_forall in Ha.
  apply holds_obj_values, list_elem_of_In, Ha in Hc.
  by apply Nat.ltb_lt in Hc.
Qed.

Lemma leaves_scalarb_leaves_scalar σ0 keys :
  leaves_scalarb σ0 keys = true → leaves_scalar σ0 keys.
Proof.
  unfold leaves_scalarb. rewrite forallb_forall. intros H a d k c Hk Ha Hd.
  apply list_elem_of_lookup_2, list_elem_of_In, H in Ha.
  rewrite forallb_forall in Ha.
  apply list_elem_of_In, Ha in Hk. by rewrite Hd in Hk.
Qed.

End HeapFacts.

(** ** The schema of the outputs, mutation and sharing *)

Lemma projected_dom perf h :
  ∃ rd : gmap string json,
    projected perf h = JDict rd
    ∧ dom rd = list_to_set [ "assetType"; "currency"; "id"; "name";
                             "priceStart"; "valueStart"; "priceNow";
                             "valueNow"; "shares"; "perf" ].
Proof.
  eexists. split; [reflexivity|].
  rewrite !dom_insert_L, dom_singleton_L. simpl.
  by rewrite (right_id_L ∅ (∪)).
Qed.




(** ** More on the request handlers *)

Lemma option_bind_Some {A B} (m : option A) (f : A → option B) b :
  (x ← m; f x) = Some b ↔ ∃ a, m = Some a ∧ f a = Some b.
Proof.
  destruct m as [a|]; simpl; split; try done.
  - intros H. by exists a.
  - by intros (a' & [= <-] & H).
  - by intros (a' & ? & _).
Qed.

Lemma literal_field_Some allowed kwargs k s :
  literal_field allowed kwargs k = Some s ↔
  str_field kwargs k = Some s ∧ s ∈ allowed.
Proof.
  unfold literal_field. rewrite option_bind_Some. split.
  - intros (t & Ht & Hs). case_bool_decide; [|done].
    injection Hs as <-. done.
  - intros [Hs Hin]. exists s. split; [done|].
    by rewrite bool_decide_eq_true_2.
Qed.

(** What a successful construction of the weather model says about the
    keyword arguments. *)
Lemma WeatherRequest_init_Some kwargs rd :
  WeatherRequest_init kwargs = Some rd ↔
    str_field kwargs "station_id" = Some (Model.station_id rd)
    ∧ (str_field kwargs "units_temp" = Some (Model.units_temp rd)
       ∧ Model.units_temp rd ∈ ["c"; "f"])
    ∧ (str_field kwargs "units_wind" = Some (Model.units_wind rd)
       ∧ Model.units_wind rd ∈ ["mph"; "kph"; "m/s"])
    ∧ (str_field kwargs "units_pressure" = Some (Model.units_pressure rd)
       ∧ Model.units_pressure rd ∈ ["mb"; "inHg"])
    ∧ (str_field kwargs "units_precip" = Some (Model.units_precip rd)
       ∧ Model.units_precip rd ∈ ["in"; "mm"])
    ∧ (str_field kwargs "units_distance" = Some (Model.units_distance rd)
       ∧ Model.units_distance rd ∈ ["mi"; "km"])
    ∧ str_field kwargs "api_key" = Some (Model.api_key rd).
Proof.
  unfold WeatherRequest_init. split.
  - intros H.
    apply option_bind_Some in H as (a1 & H1 & H).
    apply option_bind_Some in H as (a2 & H2%literal_field_Some & H).
    apply option_bind_Some in H as (a3 & H3%literal_field_Some & H).
    apply option_bind_Some in H as (a4 & H4%literal_field_Some & H).
    apply option_bind_Some in H as (a5 & H5%literal_field_Some & H).
    apply option_bind_Some in H as (a6 & H6%literal_field_Some & H).
    apply option_bind_Some in H as (a7 & H7 & H).
    injection H as <-. simpl. tauto.
  - destruct rd as [a1 a2 a3 a4 a5 a6 a7]. simpl.
    intros (H1 & H2%literal_field_Some & H3%literal_field_Some
            & H4%literal_field_Some & H5%literal_field_Some
            & H6%literal_field_Some & H7).
    rewrite H1. simpl. rewrite H2. simpl. rewrite H3. simpl.
    rewrite H4. simpl. rewrite H5. simpl. rewrite H6. simpl.
    rewrite H7. done.
Qed.

(** Likewise for the portfolio model. *)
Lemma PortfolioRequest_init_Some kwargs rd :
  PortfolioRequest_init kwargs = Some rd ↔
    str_field kwargs "id" = Some (Model.id rd)
    ∧ (str_field kwargs "timeframe" = Some (Model.timeframe rd)
       ∧ Model.timeframe rd
         ∈ ["today"; "1d"; "1w"; "1m"; "3m"; "6m"; "1y"; "5y"; "10y";
            "mtd"; "ytd"; "max"])
    ∧ (str_field kwargs "perf" = Some (Model.perf rd)
       ∧ Model.perf rd
         ∈ ["returnGross"; "returnNet"; "totalReturnGross";
            "totalReturnNet"; "ttwror"; "izf"])
    ∧ (str_field kwargs "perfChart" = Some (Model.perfChart rd)
       ∧ Model.perfChart rd
         ∈ ["perfHistory"; "perfHistoryUnrealized"; "ttwror"; "drawdown"]).
Proof.
  unfold PortfolioRequest_init. split.
  - intros H.
    apply option_bind_Some in H as (a1 & H1 & H).
    apply option_bind_Some in H as (a2 & H2%literal_field_Some & H).
    apply option_bind_Some in H as (a3 & H3%literal_field_Some & H).
    apply option_bind_Some in H as (a4 & H4%literal_field_Some & H).
    injection H as <-. simpl. tauto.
  - destruct rd as [a1 a2 a3 a4]. simpl.
    intros (H1 & H2%literal_field_Some & H3%literal_field_Some
            & H4%literal_field_Some).
    rewrite H1. simpl. rewrite H2. simpl. rewrite H3. simpl.
    rewrite H4. done.
Qed.

(** A keyword argument built from a query parameter is a string exactly
    when the parameter is present. *)
Lemma str_field_kwargs_of args k :
  NoDup args.*1 →
  str_field (kwargs_of args) k
  = mjoin ((list_to_map args : gmap string (option string)) !! k).
Proof.
  unfold kwargs_of, str_field. induction args as [|[k' v] args IH]; simpl.
  - intros _. by rewrite !lookup_empty.
  - intros [Hnotin Hnd]%NoDup_cons.
    destruct (decide (k' = k)) as [->|Hne].
    + rewrite !lookup_insert_eq. by destruct v.
    + rewrite !lookup_insert_ne by done. by apply IH.
Qed.

Lemma str_field_fmap_JStr (q : gmap string string) k :
  str_field (JStr <$> q) k = q !! k.
Proof. unfold str_field. rewrite lookup_fmap. by destruct (q !! k). Qed.

Lemma kwargs_field args k v :
  NoDup args.*1 → (k, v) ∈ args → str_field (kwargs_of args) k = v.
Proof.
  intros Hnd Hin. rewrite str_field_kwargs_of by done.
  by rewrite (elem_of_list_to_map_1 _ _ _ Hnd Hin).
Qed.

(** Closes a goal [str_field (kwargs_of args) k = v] for a literal list
    of arguments. *)
Ltac kwargs_field :=
  apply kwargs_field;
  [ apply (bool_decide_unpack _); by vm_compute
  | apply list_elem_of_In; simpl; tauto ].

Lemma weather_kwargs_fields (v1 v2 v3 v4 v5 v6 v7 : option string) :
  let kwargs := kwargs_of [("station_id", v1); ("units_temp", v2);
                           ("units_wind", v3); ("units_pressure", v4);
                           ("units_precip", v5); ("units_distance", v6);
                           ("api_key", v7)] in
  str_field kwargs "station_id" = v1
  ∧ str_field kwargs "units_temp" = v2
  ∧ str_field kwargs "units_wind" = v3
  ∧ str_field kwargs "units_pressure" = v4
  ∧ str_field kwargs "units_precip" = v5
  ∧ str_field kwargs "units_distance" = v6
  ∧ str_field kwargs "api_key" = v7.
Proof. intros kwargs. subst kwargs. repeat split; kwargs_field. Qed.

Lemma portfolio_kwargs_fields (v1 v2 v3 v4 : option string) :
  let kwargs := kwargs_of [("id", v1); ("timeframe", v2); ("perf", v3);
                           ("perfChart", v4)] in
  str_field kwargs "id" = v1
  ∧ str_field kwargs "timeframe" = v2
  ∧ str_field kwargs "perf" = v3
  ∧ str_field kwargs "perfChart" = v4.
Proof. intros kwargs. subst kwargs. repeat split; kwargs_field. Qed.

(** The request descriptor of the weather route holds what the client
    sent, parameter by parameter, and its enumerated fields hold allowed
    values. *)
Lemma tempest_request_data_Return request rd :
  tempest_request_data request = Return rd →
  client_param request "station_id" = Some (Model.station_id rd)
  ∧ (client_param request "units_temp" = Some (Model.units_temp rd)
     ∧ Model.units_temp rd ∈ ["c"; "f"])
  ∧ (client_param request "units_wind" = Some (Model.units_wind rd)
     ∧ Model.units_wind rd ∈ ["mph"; "kph"; "m/s"])
  ∧ (client_param request "units_pressure" = Some (Model.units_pressure rd)
     ∧ Model.units_pressure rd ∈ ["mb"; "inHg"])
  ∧ (client_param request "units_precip" = Some (Model.units_precip rd)
     ∧ Model.units_precip rd ∈ ["in"; "mm"])
  ∧ (client_param request "units_distance" = Some (Model.units_distance rd)
     ∧ Model.units_distance rd ∈ ["mi"; "km"])
  ∧ client_param request "api_key" = Some (Model.api_key rd).
Proof.
  unfold tempest_request_data, client_param.
  destruct (String.eqb (method request) "GET").
  - destruct (negb _); [discriminate|].
    destruct (WeatherRequest_init _) as [rd'|] eqn:Hinit; [|discriminate].
    intros [= ->]. apply WeatherRequest_init_Some in Hinit.
    destruct (weather_kwargs_fields
                (query_params request !! "station_id")
                (query_params request !! "units_temp")
                (query_params request !! "units_wind")
                (query_params request !! "units_pressure")
                (query_params request !! "units_precip")
                (query_params request !! "units_distance")
                (query_params request !! "api_key"))
      as (E1 & E2 & E3 & E4 & E5 & E6 & E7).
    rewrite E1, E2, E3, E4, E5, E6, E7 in Hinit. exact Hinit.
  - destruct (String.eqb (method request) "POST"); [|discriminate].
    destruct (request_json request) as [[| | | | | |body]|];
      try discriminate.
    destruct (WeatherRequest_init body) as [rd'|] eqn:Hinit;
      [|discriminate].
    intros [= ->]. by apply WeatherRequest_init_Some in Hinit.
Qed.

Lemma parquet_request_data_Return request rd :
  parquet_request_data request = Return rd →
  client_param request "id" = Some (Model.id rd)
  ∧ (client_param request "timeframe" = Some (Model.timeframe rd)
     ∧ Model.timeframe rd
       ∈ ["today"; "1d"; "1w"; "1m"; "3m"; "6m"; "1y"; "5y"; "10y";
          "mtd"; "ytd"; "max"])
  ∧ (client_param request "perf" = Some (Model.perf rd)
     ∧ Model.perf rd
       ∈ ["returnGross"; "returnNet"; "totalReturnGross"; "totalReturnNet";
          "ttwror"; "izf"])
  ∧ (client_param request "perfChart" = Some (Model.perfChart rd)
     ∧ Model.perfChart rd
       ∈ ["perfHistory"; "perfHistoryUnrealized"; "ttwror"; "drawdown"]).
Proof.
  unfold parquet_request_data, client_param.
  destruct (String.eqb (method request) "GET").
  - destruct (_ || _); [discriminate|].
    destruct (PortfolioRequest_init _) as [rd'|] eqn:Hinit; [|discriminate].
    intros [= ->]. apply PortfolioRequest_init_Some in Hinit.
    destruct (portfolio_kwargs_fields
                (query_params request !! "id")
                (query_params request !! "timeframe")
                (query_params request !! "perf")
                (query_params request !! "perfChart"))
      as (E1 & E2 & E3 & E4).
    rewrite E1, E2, E3, E4 in Hinit. exact Hinit.
  - destruct (String.eqb (method request) "POST"); [|discriminate].
    destruct (request_json request) as [[| | | | | |body]|];
      try discriminate.
    destruct (PortfolioRequest_init body) as [rd'|] eqn:Hinit;
      [|discriminate].
    intros [= ->]. by apply PortfolioRequest_init_Some in Hinit.
Qed.

(** A handler that raises while building the request descriptor raises
    400, or lets the validation error of the GET path escape. *)
Lemma tempest_request_data_Raises request e :
  tempest_request_data request = Raises e →
  (∃ detail, e = HTTPException 400 detail)
  ∨ (e = ValidationError ∧ method request = "GET"
     ∧ ∀ k, k ∈ weather_params →
            param_truthy (query_params request !! k) = true).
Proof.
  unfold tempest_request_data.
  destruct (String.eqb_spec (method request) "GET") as [Hm|Hm].
  - destruct (forallb _ _) eqn:Hall; simpl; [|intros [= <-]; eauto].
    destruct (WeatherRequest_init _); [discriminate|].
    intros [= <-]. right. split; [done|]. split; [done|].
    intros k Hk. rewrite forallb_forall in Hall. apply Hall.
    apply list_elem_of_In in Hk. simpl in Hk. simpl.
    intuition (subst; tauto).
  - destruct (String.eqb (method request) "POST").
    + destruct (request_json request) as [[| | | | | |body]|];
        try (intros [= <-]; eauto).
      destruct (WeatherRequest_init body); [discriminate|].
      intros [= <-]; eauto.
    + intros [= <-]; eauto.
Qed.

Lemma parquet_request_data_Raises request e :
  parquet_request_data request = Raises e →
  (∃ detail, e = HTTPException 400 detail)
  ∨ (e = ValidationError ∧ method request = "GET"
     ∧ ∀ k, k ∈ portfolio_params →
            param_truthy (query_params request !! k) = true).
Proof.
  unfold parquet_request_data.
  destruct (String.eqb_spec (method request) "GET") as [Hm|Hm].
  - destruct (_ || _) eqn:Hall; [intros [= <-]; eauto|].
    destruct (PortfolioRequest_init _); [discriminate|].
    intros [= <-]. right. split; [done|]. split; [done|].
    rewrite !orb_false_iff, !negb_false_iff in Hall.
    intros k Hk. apply list_elem_of_In in Hk. simpl in Hk.
    intuition (subst; tauto).
  - destruct (String.eqb (method request) "POST").
    + destruct (request_json request) as [[| | | | | |body]|];
        try (intros [= <-]; eauto).
      destruct (PortfolioRequest_init body); [discriminate|].
      intros [= <-]; eauto.
    + intros [= <-]; eauto.
Qed.

(** Looks a literal key up in a literal map with symbolic values. *)
Ltac lookup_literal :=
  repeat (rewrite lookup_insert_ne by done);
  first [ rewrite lookup_insert_eq | rewrite lookup_singleton_eq ].

(** X1.  When the weather handler is called with a GET or a POST request,
    the two methods its route is registered for, and the request lacks one
    of the seven required parameters (a GET request without the query
    parameter, a POST request whose body lacks the string field), the
    handler raises an [HTTPException] with status 400 and makes no call to
    the upstream service. *)
Theorem tempest_rejects_missing_parameter upstream request k :
  method request ∈ route_methods →
  k ∈ weather_params → client_param request k = None →
  ∃ detail,
    proxy_request_tempest upstream request
    = ([], Raises (HTTPException 400 detail)).
Proof.
  intros _ Hk Hnone. unfold proxy_request_tempest.
  destruct (tempest_request_data request) as [rd|e] eqn:Hrd.
  - apply tempest_request_data_Return in Hrd
      as (H1 & [H2 _] & [H3 _] & [H4 _] & [H5 _] & [H6 _] & H7).
    apply list_elem_of_In in Hk. simpl in Hk.
    destruct Hk as [<-|[<-|[<-|[<-|[<-|[<-|[<-|[]]]]]]]]; congruence.
  - apply tempest_request_data_Raises in Hrd
      as [[detail ->]|(-> & Hm & Hall)]; [by exists detail|].
    specialize (Hall k Hk). unfold client_param in Hnone.
    rewrite Hm in Hnone. simpl in Hnone. by rewrite Hnone in Hall.
Qed.

Lemma tempest_rejects_missing_parameter_witness :
  ∃ detail,
    proxy_request_tempest (upstream_responding 200 "" None)
                          get_without_parameters
    = ([], Raises (HTTPException 400 detail)).
Proof.
  apply (tempest_rejects_missing_parameter _ _ "api_key").
  - apply list_elem_of_In. simpl. tauto.
  - apply list_elem_of_In. simpl. tauto.
  - reflexivity.
Defined.

(** X2.  When the portfolio handler is called with a GET or a POST
    request, the two methods its route is registered for, and the request
    lacks one of the four required parameters, the handler raises an
    [HTTPException] with status 400 and makes no call to the upstream
    service. *)
Theorem parquet_rejects_missing_parameter upstream request k :
  method request ∈ route_methods →
  k ∈ portfolio_params → client_param request k = None →
  ∃ detail,
    proxy_request_parquet upstream request
    = ([], Raises (HTTPException 400 detail)).
Proof.
  intros _ Hk Hnone. unfold proxy_request_parquet.
  destruct (parquet_request_data request) as [rd|e] eqn:Hrd.
  - apply parquet_request_data_Return in Hrd
      as (H1 & [H2 _] & [H3 _] & [H4 _]).
    apply list_elem_of_In in Hk. simpl in Hk.
    destruct Hk as [<-|[<-|[<-|[<-|[]]]]]; congruence.
  - apply parquet_request_data_Raises in Hrd
      as [[detail ->]|(-> & Hm & Hall)]; [by exists detail|].
    specialize (Hall k Hk). unfold client_param in Hnone.
    rewrite Hm in Hnone. simpl in Hnone. by rewrite Hnone in Hall.
Qed.

Lemma parquet_rejects_missing_parameter_witness :
  ∃ detail,
    proxy_request_parquet (upstream_responding 200 "" None)
                          get_without_parameters
    = ([], Raises (HTTPException 400 detail)).
Proof.
  apply (parquet_rejects_missing_parameter _ _ "perfChart").
  - apply list_elem_of_In. simpl. tauto.
  - apply list_elem_of_In. simpl. tauto.
  - reflexivity.
Defined.

(** X3.  When the weather handler calls the upstream service, it makes
    exactly one call, a GET to the fixed weather endpoint, whose
    parameters are exactly the seven required ones, each with the value
    the client sent; the enumerated ones hold allowed values. *)
Theorem tempest_forwards_client_parameters upstream request call calls :
  (proxy_request_tempest upstream request).1 = call :: calls →
  calls = []
  ∧ ∃ params : gmap string string,
      call = HttpGet WEATHER_API_BASE params
      ∧ dom params = list_to_set weather_params
      ∧ (∀ k, k ∈ weather_params → params !! k = client_param request k)
      ∧ Forall (fun enum => ∃ v, params !! enum.1 = Some v ∧ v ∈ enum.2)
               weather_enums.
Proof.
  unfold proxy_request_tempest.
  destruct (tempest_request_data request) as [rd|e] eqn:Hrd;
    [|discriminate].
  apply tempest_request_data_Return in Hrd
    as (H1 & [H2 E2] & [H3 E3] & [H4 E4] & [H5 E5] & [H6 E6] & H7).
  simpl. intros [= <- <-]. split; [done|]. eexists. split; [reflexivity|].
  split; [|split].
  - rewrite !dom_insert_L, dom_singleton_L. simpl.
    by rewrite (right_id_L ∅ (∪)).
  - intros k Hk. apply list_elem_of_In in Hk. simpl in Hk.
    destruct Hk as [<-|[<-|[<-|[<-|[<-|[<-|[<-|[]]]]]]]];
      lookup_literal; congruence.
  - repeat constructor; simpl; eexists; (split; [lookup_literal; done|]);
      done.
Qed.

Lemma tempest_forwards_client_parameters_witness :
  ∃ params : gmap string string,
    (proxy_request_tempest (upstream_responding 200 "" None)
                           tempest_get_ok).1
    = [HttpGet WEATHER_API_BASE params]
    ∧ params !! "units_temp" = Some "c".
Proof.
  destruct (tempest_forwards_client_parameters
              (upstream_responding 200 "" None) tempest_get_ok
              (HttpGet WEATHER_API_BASE (query_params tempest_get_ok)) [])
    as (_ & params & Hcall & _ & Hk & _); [by vm_compute|].
  exists params. split.
  - rewrite <- Hcall. by vm_compute.
  - rewrite Hk; [reflexivity|]. apply list_elem_of_In. simpl. tauto.
Defined.

(** X4.  Once the weather handler has called the upstream service, an
    answer with a status outside 200..299 is surfaced with that status
    and with the upstream body text, prefixed by "Weather API error: ", as
    detail; a connection failure or timeout is surfaced as HTTP 502 with
    the detail "Proxy error: " followed by the failure's message. *)
Theorem tempest_surfaces_upstream_errors upstream request call :
  (proxy_request_tempest upstream request).1 = [call] →
  (∀ status_code text parsed,
     upstream call = Responded status_code text parsed →
     is_success status_code = false →
     (proxy_request_tempest upstream request).2
     = Raises (HTTPException status_code ("Weather API error: " +:+ text)))
  ∧ (∀ message,
       upstream call = RequestFailed message →
       (proxy_request_tempest upstream request).2
       = Raises (HTTPException 502 ("Proxy error: " +:+ message))).
Proof.
  unfold proxy_request_tempest, fetch_weather_data.
  destruct (tempest_request_data request) as [rd|e]; [|discriminate].
  simpl. intros [= <-]. split.
  - intros status_code text parsed -> ->. done.
  - intros message ->. done.
Qed.

Lemma tempest_surfaces_upstream_errors_witness :
  (proxy_request_tempest (upstream_responding 404 "no such station" None)
                         tempest_get_ok).2
  = Raises (HTTPException 404 "Weather API error: no such station").
Proof.
  destruct (tempest_surfaces_upstream_errors
              (upstream_responding 404 "no such station" None)
              tempest_get_ok
              (HttpGet WEATHER_API_BASE (query_params tempest_get_ok)))
    as [Hstatus _]; [by vm_compute|].
  exact (Hstatus 404%Z "no such station" None eq_refl eq_refl).
Defined.

(** X5.  Once the weather handler has called the upstream service and got
    an answer with a status in 200..299: a body that is not JSON makes
    the handler fail with an exception that is no [HTTPException] (HTTP
    500); a JSON body is handed to the transformer, whose result the
    handler returns and whose exception escapes the handler (HTTP 500);
    on a well-shaped body the handler returns the transformed payload.
    What the handler returns is then rendered by the framework, which
    this statement does not cover. *)
Theorem tempest_answers_upstream_success
    upstream request call status_code text parsed :
  (proxy_request_tempest upstream request).1 = [call] →
  upstream call = Responded status_code text parsed →
  is_success status_code = true →
  (proxy_request_tempest upstream request).2
  = match parsed with
    | Some raw_data => returned (transform_data_tempest raw_data)
    | None => Raises JSONDecodeError
    end
  ∧ (parsed = None →
     status_of (proxy_request_tempest upstream request).2 = 500%Z)
  ∧ (∀ raw_data e,
       parsed = Some raw_data →
       transform_data_tempest raw_data = Raise e →
       status_of (proxy_request_tempest upstream request).2 = 500%Z)
  ∧ (∀ raw_data,
       parsed = Some raw_data → wf_weather raw_data = true →
       ∃ filtered,
         transform_data_tempest raw_data = Ok filtered
         ∧ (proxy_request_tempest upstream request).2 = Return filtered).
Proof.
  unfold proxy_request_tempest, fetch_weather_data.
  destruct (tempest_request_data request) as [rd|e]; [|discriminate].
  simpl. intros [= <-] -> ->. split; [|split; [|split]].
  - by destruct parsed as [raw|]; [destruct (transform_data_tempest raw)|].
  - by intros ->.
  - intros raw e -> ->. done.
  - intros raw -> Hwf.
    destruct (transform_data_tempest_wf _ Hwf) as [filtered Hf].
    exists filtered. by rewrite Hf.
Qed.

Lemma tempest_answers_upstream_success_witness :
  ∃ filtered,
    transform_data_tempest weather_sample = Ok filtered
    ∧ (proxy_request_tempest
         (upstream_responding 200 "" (Some weather_sample))
         tempest_get_ok).2
      = Return filtered.
Proof.
  destruct (tempest_answers_upstream_success
              (upstream_responding 200 "" (Some weather_sample))
              tempest_get_ok
              (HttpGet WEATHER_API_BASE (query_params tempest_get_ok))
              200%Z "" (Some weather_sample))
    as (_ & _ & _ & Hwf); [by vm_compute | reflexivity | reflexivity |].
  exact (Hwf weather_sample eq_refl eq_refl).
Defined.

(** X6.  When the portfolio handler calls the upstream service, it makes
    exactly one call, a POST to the fixed portfolio endpoint, whose JSON
    payload is [{portfolioIds: [id], holdingIds: [], assetTypes: [],
    timeframe}] with the [id] and the [timeframe] the client sent; the
    time frame is one of the allowed values, and [perf] and [perfChart]
    are not sent upstream. *)
Theorem parquet_forwards_id_and_timeframe upstream request call calls :
  (proxy_request_parquet upstream request).1 = call :: calls →
  calls = []
  ∧ ∃ id timeframe,
      client_param request "id" = Some id
      ∧ client_param request "timeframe" = Some timeframe
      ∧ timeframe ∈ ["today"; "1d"; "1w"; "1m"; "3m"; "6m"; "1y"; "5y";
                     "10y"; "mtd"; "ytd"; "max"]
      ∧ call = HttpPost PARQET_API_BASE
                 (JDict {[ "portfolioIds" := JList [JStr id];
                           "holdingIds" := JList [];
                           "assetTypes" := JList [];
                           "timeframe" := JStr timeframe ]}).
Proof.
  unfold proxy_request_parquet.
  destruct (parquet_request_data request) as [rd|e] eqn:Hrd;
    [|discriminate].
  apply parquet_request_data_Return in Hrd as (H1 & [H2 E2] & _).
  simpl. intros [= <- <-]. split; [done|].
  exists (Model.id rd), (Model.timeframe rd). done.
Qed.

Lemma parquet_forwards_id_and_timeframe_witness :
  (proxy_request_parquet (upstream_responding 200 "" None)
                         parquet_get_ok).1
  = [HttpPost PARQET_API_BASE
       (JDict {[ "portfolioIds" := JList [JStr "p1"];
                 "holdingIds" := JList [];
                 "assetTypes" := JList [];
                 "timeframe" := JStr "1y" ]})].
Proof.
  destruct (parquet_forwards_id_and_timeframe
              (upstream_responding 200 "" None) parquet_get_ok
              (HttpPost PARQET_API_BASE
                 (JDict {[ "portfolioIds" := JList [JStr "p1"];
                           "holdingIds" := JList [];
                           "assetTypes" := JList [];
                           "timeframe" := JStr "1y" ]})) [])
    as (_ & id & timeframe & _ & _ & _ & _); by vm_compute.
Defined.

(** X7.  Once the portfolio handler has called the upstream service: an
    answer with a status outside 200..299 is surfaced with that status
    and the detail "Parqet API error: " followed by the upstream body
    text; a connection failure is surfaced as HTTP 502; and a JSON answer
    with a status in 200..299 is transformed with the [perf] and the
    [perfChart] the client sent, both among the allowed values. *)
Theorem parquet_outcome_after_call upstream request call :
  (proxy_request_parquet upstream request).1 = [call] →
  (∀ status_code text parsed,
     upstream call = Responded status_code text parsed →
     is_success status_code = false →
     (proxy_request_parquet upstream request).2
     = Raises (HTTPException status_code ("Parqet API error: " +:+ text)))
  ∧ (∀ message,
       upstream call = RequestFailed message →
       (proxy_request_parquet upstream request).2
       = Raises (HTTPException 502 ("Proxy error: " +:+ message)))
  ∧ (∀ status_code text raw_data,
       upstream call = Responded status_code text (Some raw_data) →
       is_success status_code = true →
       ∃ perf perf_chart,
         client_param request "perf" = Some perf
         ∧ perf ∈ ["returnGross"; "returnNet"; "totalReturnGross";
                   "totalReturnNet"; "ttwror"; "izf"]
         ∧ client_param request "perfChart" = Some perf_chart
         ∧ perf_chart ∈ ["perfHistory"; "perfHistoryUnrealized"; "ttwror";
                         "drawdown"]
         ∧ (proxy_request_parquet upstream request).2
           = returned (transform_data_parquet raw_data perf perf_chart)).
Proof.
  unfold proxy_request_parquet, fetch_parqet_data.
  destruct (parquet_request_data request) as [rd|e] eqn:Hrd;
    [|discriminate].
  apply parquet_request_data_Return in Hrd
    as (_ & _ & [H3 E3] & [H4 E4]).
  simpl. intros [= <-]. split; [|split].
  - intros status_code text parsed -> ->. done.
  - intros message ->. done.
  - intros status_code text raw -> ->.
    exists (Model.perf rd), (Model.perfChart rd).
    repeat (split; [done|]).
    by destruct (transform_data_parquet _ _ _).
Qed.

Lemma parquet_outcome_after_call_witness :
  (proxy_request_parquet
     (upstream_responding 503 "maintenance" None) parquet_get_ok).2
  = Raises (HTTPException 503 "Parqet API error: maintenance").
Proof.
  destruct (parquet_outcome_after_call
              (upstream_responding 503 "maintenance" None) parquet_get_ok
              (HttpPost PARQET_API_BASE
                 (JDict {[ "portfolioIds" := JList [JStr "p1"];
                           "holdingIds" := JList [];
                           "assetTypes" := JList [];
                           "timeframe" := JStr "1y" ]})))
    as [Hstatus _]; [by vm_compute|].
  exact (Hstatus 503%Z "maintenance" None eq_refl eq_refl).
Defined.

Lemma tempest_request_data_as_post request rd :
  method request = "GET" →
  tempest_request_data request = Return rd →
  tempest_request_data (as_post request) = Return rd.
Proof.
  intros Hm H. apply tempest_request_data_Return in H.
  unfold client_param in H. rewrite Hm in H. simpl in H.
  unfold tempest_request_data, as_post. simpl.
  assert (WeatherRequest_init (JStr <$> query_params request) = Some rd)
    as ->; [|done].
  apply WeatherRequest_init_Some. rewrite !str_field_fmap_JStr. exact H.
Qed.

Lemma parquet_request_data_as_post request rd :
  method request = "GET" →
  parquet_request_data request = Return rd →
  parquet_request_data (as_post request) = Return rd.
Proof.
  intros Hm H. apply parquet_request_data_Return in H.
  unfold client_param in H. rewrite Hm in H. simpl in H.
  unfold parquet_request_data, as_post. simpl.
  assert (PortfolioRequest_init (JStr <$> query_params request) = Some rd)
    as ->; [|done].
  apply PortfolioRequest_init_Some. rewrite !str_field_fmap_JStr. exact H.
Qed.

(** X8.  A GET request that gets as far as the upstream call is treated
    exactly like the POST request carrying the same parameters as its JSON
    body: same upstream call, same answer.  This holds on both routes. *)
Theorem get_and_post_agree upstream request :
  method request = "GET" →
  ((proxy_request_tempest upstream request).1 ≠ [] →
   proxy_request_tempest upstream (as_post request)
   = proxy_request_tempest upstream request)
  ∧ ((proxy_request_parquet upstream request).1 ≠ [] →
     proxy_request_parquet upstream (as_post request)
     = proxy_request_parquet upstream request).
Proof.
  intros Hm. split.
  - unfold proxy_request_tempest.
    destruct (tempest_request_data request) as [rd|e] eqn:Hrd; [|done].
    intros _. by rewrite (tempest_request_data_as_post _ _ Hm Hrd).
  - unfold proxy_request_parquet.
    destruct (parquet_request_data request) as [rd|e] eqn:Hrd; [|done].
    intros _. by rewrite (parquet_request_data_as_post _ _ Hm Hrd).
Qed.

Lemma get_and_post_agree_witness :
  proxy_request_tempest (upstream_responding 200 "" (Some weather_sample))
                        (as_post tempest_get_ok)
  = proxy_request_tempest (upstream_responding 200 "" (Some weather_sample))
                          tempest_get_ok.
Proof.
  destruct (get_and_post_agree
              (upstream_responding 200 "" (Some weather_sample))
              tempest_get_ok eq_refl) as [Htempest _].
  apply Htempest. by vm_compute.
Defined.

(** X9.  When a handler, called with a GET or a POST request, raises an
    [HTTPException], then either its status is 400 and no call was made
    to the upstream service, or the handler made exactly one call and the
    status is 502 after a failed call, or else the status of the
    upstream's answer, which lies outside 200..299.  A handler raises no
    [HTTPException] with any other status, and none with status 400 after
    an upstream call unless the upstream answered 400.  This holds on both
    routes. *)
Theorem handler_http_exceptions upstream request calls status_code detail :
  method request ∈ route_methods →
  proxy_request_tempest upstream request
  = (calls, Raises (HTTPException status_code detail))
  ∨ proxy_request_parquet upstream request
    = (calls, Raises (HTTPException status_code detail)) →
  (status_code = 400%Z ∧ calls = [])
  ∨ ∃ call,
      calls = [call]
      ∧ ((∃ message,
            upstream call = RequestFailed message ∧ status_code = 502%Z)
         ∨ (∃ text parsed,
              upstream call = Responded status_code text parsed
              ∧ is_success status_code = false)).
Proof.
  intros _ [H|H].
  - unfold proxy_request_tempest, fetch_weather_data in H.
    destruct (tempest_request_data request) as [rd|e] eqn:Hrd.
    + simpl in H. right. eexists. injection H as <- H.
      split; [reflexivity|].
      destruct (upstream _) as [status text parsed|message] eqn:Hup.
      * destruct (is_success status) eqn:Hs.
        -- destruct parsed as [raw|]; [|discriminate].
           by destruct (transform_data_tempest raw).
        -- injection H as -> _. right. by exists text, parsed.
      * injection H as <- _. left. by exists message.
    + injection H as <- ->. left.
      apply tempest_request_data_Raises in Hrd
        as [[detail' [= <- _]]|([=] & _)]. done.
  - unfold proxy_request_parquet, fetch_parqet_data in H.
    destruct (parquet_request_data request) as [rd|e] eqn:Hrd.
    + simpl in H. right. eexists. injection H as <- H.
      split; [reflexivity|].
      destruct (upstream _) as [status text parsed|message] eqn:Hup.
      * destruct (is_success status) eqn:Hs.
        -- destruct parsed as [raw|]; [|discriminate].
           by destruct (transform_data_parquet raw _ _).
        -- injection H as -> _. right. by exists text, parsed.
      * injection H as <- _. left. by exists message.
    + injection H as <- ->. left.
      apply parquet_request_data_Raises in Hrd
        as [[detail' [= <- _]]|([=] & _)]. done.
Qed.

Lemma handler_http_exceptions_witness :
  (404 = 400 ∧ [HttpGet WEATHER_API_BASE (query_params tempest_get_ok)] = [])%Z
  ∨ ∃ call,
      [HttpGet WEATHER_API_BASE (query_params tempest_get_ok)] = [call]
      ∧ ((∃ message,
            upstream_responding 404 "no such station" None call
            = RequestFailed message ∧ 404%Z = 502%Z)
         ∨ (∃ text parsed,
              upstream_responding 404 "no such station" None call
              = Responded 404 text parsed
              ∧ is_success 404 = false)).
Proof.
  apply (handler_http_exceptions
           (upstream_responding 404 "no such station" None) tempest_get_ok
           [HttpGet WEATHER_API_BASE (query_params tempest_get_ok)]
           404%Z "Weather API error: no such station").
  - apply list_elem_of_In. simpl. tauto.
  - left. by vm_compute.
Defined.

(** ** More on the transformers *)

Lemma bind_Raise {A B} (m : result A) (f : A → result B) e :
  (x ← m; f x) = Raise e ↔ m = Raise e ∨ ∃ a, m = Ok a ∧ f a = Raise e.
Proof.
  destruct m as [a|e']; simpl; split.
  - intros H. right. by exists a.
  - by intros [?|(a' & [= <-] & H)].
  - intros [= <-]. by left.
  - intros [H|(a' & H & _)]; [by injection H as -> | discriminate].
Qed.

Lemma for_each_Raise {A S} (body : S → A → result S) l s e :
  for_each body l s = Raise e → ∃ s' x, x ∈ l ∧ body s' x = Raise e.
Proof.
  revert s. induction l as [|x l IH]; intros s; simpl; [done|].
  intros [H|(s' & _ & H)]%bind_Raise.
  - exists s, x. split; [left | done].
  - destruct (IH _ H) as (s'' & y & Hy & Hbody).
    exists s'', y. split; [by right | done].
Qed.

Lemma py_get_Raise x k dflt e : py_get x k dflt = Raise e → e = AttributeError.
Proof. destruct x; simpl; congruence. Qed.

Lemma py_lower_Raise x e : py_lower x = Raise e → e = AttributeError.
Proof. destruct x; simpl; congruence. Qed.

Lemma py_contains_Raise k x e : py_contains k x = Raise e → e = TypeError.
Proof. destruct x; simpl; congruence. Qed.

Lemma py_iter_Raise x e : py_iter x = Raise e → e = TypeError.
Proof. destruct x; simpl; congruence. Qed.

Lemma py_slice4_Raise x e :
  py_slice4 x = Raise e →
  e = TypeError ∨ (e = SliceAsKey ∧ is_dict x = true).
Proof. destruct x; simpl; intros [= <-]; auto. Qed.

Lemma py_getitem_Ok x k v : py_getitem x k = Ok v → field x k = Some v.
Proof.
  destruct x as [| | | | | |d]; simpl; try discriminate.
  by destruct (d !! k); intros [= <-].
Qed.

(** After a successful [k in x], [x[k]] can only fail on a value that is
    no mapping. *)
Lemma contains_getitem_Raise k x e :
  py_contains k x = Ok true → py_getitem x k = Raise e → e = TypeError.
Proof.
  destruct x as [| | | | | |d]; simpl; try congruence.
  intros [= Hk]. apply bool_decide_eq_true in Hk as [v Hv]. by rewrite Hv.
Qed.

Lemma get_perf_chart_Raise c perf_chart e :
  get_perf_chart c perf_chart = Raise e → e = AttributeError.
Proof.
  unfold get_perf_chart.
  intros [H|(v & _ & H)]%bind_Raise; by apply py_get_Raise in H.
Qed.

Lemma copy_fields_Raise keys x target e :
  copy_fields keys x target = Raise e → e = AttributeError.
Proof.
  intros (acc & k & _ & H)%for_each_Raise.
  apply bind_Raise in H as [H|(v & _ & H)]; [|done].
  by apply py_get_Raise in H.
Qed.

Lemma filtered_daily_Raise x e :
  filtered_daily x = Raise e → e = AttributeError.
Proof.
  unfold filtered_daily. intros [H|(d & _ & H)]%bind_Raise; [|done].
  by apply copy_fields_Raise in H.
Qed.

(** Peels one read off a failing run of [filter_holding]. *)
Ltac raise_get H :=
  apply bind_Raise in H as [H|(? & _ & H)];
  [ first [ by apply py_get_Raise in H | by apply py_lower_Raise in H ] |].

Lemma filter_holding_Raise holding perf e :
  filter_holding holding perf = Raise e → e = AttributeError.
Proof.
  unfold filter_holding, get_perf. intros H. do 2 raise_get H.
  destruct (negb _); [done|]. do 4 raise_get H.
  destruct (_ || _); [done|]. do 16 raise_get H.
  apply bind_Raise in H as [H|(? & _ & H)]; [|done].
  by apply py_get_Raise in H.
Qed.

Lemma tempest_current_conditions_Raise data e :
  tempest_current_conditions data = Raise e →
  e = AttributeError ∨ e = TypeError.
Proof.
  unfold tempest_current_conditions.
  intros [H|([|] & Hc & H)]%bind_Raise.
  - right. by apply py_contains_Raise in H.
  - apply bind_Raise in H as [H|(v & _ & H)].
    + right. by eapply contains_getitem_Raise.
    + left. by apply copy_fields_Raise in H.
  - done.
Qed.

Lemma tempest_daily_Raise data e :
  tempest_daily data = Raise e →
  e = AttributeError ∨ e = TypeError
  ∨ (e = SliceAsKey ∧ ∃ d, forecast_daily data = Some (JDict d)).
Proof.
  unfold tempest_daily.
  intros [H|(has_forecast & Hforecast & H)]%bind_Raise.
  { right. left. by apply py_contains_Raise in H. }
  apply bind_Raise in H as [H|(has_daily & Hdaily & H)].
  { right. left. destruct has_forecast; [|done].
    apply bind_Raise in H as [H|(f & _ & H)].
    - by eapply contains_getitem_Raise.
    - by apply py_contains_Raise in H. }
  destruct has_daily; [|done].
  destruct has_forecast; [|done].
  apply bind_Ok in Hdaily as (f & Hf & Hdaily).
  rewrite Hf in H. simpl in H.
  apply bind_Raise in H as [H|(all & Hall & H)].
  { right. left. by eapply contains_getitem_Raise. }
  apply bind_Raise in H as [H|(first4 & _ & H)].
  { right. apply py_slice4_Raise in H as [->|[-> Hd]]; [by left|].
    right. split; [done|]. destruct all as [| | | | | |d]; try discriminate.
    exists d. unfold forecast_daily.
    apply py_getitem_Ok in Hf as ->. simpl. by apply py_getitem_Ok. }
  apply bind_Raise in H as [H|(items & _ & H)].
  { right. left. by apply py_iter_Raise in H. }
  apply for_each_Raise in H as (acc & x & _ & H).
  apply bind_Raise in H as [H|(r & _ & H)]; [|done].
  left. by apply filtered_daily_Raise in H.
Qed.

Lemma parquet_holdings_Raise data perf e :
  parquet_holdings data perf = Raise e →
  e = AttributeError ∨ e = TypeError.
Proof.
  unfold parquet_holdings.
  intros [H|([|] & Hc & H)]%bind_Raise.
  - right. by apply py_contains_Raise in H.
  - apply bind_Raise in H as [H|(hs & _ & H)].
    { right. by eapply contains_getitem_Raise. }
    apply bind_Raise in H as [H|(items & _ & H)].
    { right. by apply py_iter_Raise in H. }
    apply for_each_Raise in H as (acc & x & _ & H).
    apply bind_Raise in H as [H|(r & _ & H)]; [|done].
    left. by apply filter_holding_Raise in H.
  - done.
Qed.

Lemma parquet_performance_Raise data perf e :
  parquet_performance data perf = Raise e → e = AttributeError.
Proof.
  unfold parquet_performance, get_perf. intros H. do 3 raise_get H.
  apply bind_Raise in H as [H|(? & _ & H)]; [|done].
  by apply py_get_Raise in H.
Qed.

Lemma parquet_chart_Raise data perf_chart e :
  parquet_chart data perf_chart = Raise e →
  e = AttributeError ∨ e = TypeError.
Proof.
  unfold parquet_chart.
  intros [H|([|] & Hc & H)]%bind_Raise.
  - right. by apply py_contains_Raise in H.
  - apply bind_Raise in H as [H|(cs & _ & H)].
    { right. by eapply contains_getitem_Raise. }
    apply bind_Raise in H as [H|(items & _ & H)].
    { right. by apply py_iter_Raise in H. }
    apply bind_Raise in H as [H|(st & _ & H)]; [|done].
    apply for_each_Raise in H as ([first acc] & x & _ & H).
    destruct first; [done|].
    apply bind_Raise in H as [H|(r & _ & H)]; [|done].
    left. by apply get_perf_chart_Raise in H.
  - done.
Qed.

(** X10.  An exception raised by a transformer is an [AttributeError] or
    a [TypeError], with one exception: when [forecast.daily] is a mapping,
    the weather transformer raises what the slice [[:4]] of a mapping
    raises, which depends on the interpreter ([SliceAsKey]).  A missing
    key never raises: every subscript by a key is guarded by a test of
    the key, and the other reads go through [get].  The portfolio
    transformer takes no slice and raises nothing else. *)
Theorem transformer_exceptions data perf perf_chart e :
  (transform_data_tempest data = Raise e →
   e = AttributeError ∨ e = TypeError
   ∨ (e = SliceAsKey ∧ ∃ d, forecast_daily data = Some (JDict d)))
  ∧ (transform_data_parquet data perf perf_chart = Raise e →
     e = AttributeError ∨ e = TypeError).
Proof.
  split.
  - unfold transform_data_tempest.
    intros [H|(cc & _ & H)]%bind_Raise.
    { apply tempest_current_conditions_Raise in H. tauto. }
    apply bind_Raise in H as [H|(daily & _ & H)]; [|done].
    by apply tempest_daily_Raise in H.
  - unfold transform_data_parquet.
    intros [H|(hs & _ & H)]%bind_Raise.
    { by apply parquet_holdings_Raise in H. }
    apply bind_Raise in H as [H|(p & _ & H)].
    { left. by apply parquet_performance_Raise in H. }
    apply bind_Raise in H as [H|(c & _ & H)]; [|done].
    by apply parquet_chart_Raise in H.
Qed.

Lemma transformer_exceptions_witness :
  SliceAsKey = AttributeError ∨ SliceAsKey = TypeError
  ∨ (SliceAsKey = SliceAsKey
     ∧ ∃ d, forecast_daily
              (JDict {[ "forecast" := JDict {[ "daily" := JDict ∅ ]} ]})
            = Some (JDict d)).
Proof.
  destruct (transformer_exceptions
              (JDict {[ "forecast" := JDict {[ "daily" := JDict ∅ ]} ]})
              "" "" SliceAsKey) as [Htempest _].
  apply Htempest. by vm_compute.
Defined.

(** *** The blocks on a mapping *)

Lemma tempest_current_conditions_dict d :
  tempest_current_conditions (JDict d)
  = match d !! "current_conditions" with
    | Some c => copy_fields current_conditions_fields c ∅
    | None => Ok ∅
    end.
Proof. unfold tempest_current_conditions. apply guarded_getitem_dict. Qed.

Lemma tempest_daily_absent d :
  d !! "forecast" = None → tempest_daily (JDict d) = Ok [].
Proof.
  intros Hf. unfold tempest_daily. simpl.
  destruct (d !! "forecast") as [f|]; [discriminate | done].
Qed.

Lemma tempest_daily_list d fd l :
  d !! "forecast" = Some (JDict fd) → fd !! "daily" = Some (JList l) →
  tempest_daily (JDict d)
  = (rs ← mapM filtered_daily (take 4 l); Ok ([] ++ rs)).
Proof.
  intros Hf Hd. unfold tempest_daily. simpl.
  destruct (d !! "forecast") as [f|]; [|discriminate].
  injection Hf as ->. simpl.
  destruct (fd !! "daily") as [all|]; [|discriminate].
  injection Hd as ->. simpl. apply for_each_append.
Qed.

Lemma project_fields_idem keys src :
  project_fields keys (JDict (project_fields keys src))
  = project_fields keys src.
Proof.
  apply map_eq. intros k. rewrite !project_fields_lookup.
  destruct (decide (k ∈ keys)) as [Hk|Hk]; [|done]. f_equal.
  unfold field_or_null, field_or, field at 1.
  rewrite project_fields_lookup. by rewrite decide_True.
Qed.

(** X11.  The transformers look at their own keys only: two weather
    payloads that agree on [current_conditions] and [forecast] give the
    same result (or raise the same exception), and two portfolio payloads
    that agree on [holdings], [performance] and [charts] do; adding,
    changing or removing any other top-level key has no effect. *)
Theorem transformers_ignore_other_keys
    (d1 d2 : gmap string json) perf perf_chart :
  ((∀ k, k ∈ ["current_conditions"; "forecast"] → d1 !! k = d2 !! k) →
   transform_data_tempest (JDict d1) = transform_data_tempest (JDict d2))
  ∧ ((∀ k, k ∈ ["holdings"; "performance"; "charts"] →
           d1 !! k = d2 !! k) →
     transform_data_parquet (JDict d1) perf perf_chart
     = transform_data_parquet (JDict d2) perf perf_chart).
Proof.
  split; intros H.
  - assert (H1 : d1 !! "current_conditions" = d2 !! "current_conditions")
      by (apply H, list_elem_of_In; simpl; tauto).
    assert (H2 : d1 !! "forecast" = d2 !! "forecast")
      by (apply H, list_elem_of_In; simpl; tauto).
    unfold transform_data_tempest.
    rewrite !tempest_current_conditions_dict, H1.
    unfold tempest_daily. simpl. by rewrite H2.
  - assert (H1 : d1 !! "holdings" = d2 !! "holdings")
      by (apply H, list_elem_of_In; simpl; tauto).
    assert (H2 : d1 !! "performance" = d2 !! "performance")
      by (apply H, list_elem_of_In; simpl; tauto).
    assert (H3 : d1 !! "charts" = d2 !! "charts")
      by (apply H, list_elem_of_In; simpl; tauto).
    unfold transform_data_parquet, parquet_holdings, parquet_performance,
      parquet_chart.
    rewrite !guarded_getitem_dict. simpl. by rewrite H1, H2, H3.
Qed.

Lemma transformers_ignore_other_keys_witness :
  transform_data_tempest
    (JDict (<["status" := JInt 0]> {[ "current_conditions" := JDict ∅ ]}))
  = transform_data_tempest (JDict {[ "current_conditions" := JDict ∅ ]}).
Proof.
  destruct (transformers_ignore_other_keys
              (<["status" := JInt 0]> {[ "current_conditions" := JDict ∅ ]})
              {[ "current_conditions" := JDict ∅ ]} "" "")
    as [Htempest _].
  apply Htempest. intros k Hk. apply list_elem_of_In in Hk. simpl in Hk.
  destruct Hk as [<-|[<-|[]]]; reflexivity.
Defined.

(** The weather transformer on one of its own outputs. *)
Lemma transform_data_tempest_on_output (cc : gmap string json) daily :
  Forall (fun r => ∃ x, r = JDict (project_fields daily_fields x)) daily →
  (length daily ≤ 4)%nat →
  transform_data_tempest
    (JDict {[ "current_conditions" := JDict cc;
              "forecast" := JDict {[ "daily" := JList daily ]} ]})
  = Ok (JDict {[ "current_conditions" :=
                   JDict (project_fields current_conditions_fields
                                         (JDict cc));
                 "forecast" := JDict {[ "daily" := JList daily ]} ]}).
Proof.
  intros Hd Hlen. unfold transform_data_tempest.
  rewrite tempest_current_conditions_dict, lookup_insert_eq.
  rewrite copy_fields_project. simpl.
  rewrite (tempest_daily_list _ {[ "daily" := JList daily ]} daily);
    [|by rewrite lookup_insert_ne by done; rewrite lookup_singleton_eq
     |by rewrite lookup_singleton_eq].
  rewrite take_ge by done.
  rewrite (mapM_ext_Ok _ (fun r => r)).
  - simpl. by rewrite list_fmap_id.
  - eapply Forall_impl; [exact Hd|]. intros r [x ->].
    rewrite filtered_daily_wf by done. by rewrite project_fields_idem.
Qed.

(** X12.  Applying the weather transformer to its own output returns, and
    leaves the forecast unchanged.  When the payload had the key
    [current_conditions] the output is a fixed point: the second pass
    returns it unchanged.  When the payload lacked the key, the output's
    [current_conditions] is the empty mapping, and the second pass fills
    it with the eight fields, all null. *)
Theorem transform_weather_twice data out :
  transform_data_tempest data = Ok out →
  ∃ out',
    transform_data_tempest out = Ok out'
    ∧ field out' "forecast" = field out "forecast"
    ∧ (is_Some (field data "current_conditions") → out' = out)
    ∧ (field data "current_conditions" = None →
       field out "current_conditions" = Some (JDict ∅)
       ∧ field out' "current_conditions" = Some (JDict eight_nulls)).
Proof.
  intros (cc & daily & -> & Hcc & Hd)%transform_data_tempest_Ok.
  apply tempest_current_conditions_Ok in Hcc.
  apply tempest_daily_Ok in Hd as [-> _].
  eexists. split.
  { apply transform_data_tempest_on_output.
    - apply Forall_fmap, Forall_forall. intros x _. by exists x.
    - rewrite length_fmap, length_take. lia. }
  split; [done|]. split.
  - intros [c Hc]. rewrite Hc in Hcc. destruct Hcc as [_ ->].
    by rewrite project_fields_idem.
  - intros Hnone. rewrite Hnone in Hcc. subst cc. done.
Qed.

Lemma transform_weather_twice_witness :
  ∃ out,
    transform_data_tempest weather_sample = Ok out
    ∧ transform_data_tempest out = Ok out.
Proof.
  destruct (transform_data_tempest weather_sample) as [out|e] eqn:Hout;
    [|by vm_compute in Hout].
  exists out. split; [reflexivity|].
  destruct (transform_weather_twice weather_sample out Hout)
    as (out' & Hrun & _ & Hfix & _).
  rewrite Hrun. f_equal. apply Hfix. by eexists.
Defined.

Lemma filter_length_bound {A} (p : A → bool) l :
  (length (List.filter p l) ≤ length l)%nat.
Proof. induction l as [|x l IH]; simpl; [done|]. destruct (p x); simpl; lia. Qed.

(** X13.  Every record of the portfolio output passes the visible part of
    the filter rule: its [assetType] is "security" or "crypto", and its
    [shares] is present and not equal to 0.  The output has at most as
    many holdings as the payload. *)
Theorem output_holdings_pass_the_rule data perf perf_chart out :
  transform_data_parquet data perf perf_chart = Ok out →
  ∃ hs,
    field out "holdings" = Some (JList hs)
    ∧ (length hs ≤ length (items_of (field data "holdings")))%nat
    ∧ Forall (fun r =>
                (field r "assetType" = Some (JStr "security")
                 ∨ field r "assetType" = Some (JStr "crypto"))
                ∧ ∃ shares, field r "shares" = Some shares
                            ∧ py_eq_zero shares = false)
             hs.
Proof.
  intros (hs & p & c & -> & Hh & _ & _)%transform_data_parquet_Ok.
  apply parquet_holdings_Ok in Hh as ->. eexists. split; [done|]. split.
  - rewrite length_fmap. apply filter_length_bound.
  - apply Forall_fmap, Forall_forall. intros h Hin.
    apply list_elem_of_In, filter_In in Hin as [_ Hk].
    unfold keeps in Hk. rewrite !andb_true_iff, !negb_true_iff in Hk.
    destruct Hk as [[Hat _] Hshares]. apply bool_decide_eq_true in Hat.
    split.
    + unfold projected, field. rewrite lookup_insert_eq.
      apply list_elem_of_In in Hat. simpl in Hat.
      destruct Hat as [<-|[<-|[]]]; tauto.
    + exists (sub_field JNull h "position" "shares"). split; [|done].
      unfold projected, field. by lookup_literal.
Qed.

Lemma output_holdings_pass_the_rule_witness :
  ∃ out hs,
    transform_data_parquet portfolio_sample "ttwror" "drawdown" = Ok out
    ∧ field out "holdings" = Some (JList hs)
    ∧ (length hs ≤ 5)%nat.
Proof.
  destruct (transform_data_parquet portfolio_sample "ttwror" "drawdown")
    as [out|e] eqn:Hout; [|by vm_compute in Hout].
  destruct (output_holdings_pass_the_rule _ _ _ _ Hout)
    as (hs & Hf & Hlen & _).
  exists out, hs. split; [reflexivity|]. split; [exact Hf | exact Hlen].
Defined.

(** X14.  A payload that is no mapping never gets through the portfolio
    transformer.  The weather transformer, given a JSON array, returns
    the empty output unless the array contains the string
    "current_conditions" or the string "forecast", in which case it
    raises a [TypeError]. *)
Theorem transformers_on_other_payloads :
  (∀ data perf perf_chart out,
     transform_data_parquet data perf perf_chart = Ok out →
     is_dict data = true)
  ∧ (∀ l,
       transform_data_tempest (JList l)
       = if existsb (fun v => py_eq_str v "current_conditions") l
            || existsb (fun v => py_eq_str v "forecast") l
         then Raise TypeError
         else Ok (JDict {[ "current_conditions" := JDict ∅;
                           "forecast" := JDict {[ "daily" := JList [] ]} ]})).
Proof.
  split.
  - intros data perf perf_chart out
      (hs & p & c & _ & _ & Hp & _)%transform_data_parquet_Ok.
    by apply parquet_performance_Ok in Hp as [? _].
  - intros l. unfold transform_data_tempest, tempest_current_conditions,
      tempest_daily. simpl.
    destruct (existsb (fun v => py_eq_str v "current_conditions") l);
      simpl; [done|].
    by destruct (existsb (fun v => py_eq_str v "forecast") l).
Qed.

Lemma transformers_on_other_payloads_witness :
  is_dict portfolio_sample = true.
Proof.
  destruct transformers_on_other_payloads as [Hdict _].
  destruct (transform_data_parquet portfolio_sample "ttwror" "drawdown")
    as [out|e] eqn:Hout; [|by vm_compute in Hout].
  exact (Hdict _ _ _ _ Hout).
Defined.

(** X15.  The first chart record is never inspected: replacing it by any
    value, a mapping or not, changes neither the output nor the exception
    of the portfolio transformer. *)
Theorem first_chart_is_never_inspected
    (d : gmap string json) c1 c2 cs perf perf_chart :
  transform_data_parquet (JDict (<["charts" := JList (c1 :: cs)]> d))
                         perf perf_chart
  = transform_data_parquet (JDict (<["charts" := JList (c2 :: cs)]> d))
                           perf perf_chart.
Proof.
  unfold transform_data_parquet.
  assert (Hh : ∀ c,
    parquet_holdings (JDict (<["charts" := JList (c :: cs)]> d)) perf
    = parquet_holdings (JDict d) perf).
  { intros c. unfold parquet_holdings. rewrite !guarded_getitem_dict.
    by rewrite lookup_insert_ne. }
  assert (Hp : ∀ c,
    parquet_performance (JDict (<["charts" := JList (c :: cs)]> d)) perf
    = parquet_performance (JDict d) perf).
  { intros c. unfold parquet_performance.
    rewrite !(py_get_dict (<["charts" := JList (c :: cs)]> d)).
    rewrite !(py_get_dict d). unfold field_or, field.
    by rewrite lookup_insert_ne. }
  assert (Hc : ∀ c,
    parquet_chart (JDict (<["charts" := JList (c :: cs)]> d)) perf_chart
    = (st ← for_each (fun (st : bool * list json) chart =>
                        let (first, acc) := st in
                        if first then Ok (false, acc)
                        else v ← get_perf_chart chart perf_chart;
                             Ok (false, acc ++ [v]))
                     cs (false, []);
       Ok st.2)).
  { intros c. unfold parquet_chart. rewrite guarded_getitem_dict.
    by rewrite lookup_insert_eq. }
  by rewrite !Hh, !Hp, !Hc.
Qed.

Lemma filter_holding_lower (d : gmap string json) s1 s2 perf :
  lower s1 = lower s2 →
  filter_holding (JDict (<["assetType" := JStr s1]> d)) perf
  = filter_holding (JDict (<["assetType" := JStr s2]> d)) perf.
Proof.
  intros Hl. unfold filter_holding, get_perf. cbn [py_get].
  rewrite !lookup_insert_eq, !lookup_insert_ne by done.
  cbn [default from_option mbind result_bind].
  change (py_lower (id (JStr s1))) with (Ok (lower s1)).
  change (py_lower (id (JStr s2))) with (Ok (lower s2)).
  by rewrite Hl.
Qed.

Lemma mapM_at {A B} (f : A → result B) l1 x y l2 :
  f x = f y → mapM f (l1 ++ x :: l2) = mapM f (l1 ++ y :: l2).
Proof.
  intros Hxy. induction l1 as [|z l1 IH]; simpl.
  - by rewrite Hxy.
  - by rewrite IH.
Qed.

(** X16.  The holdings filter reads [assetType] through [lower()] only:
    changing the letter case of one holding's [assetType] changes neither
    the output nor the exception of the portfolio transformer. *)
Theorem asset_type_case_is_ignored
    (d h : gmap string json) l1 l2 s1 s2 perf perf_chart :
  lower s1 = lower s2 →
  transform_data_parquet
    (JDict (<["holdings" :=
                JList (l1 ++ JDict (<["assetType" := JStr s1]> h) :: l2)]> d))
    perf perf_chart
  = transform_data_parquet
      (JDict (<["holdings" :=
                  JList (l1 ++ JDict (<["assetType" := JStr s2]> h) :: l2)]> d))
      perf perf_chart.
Proof.
  intros Hl. unfold transform_data_parquet.
  assert (Hh : ∀ s,
    parquet_holdings
      (JDict (<["holdings" :=
                  JList (l1 ++ JDict (<["assetType" := JStr s]> h) :: l2)]> d))
      perf
    = (rs ← mapM (fun x => filter_holding x perf)
                 (l1 ++ JDict (<["assetType" := JStr s]> h) :: l2);
       Ok (omap (M := list) (fun r : option json => r) rs))).
  { intros s. unfold parquet_holdings. rewrite guarded_getitem_dict.
    rewrite lookup_insert_eq. cbn [py_iter mbind result_bind].
    by rewrite for_each_append_some. }
  assert (Hp : ∀ hs,
    parquet_performance (JDict (<["holdings" := hs]> d)) perf
    = parquet_performance (JDict d) perf).
  { intros hs. unfold parquet_performance.
    rewrite !(py_get_dict (<["holdings" := hs]> d)).
    rewrite !(py_get_dict d). unfold field_or, field.
    by rewrite lookup_insert_ne. }
  assert (Hc : ∀ hs,
    parquet_chart (JDict (<["holdings" := hs]> d)) perf_chart
    = parquet_chart (JDict d) perf_chart).
  { intros hs. unfold parquet_chart. rewrite !guarded_getitem_dict.
    by rewrite lookup_insert_ne. }
  rewrite !Hh, !Hp, !Hc.
  by rewrite (mapM_at (fun x => filter_holding x perf) l1 _ _ l2
                (filter_holding_lower h s1 s2 perf Hl)).
Qed.

Lemma asset_type_case_is_ignored_witness :
  transform_data_parquet
    (JDict (<["holdings" :=
                JList ([] ++ JDict (<["assetType" := JStr "Crypto"]> ∅) :: [])]>
              ∅)) "ttwror" "drawdown"
  = transform_data_parquet
      (JDict (<["holdings" :=
                  JList ([] ++ JDict (<["assetType" := JStr "CRYPTO"]> ∅) :: [])]>
                ∅)) "ttwror" "drawdown".
Proof.
  apply (asset_type_case_is_ignored ∅ ∅ [] [] "Crypto" "CRYPTO").
  reflexivity.
Defined.
Example tempest_on_sample :
  transform_data_tempest weather_sample =
  Ok (JDict {[ "current_conditions" :=
                 JDict {[ "air_temperature" := JInt 21;
                          "icon" := JStr "clear-day";
                          "conditions" := JNull; "feels_like" := JNull;
                          "relative_humidity" := JNull;
                          "station_pressure" := JNull;
                          "precip_probability" := JNull;
                          "wind_gust" := JNull ]};
               "forecast" :=
                 JDict {[ "daily" :=
                            JList (daily_of_day_num <$> [1; 2; 3; 4]%Z) ]} ]}).
Proof. vm_compute. reflexivity. Qed.

Example parquet_on_sample :
  transform_data_parquet portfolio_sample "ttwror" "drawdown" =
  Ok (JDict {[ "holdings" :=
                 JList [ kept_sample "security" (JInt (-5));
                         kept_sample "crypto" JNull ];
               "performance" :=
                 JDict {[ "valueStart" := JNull; "valueNow" := JInt 100;
                          "perf" := JInt 0 ]};
               "chart" := JList [ JInt 2; JInt 0 ] ]}).
Proof. vm_compute. reflexivity. Qed.

Example tempest_on_list :
  transform_data_tempest (JList []) =
  Ok (JDict {[ "current_conditions" := JDict ∅;
               "forecast" := JDict {[ "daily" := JList [] ]} ]}).
Proof. vm_compute. reflexivity. Qed.

Example lower_latin1 : lower "SECURITY []" = "security []".
Proof. reflexivity. Qed.
